(** * umdatabase-tools: ISO 9660 and PSF/SFO decoders

    A shallow embedding of [isoparser.py] and of the decoding half of
    [umdb_gen_submission.py], followed by the properties of the decoders
    that the design document states.

    Python values are modelled as follows.
    - [int] is [Z] (unbounded, as in Python).
    - [bytes] is [list byte]; indexing, slicing and [struct] unpacking
      keep Python's treatment of negative and out-of-range positions.
    - [str] is [string]; a decoded text is held by its UTF-8 bytes, which
      for the ASCII and UTF-8 codecs are the bytes that were decoded.
    - an exception is a value of [exn]; a call that can raise returns
      [result].
    - a [while] loop or a recursion that the code does not bound takes a
      fuel argument and returns [None] when the fuel is used up; the
      limit that the interpreter puts on the depth of recursion is not
      modelled.
    - a file object is a [stream]: its content and its position. *)

From Stdlib Require Import ZArith List Lia Bool String Ascii DecimalString.
From Stdlib.Strings Require Import Byte.
From stdpp Require Import gmap strings.

Open Scope Z_scope.

(** ** Python primitives *)

Module Py.

Inductive exn : Type :=
| IndexError
| StructError
| UnicodeDecodeError
| OSError
| ValueError
| AssertionError
| Exception (msg : string).

Inductive result (A : Type) : Type :=
| Ok (a : A)
| Raise (e : exn).

Arguments Ok {A} a.
Arguments Raise {A} e.

Definition bind {A B : Type} (r : result A) (k : A → result B) : result B :=
  match r with
  | Ok a => k a
  | Raise e => Raise e
  end.

(** Computations that may also use up their fuel. *)
Definition run (A : Type) : Type := option (result A).

Definition bindF {A B : Type} (m : run A) (k : A → run B) : run B :=
  match m with
  | None => None
  | Some (Raise e) => Some (Raise e)
  | Some (Ok a) => k a
  end.

Definition lift {A : Type} (r : result A) : run A := Some r.

Abbreviation bytes := (list byte).

Definition b2z (b : byte) : Z := Z.of_N (Byte.to_N b).

Definition len (raw : bytes) : Z := Z.of_nat (length raw).

(** [raw[i]]: a negative index counts from the end. *)
Definition getitem (raw : bytes) (i : Z) : result Z :=
  let j := if i <? 0 then i + len raw else i in
  if (0 <=? j) && (j <? len raw)
  then Ok (b2z (nth (Z.to_nat j) raw x00))
  else Raise IndexError.

(** Bound of a slice: negative bounds count from the end, and every bound
    is clipped to the sequence. *)
Definition clip (n i : Z) : Z :=
  if i <? 0 then Z.max (i + n) 0 else Z.min i n.

(** [raw[a:b]] *)
Definition slice (raw : bytes) (a b : Z) : bytes :=
  let a' := clip (len raw) a in
  let b' := clip (len raw) b in
  take (Z.to_nat (b' - a')) (drop (Z.to_nat a') raw).

(** The [size] bytes that [struct.unpack_from(fmt, raw, offset)] decodes,
    for a format of [size] bytes. *)
Definition unpack_from (size : Z) (raw : bytes) (offset : Z) : result bytes :=
  let off := if offset <? 0 then offset + len raw else offset in
  if (0 <=? off) && (off + size <=? len raw)
  then Ok (take (Z.to_nat size) (drop (Z.to_nat off) raw))
  else Raise StructError.

(** The bytes that [struct.unpack(fmt, buf)] decodes: [buf] must have
    exactly the size of the format. *)
Definition unpack (size : Z) (buf : bytes) : result bytes :=
  if len buf =? size then Ok buf else Raise StructError.

(** [int.from_bytes(bs, "little")] *)
Definition int_from_bytes_little (bs : bytes) : Z :=
  fold_right (λ b acc, b2z b + 256 * acc) 0 bs.

Definition to_signed (bits : Z) (u : Z) : Z :=
  if u <? 2 ^ (bits - 1) then u else u - 2 ^ bits.

(** Fields of an unpacked window, little-endian. *)
Definition field (w : bytes) (off n : nat) : bytes := take n (drop off w).

Definition fmt_B (w : bytes) (off : nat) : Z := int_from_bytes_little (field w off 1).
Definition fmt_b (w : bytes) (off : nat) : Z := to_signed 8 (fmt_B w off).
Definition fmt_H (w : bytes) (off : nat) : Z := int_from_bytes_little (field w off 2).
Definition fmt_h (w : bytes) (off : nat) : Z := to_signed 16 (fmt_H w off).
Definition fmt_I (w : bytes) (off : nat) : Z := int_from_bytes_little (field w off 4).
Definition fmt_i (w : bytes) (off : nat) : Z := to_signed 32 (fmt_I w off).

(** [bs.decode('ascii')] *)
Definition decode_ascii (bs : bytes) : result string :=
  if forallb (λ b, b2z b <? 128) bs
  then Ok (string_of_list_byte bs)
  else Raise UnicodeDecodeError.

(** Well-formed UTF-8, as the strict codec accepts it: no overlong form,
    no surrogate, nothing above U+10FFFF. *)
Definition cont (lo hi : Z) (b : byte) : bool := (lo <=? b2z b) && (b2z b <=? hi).

Fixpoint utf8_valid (bs : bytes) : bool :=
  match bs with
  | [] => true
  | b0 :: r0 =>
    let c := b2z b0 in
    if c <? 0x80 then utf8_valid r0
    else if (0xC2 <=? c) && (c <=? 0xDF) then
      match r0 with
      | b1 :: r1 => cont 0x80 0xBF b1 && utf8_valid r1
      | _ => false
      end
    else if (0xE0 <=? c) && (c <=? 0xEF) then
      match r0 with
      | b1 :: b2 :: r2 =>
        cont (if c =? 0xE0 then 0xA0 else 0x80)
             (if c =? 0xED then 0x9F else 0xBF) b1
        && cont 0x80 0xBF b2 && utf8_valid r2
      | _ => false
      end
    else if (0xF0 <=? c) && (c <=? 0xF4) then
      match r0 with
      | b1 :: b2 :: b3 :: r3 =>
        cont (if c =? 0xF0 then 0x90 else 0x80)
             (if c =? 0xF4 then 0x8F else 0xBF) b1
        && cont 0x80 0xBF b2 && cont 0x80 0xBF b3 && utf8_valid r3
      | _ => false
      end
    else false
  end.

(** [bs.decode('utf8')] *)
Definition decode_utf8 (bs : bytes) : result string :=
  if utf8_valid bs
  then Ok (string_of_list_byte bs)
  else Raise UnicodeDecodeError.

(** Stripping a set of characters from the two ends of a text. *)
Fixpoint lstrip_with (p : ascii → bool) (s : string) : string :=
  match s with
  | EmptyString => EmptyString
  | String c s' => if p c then lstrip_with p s' else s
  end.

Fixpoint rstrip_with (p : ascii → bool) (s : string) : string :=
  match s with
  | EmptyString => EmptyString
  | String c s' =>
    match rstrip_with p s' with
    | EmptyString => if p c then EmptyString else String c EmptyString
    | t => String c t
    end
  end.

Definition is_nul (c : ascii) : bool := (N_of_ascii c =? 0)%N.

(** The characters [str.strip()] removes, among the ASCII ones: tab to
    carriage return, the four separators 0x1c-0x1f, and space. NUL is not
    one of them. *)
Definition isspace (c : ascii) : bool :=
  let n := N_of_ascii c in
  ((9 <=? n) && (n <=? 13) || (28 <=? n) && (n <=? 32))%N.

(** [s.rstrip("\x00")] *)
Definition rstrip_nul (s : string) : string := rstrip_with is_nul s.

(** [s.strip()] *)
Definition strip (s : string) : string := rstrip_with isspace (lstrip_with isspace s).

(** [f"{n}"] for an [int]. *)
Definition str_of_int (n : Z) : string := NilZero.string_of_int (Z.to_int n).

(** [s.strip(chars)] for a set of characters. *)
Definition strip_with (p : ascii → bool) (s : string) : string :=
  rstrip_with p (lstrip_with p s).

(** [s.split(sep)] for a separator of one character: the pieces between
    the separators, one more than there are separators. *)
Fixpoint split_on (sep : ascii) (s : string) : list string :=
  match s with
  | EmptyString => [EmptyString]
  | String c s' =>
    if Ascii.eqb c sep then EmptyString :: split_on sep s'
    else match split_on sep s' with
         | [] => [String c EmptyString]
         | piece :: pieces => String c piece :: pieces
         end
  end.

(** [s.endswith(suffix)] *)
Definition endswith (s suffix : string) : bool :=
  let n := String.length s in
  let m := String.length suffix in
  (m <=? n)%nat && String.eqb (substring (n - m) m s) suffix.

(** [format(n, 'x')]: lower-case hexadecimal, a minus sign before the
    digits of a negative number. *)
Definition hex_digit (d : Z) : ascii :=
  if d <? 10 then ascii_of_N (Z.to_N (48 + d)) else ascii_of_N (Z.to_N (87 + d)).

Fixpoint hex_digits (fuel : nat) (n : Z) (acc : string) : string :=
  match fuel with
  | O => acc
  | S fuel' =>
    let acc' := String (hex_digit (n mod 16)) acc in
    if n / 16 =? 0 then acc' else hex_digits fuel' (n / 16) acc'
  end.

Definition format_x (n : Z) : string :=
  if n <? 0
  then String "-" (hex_digits (S (Z.to_nat (Z.log2 (- n)))) (- n) EmptyString)
  else hex_digits (S (Z.to_nat (Z.log2 n))) n EmptyString.

(** [s.zfill(width)]: zeros at the left, after a sign if there is one. *)
Definition zfill (width : nat) (s : string) : string :=
  let pad := string_of_list_ascii (repeat "0"%char (width - String.length s)) in
  match s with
  | String c s' =>
    if Ascii.eqb c "+" || Ascii.eqb c "-" then String c (pad +:+ s')
    else (pad +:+ s)%string
  | EmptyString => pad
  end.

(** *** File objects opened for binary reading *)

Record stream : Type := mkStream { content : bytes; pos : Z }.

(** [open(file, 'rb')] *)
Definition open (file : bytes) : stream := mkStream file 0.

(** [f.seek(n)] *)
Definition seek (f : stream) (n : Z) : result stream :=
  if n <? 0 then Raise OSError else Ok (mkStream (content f) n).

(** [f.read(n)]: at most [n] bytes, fewer at the end of the file; all the
    rest for [n = -1]. *)
Definition read (f : stream) (n : Z) : result (bytes * stream) :=
  if n <? -1 then Raise ValueError else
  let rest := drop (Z.to_nat (pos f)) (content f) in
  let data := if n =? -1 then rest else take (Z.to_nat n) rest in
  Ok (data, mkStream (content f) (pos f + len data)).

Notation "'let*' p ':=' c1 'in' c2" := (bind c1 (λ p, c2))
  (at level 10, p pattern, c1 at level 100, c2 at level 200).
Notation "'let+' p ':=' c1 'in' c2" := (bindF c1 (λ p, c2))
  (at level 10, p pattern, c1 at level 100, c2 at level 200).

(** *** The scan for the primary volume descriptor

    [get_pvd_header] of [isoparser.py] and [get_pvd_dump] of
    [umdb_gen_submission.py] are the same loop around two decoders of the
    sector found; [on_pvd] is that decoder. *)

Section PvdScan.

Context {A : Type} (on_pvd : bytes → result A).

Fixpoint pvd_scan_loop (fuel : nat) (filestream : stream) (raw_sector : bytes)
  : run (A * stream) :=
  match fuel with
  | O => None
  | S fuel' =>
    let+ t := lift (getitem raw_sector 0) in
    if negb (t =? 0xFF) then
      if t =? 0x01 then
        let+ r := lift (on_pvd raw_sector) in
        Some (Ok (r, filestream))
      else
        let+ (raw_sector', filestream') := lift (read filestream 0x800) in
        pvd_scan_loop fuel' filestream' raw_sector'
    else Some (Raise (Exception "Could not find PVD"))
  end.

Definition pvd_scan_fuel (fuel : nat) (filestream : stream) : run (A * stream) :=
  let+ filestream := lift (seek filestream 0x8000) in
  let+ (raw_sector, filestream) := lift (read filestream 0x800) in
  pvd_scan_loop fuel filestream raw_sector.

(** Every pass of the loop but the last has read a non-empty sector, so a
    fuel of two more than the length of the file is never used up
    (see [pvd_scan_total]). *)
Definition pvd_scan (filestream : stream) : run (A * stream) :=
  pvd_scan_fuel (S (S (length (content filestream)))) filestream.

End PvdScan.

(** *** Hash objects

    What the code uses of an object of [hashlib]: a fresh object, [update]
    and [hexdigest].  The algorithms are the library's and are not
    modelled; the code is modelled over any object with this interface. *)

Record hasher : Type := mkHasher {
  hstate : Type;
  hnew : hstate;
  hupdate : hstate → bytes → hstate;
  hhexdigest : hstate → string
}.

End Py.

Export Py.


(** ** isoparser.py *)

Module IsoParser.

Record DirEntry : Type := mkDirEntry {
  length_ : Z;
  ext_length : Z;
  extent : Z;
  data_length : Z;
  datetime : bytes;
  flags : Z;
  unit_size : Z;
  interleave_size : Z;
  seqnum : Z;
  name_len : Z;
  name : string
}.

(** [DirEntry.__init__]: the header format ["<bb i4x i4x 7s bbb h2x b"]
    has 33 bytes; the name follows it. A negative [name_len] gives a
    format that [struct] refuses. *)
Definition DirEntry_init (raw : bytes) (offset : Z) : result DirEntry :=
  let* header := unpack_from 33 raw offset in
  let name_len := fmt_b header 32 in
  let* raw_name :=
    (if name_len <? 0 then Raise StructError
     else unpack_from name_len raw (offset + 0x21)) in
  let* name := decode_ascii raw_name in
  Ok {| length_ := fmt_b header 0;
        ext_length := fmt_b header 1;
        extent := fmt_i header 2;
        data_length := fmt_i header 10;
        datetime := field header 18 7;
        flags := fmt_b header 25;
        unit_size := fmt_b header 26;
        interleave_size := fmt_b header 27;
        seqnum := fmt_h header 28;
        name_len := name_len;
        name := name |}.

Record IsoHeader : Type := mkIsoHeader {
  volume_space_size : Z;
  block_size : Z;
  path_table_size : Z;
  l_table_off : Z;
  opt_l_table_off : Z;
  root_dir : DirEntry
}.

(** [IsoHeader.__init__]: ["<i44xh2xi"] at 80 has 56 bytes, ["<ii"] at 140
    has 8. *)
Definition IsoHeader_init (pvd : bytes) : result IsoHeader :=
  let* vol_info := unpack_from 56 pvd 80 in
  let* l_table := unpack_from 8 pvd 140 in
  let* root := DirEntry_init pvd 0x9c in
  Ok {| volume_space_size := fmt_i vol_info 0;
        block_size := fmt_h vol_info 48;
        path_table_size := fmt_i vol_info 52;
        l_table_off := fmt_i l_table 0;
        opt_l_table_off := fmt_i l_table 4;
        root_dir := root |}.

Record PathTableEntry : Type := mkPathTableEntry {
  pt_len : Z;
  pt_ext_len : Z;
  pt_extent : Z;
  pt_dir_nb : Z;
  pt_name : string
}.

(** [PathTableEntry.__init__]: ["<bbih"] has 8 bytes; the name is a slice,
    which never raises. *)
Definition PathTableEntry_init (raw : bytes) (offset : Z) : result PathTableEntry :=
  let* data := unpack_from 8 raw offset in
  let len_ := fmt_b data 0 in
  let* name := decode_ascii (slice raw (offset + 8) (offset + 8 + len_)) in
  Ok {| pt_len := len_;
        pt_ext_len := fmt_b data 1;
        pt_extent := fmt_i data 2;
        pt_dir_nb := fmt_h data 6;
        pt_name := name |}.

(** [PathTableEntry.size]; Python's [%] takes the sign of the divisor, as
    [Z.modulo] does. *)
Definition PathTableEntry_size (e : PathTableEntry) : Z :=
  let fullsize := 8 + pt_len e in
  if fullsize mod 2 =? 0 then fullsize else fullsize + 1.

(** [get_pvd_header]: the scan for the volume descriptor of type 1, which
    is decoded by [IsoHeader]. *)
Definition get_pvd_header (filestream : stream) : run (IsoHeader * stream) :=
  pvd_scan IsoHeader_init filestream.

(** [walk_dirs]. [out] is a Python list shared between a call and the
    calls below it: a call that receives a non-empty list appends to that
    very list, a call that receives [None] or an empty list makes a list
    of its own. [entry.print()] writes to the console and has no part in
    what is returned. *)
Fixpoint walk_dirs (fuel : nat) (stream_ : stream) (root_dir : DirEntry)
    (out : option (list DirEntry)) {struct fuel} : run (list DirEntry * stream) :=
  match fuel with
  | O => None
  | S fuel' =>
    let out :=
      match out with
      | None | Some [] => []
      | Some o => o
      end in
    let+ stream_ := lift (seek stream_ (extent root_dir * 0x800)) in
    let+ (data, stream_) := lift (read stream_ 0x800) in
    walk_dirs_loop fuel' stream_ data 0 0 out
  end
with walk_dirs_loop (fuel : nat) (stream_ : stream) (data : bytes) (idx i : Z)
    (out : list DirEntry) {struct fuel} : run (list DirEntry * stream) :=
  match fuel with
  | O => None
  | S fuel' =>
    let+ b := lift (getitem data idx) in
    if b =? 0 then Some (Ok (out, stream_)) else
    let+ entry := lift (DirEntry_init data idx) in
    if negb (Z.land (flags entry) 0x02 =? 0) && (2 <=? i) then
      let out1 := out ++ [entry] in
      let+ (callee_out, stream_) := walk_dirs fuel' stream_ entry (Some out1) in
      let out2 :=
        match out1 with
        | [] => out1
        | _ => callee_out
        end in
      walk_dirs_loop fuel' stream_ data (idx + length_ entry) (i + 1) out2
    else
      walk_dirs_loop fuel' stream_ data (idx + length_ entry) (i + 1) out
  end.

(** The path-table loop of [parse_iso]. *)
Fixpoint path_table_loop (fuel : nat) (data : bytes) (path_table_size : Z) (idx : Z)
  : run Z :=
  match fuel with
  | O => None
  | S fuel' =>
    if idx <? path_table_size then
      let+ entry := lift (PathTableEntry_init data idx) in
      path_table_loop fuel' data path_table_size (idx + PathTableEntry_size entry)
    else Some (Ok idx)
  end.

(** [parse_iso], on the bytes of the file.  The source binds the result
    of the walk to [dirs] and returns nothing; the model returns [dirs]. *)
Definition parse_iso (fuel : nat) (file : bytes) : run (list DirEntry) :=
  let f := open file in
  let+ (header, f) := get_pvd_header f in
  let+ f := lift (seek f (l_table_off header * block_size header)) in
  let+ (data, f) := lift (read f (path_table_size header)) in
  let+ _ := path_table_loop fuel data (path_table_size header) 0 in
  let+ (dirs, _) := walk_dirs fuel f (root_dir header) None in
  Some (Ok dirs).

End IsoParser.

(** ** umdb_gen_submission.py *)

Module Submission.

Inductive SFODataFormat : Type :=
| UTF8_NOTERM
| UTF8
| INT32.

(** [SFODataFormat(v)]: the enumeration refuses a value it does not list. *)
Definition SFODataFormat_of (v : Z) : result SFODataFormat :=
  if v =? 0x0004 then Ok UTF8_NOTERM
  else if v =? 0x0204 then Ok UTF8
  else if v =? 0x0404 then Ok INT32
  else Raise ValueError.

Record SFOIndexTableEntry : Type := mkSFOIndexTableEntry {
  key_offset : Z;
  data_fmt : SFODataFormat;
  data_len : Z;
  data_max_len : Z;
  data_offset : Z
}.

(** [SFOIndexTableEntry.__init__]: ['<HHIII'] has 16 bytes, and
    [struct.unpack] wants a buffer of exactly that size. *)
Definition SFOIndexTableEntry_init (raw : bytes) (offset : Z) : result SFOIndexTableEntry :=
  let* fields := unpack 0x10 (slice raw offset (offset + 0x10)) in
  let* fmt := SFODataFormat_of (fmt_H fields 2) in
  Ok {| key_offset := fmt_H fields 0;
        data_fmt := fmt;
        data_len := fmt_I fields 4;
        data_max_len := fmt_I fields 8;
        data_offset := fmt_I fields 12 |}.

(** A value of the [data] dictionary: an [int] or a [str]. *)
Inductive sfo_value : Type :=
| VInt (n : Z)
| VStr (s : string).

Record SFO : Type := mkSFO {
  version : string;
  key_table_start : Z;
  data_table_start : Z;
  table_entries : Z;
  idx_table : list SFOIndexTableEntry;
  data : gmap string sfo_value
}.

(** [for i in range(n): s = body(i, s)], counting from [i]. *)
Fixpoint for_range {St : Type} (n : nat) (i : nat) (body : nat → St → result St) (s : St)
  : result St :=
  match n with
  | O => Ok s
  | S n' => let* s' := body i s in for_range n' (S i) body s'
  end.

(** [l[i]] for a list and an index that is not negative. *)
Definition list_getitem {A : Type} (l : list A) (i : nat) : result A :=
  match l !! i with
  | Some a => Ok a
  | None => Raise IndexError
  end.

(** [SFO._read_entry] *)
Definition _read_entry (self : SFO) (raw_sfo : bytes) (idx : nat) : result SFO :=
  let key_table_start := key_table_start self in
  let data_table_start := data_table_start self in
  let* entry := list_getitem (idx_table self) idx in
  let k_start := key_table_start + key_offset entry in
  let* k_end :=
    (if Z.of_nat idx =? Z.of_nat (length (idx_table self)) - 1
     then Ok data_table_start
     else let* next := list_getitem (idx_table self) (idx + 1) in
          Ok (key_table_start + key_offset next)) in
  let* key_text := decode_utf8 (slice raw_sfo k_start k_end) in
  let key := rstrip_nul key_text in
  let d_start := data_table_start + data_offset entry in
  let d_end := d_start + data_len entry in
  let* value :=
    (match data_fmt entry with
     | INT32 => Ok (VInt (int_from_bytes_little (slice raw_sfo d_start d_end)))
     | _ => let* text := decode_utf8 (slice raw_sfo d_start d_end) in
            Ok (VStr (rstrip_nul text))
     end) in
  Ok {| version := version self;
        key_table_start := key_table_start;
        data_table_start := data_table_start;
        table_entries := table_entries self;
        idx_table := idx_table self;
        data := <[key := value]> (data self) |}.

(** [SFO.__init__] *)
Definition SFO_init (raw_sfo : bytes) : result SFO :=
  let* _ := (if decide (b2z <$> slice raw_sfo 0 0x4 = [0x00; 0x50; 0x53; 0x46])
             then Ok tt else Raise AssertionError) in
  let* minor := unpack 4 (slice raw_sfo 0x5 0x8 ++ [x00]) in
  let version_minor := fmt_I minor 0 in
  let* major := getitem raw_sfo 0x04 in
  let version := (str_of_int major +:+ "." +:+ str_of_int version_minor)%string in
  let* header := unpack 12 (slice raw_sfo 0x08 0x14) in
  let key_table_start := fmt_I header 0 in
  let data_table_start := fmt_I header 4 in
  let table_entries := fmt_I header 8 in
  let* idx_table :=
    for_range (Z.to_nat table_entries) 0
      (λ idx tbl,
         let* e := SFOIndexTableEntry_init raw_sfo (0x14 + Z.of_nat idx * 0x10) in
         Ok (tbl ++ [e]))
      [] in
  let self := {| version := version;
                 key_table_start := key_table_start;
                 data_table_start := data_table_start;
                 table_entries := table_entries;
                 idx_table := idx_table;
                 data := ∅ |} in
  for_range (length idx_table) 0 (λ i self, _read_entry self raw_sfo i) self.

(** [SFO.dump]: the version and a copy of the dictionary. *)
Definition SFO_dump (self : SFO) : string * gmap string sfo_value :=
  (version self, data self).

(** What [iso_walk] stores for a file whose name ends in [.SFO]:
    [SFO(raw_file).dump()]. *)
Definition sfo_info (raw_file : bytes) : result (string * gmap string sfo_value) :=
  let* sfo := SFO_init raw_file in
  Ok (SFO_dump sfo).

(** [decdatetime_to_str]: the format ["4s2s2s2s2s2s2sb"] has 17 bytes. *)
Definition decdatetime_to_str (raw : bytes) (offset : Z) : result string :=
  let* val := unpack_from 17 raw offset in
  let* year := decode_ascii (field val 0 4) in
  let* month := decode_ascii (field val 4 2) in
  let* day := decode_ascii (field val 6 2) in
  let* hour := decode_ascii (field val 8 2) in
  let* minute := decode_ascii (field val 10 2) in
  let* second := decode_ascii (field val 12 2) in
  let* csec := decode_ascii (field val 14 2) in
  let zone := fmt_b val 16 in
  Ok (year +:+ "-" +:+ month +:+ "-" +:+ day +:+ " " +:+ hour +:+ ":" +:+ minute
      +:+ ":" +:+ second +:+ "." +:+ csec +:+ " (" +:+ str_of_int zone +:+ ")")%string.

(** [decode_string]; a negative [size] gives a format that [struct]
    refuses. *)
Definition decode_string (raw : bytes) (offset size : Z) : result string :=
  let* raw_str :=
    (if size <? 0 then Raise StructError else unpack_from size raw offset) in
  let* text := decode_ascii raw_str in
  Ok (strip text).

(** The dictionary that [get_pvd_dump] builds from the sector it found. *)
Definition pvd_fields (raw_sector : bytes) : result (gmap string string) :=
  let pvd : gmap string string := ∅ in
  let* v := decode_string raw_sector 0xbe 0x80 in
  let pvd := <["volume_set_id" := v]> pvd in
  let* v := decode_string raw_sector 0x13e 0x80 in
  let pvd := <["publisher" := v]> pvd in
  let* v := decode_string raw_sector 0x1be 0x80 in
  let pvd := <["preparer" := v]> pvd in
  let* v := decode_string raw_sector 0x23e 0x80 in
  let pvd := <["application_id" := v]> pvd in
  let* v := decdatetime_to_str raw_sector 0x32d in
  let pvd := <["creation_date" := v]> pvd in
  let* v := decdatetime_to_str raw_sector 0x33e in
  let pvd := <["modification_date" := v]> pvd in
  let* v := decdatetime_to_str raw_sector 0x34f in
  let pvd := <["expiration_date" := v]> pvd in
  let* v := decdatetime_to_str raw_sector 0x360 in
  let pvd := <["effective_date" := v]> pvd in
  Ok pvd.

(** [get_pvd_dump]; the dictionary returned is the one the source stores
    under [out["pvd"]]. *)
Definition get_pvd_dump (filestream : stream) : run (gmap string string * stream) :=
  pvd_scan pvd_fields filestream.

(** [parse_umd_data]; the dictionary returned is the one the source
    stores under [out["umd_data"]]. *)
Definition parse_umd_data (raw : bytes) : result (gmap string string) :=
  let* umd_data := decode_ascii raw in
  let fields := split_on "|" umd_data in
  let umd : gmap string string := ∅ in
  let* id := list_getitem fields 0 in
  let umd := <["id" := id]> umd in
  let* key := list_getitem fields 1 in
  let umd := <["key" := key]> umd in
  let* unknown := list_getitem fields 2 in
  let umd := <["unknown" := unknown]> umd in
  let* type := list_getitem fields 3 in
  let umd := <["type" := strip_with is_nul type]> umd in
  Ok umd.

(** [gen_hashes], over the CRC function of [zlib] and three hash objects
    of [hashlib], which are the library's. *)
Section GenHashes.

Context (crc32 : bytes → Z → Z) (sha1 md5 sha256 : hasher).

Record hash_state : Type := mkHashState {
  st_crc32 : Z;
  st_sha1 : hstate sha1;
  st_md5 : hstate md5;
  st_sha256 : hstate sha256
}.

(** The body of the [for] loop over the pieces. *)
Definition hash_piece (st : hash_state) (piece : bytes) : hash_state :=
  {| st_crc32 := crc32 piece (st_crc32 st);
     st_sha1 := hupdate sha1 (st_sha1 st) piece;
     st_md5 := hupdate md5 (st_md5 st) piece;
     st_sha256 := hupdate sha256 (st_sha256 st) piece |}.

(** The loop over [read_in_chunks(filestream, chunk_size)]: the generator
    reads a piece and stops at the first empty one. *)
Fixpoint read_in_chunks_loop (fuel : nat) (file_object : stream) (chunk_size : Z)
    (st : hash_state) : run (hash_state * stream) :=
  match fuel with
  | O => None
  | S fuel' =>
    let+ (data, file_object) := lift (read file_object chunk_size) in
    match data with
    | [] => Some (Ok (st, file_object))
    | _ => read_in_chunks_loop fuel' file_object chunk_size (hash_piece st data)
    end
  end.

(** The dictionary stored under [out["hashes"]]. *)
Definition hashes_of (st : hash_state) : gmap string string :=
  <["sha256" := zfill 64 (hhexdigest sha256 (st_sha256 st))]>
  (<["md5" := zfill 32 (hhexdigest md5 (st_md5 st))]>
  (<["sha1" := zfill 40 (hhexdigest sha1 (st_sha1 st))]>
  (<["crc32" := zfill 8 (format_x (Z.land (st_crc32 st) 0xFFFFFFFF))]> ∅))).

(** Every pass of the loop but the last reads a piece that is not empty,
    so a fuel of one more than the length of the file is never used up
    (see [gen_hashes_pieces]). *)
Definition gen_hashes (filestream : stream) : run (gmap string string * stream) :=
  let+ filestream := lift (seek filestream 0) in
  let st := {| st_crc32 := 0; st_sha1 := hnew sha1; st_md5 := hnew md5;
               st_sha256 := hnew sha256 |} in
  let+ (st, filestream) :=
    read_in_chunks_loop (S (length (content filestream))) filestream 0x10000 st in
  Some (Ok (hashes_of st, filestream)).

(** The [with] block of [gen_submission]: the two passes over the file
    object of the image, [get_pvd_dump] after [gen_hashes]; the pair
    returned is what the block stores under [report["hashes"]] and
    [report["pvd"]]. *)
Definition gen_submission_file (file : bytes)
  : run (gmap string string * gmap string string) :=
  let f := open file in
  let+ (hashes, f) := gen_hashes f in
  let+ (pvd, f) := get_pvd_dump f in
  Some (Ok (hashes, pvd)).

End GenHashes.

Arguments st_crc32 {sha1 md5 sha256} h.
Arguments st_sha1 {sha1 md5 sha256} h.
Arguments st_md5 {sha1 md5 sha256} h.
Arguments st_sha256 {sha1 md5 sha256} h.

(** [for x in l: s = body(x, s)] *)
Fixpoint for_each {A St : Type} (l : list A) (body : A → St → result St) (s : St)
  : result St :=
  match l with
  | [] => Ok s
  | x :: l' => let* s' := body x s in for_each l' body s'
  end.

(** What [iso_walk] stores in [out]: the dictionaries under ["tree"] and
    ["sfo_info"], and the one under ["umd_data"] once a file named
    UMD_DATA.BIN was met. *)
Record walk_report : Type := mkWalkReport {
  out_tree : gmap string string;
  out_umd_data : option (gmap string string);
  out_sfo_info : gmap string (string * gmap string sfo_value)
}.

(** [iso_walk], over what it uses of [pycdlib] and [hashlib], which are
    not modelled: the triples that [iso.walk(iso_path='/')] yields, the
    bytes that [iso.get_file_from_iso_fp] extracts for a path, and a
    SHA-1 object. *)
Section IsoWalk.

Context (walk : list (string * list string * list string))
        (get_file_from_iso_fp : string → result bytes)
        (sha1 : hasher).

Definition full_name_of (dirname file : string) : string :=
  if String.eqb dirname "/" then ("/" +:+ file)%string
  else (dirname +:+ "/" +:+ file)%string.

Definition sfo_file_of (dirname file : string) : string :=
  (dirname +:+ "/" +:+ file)%string.

(** The body of the loop over the files of a directory. *)
Definition iso_walk_file (dirname file : string) (out : walk_report)
  : result walk_report :=
  let full_name := full_name_of dirname file in
  let sfo_file := sfo_file_of dirname file in
  let* raw_file := get_file_from_iso_fp sfo_file in
  let digest := hhexdigest sha1 (hupdate sha1 (hnew sha1) raw_file) in
  let out := {| out_tree := <[full_name := zfill 40 digest]> (out_tree out);
                out_umd_data := out_umd_data out;
                out_sfo_info := out_sfo_info out |} in
  let* out :=
    (if String.eqb file "UMD_DATA.BIN"
     then let* umd := parse_umd_data raw_file in
          Ok {| out_tree := out_tree out;
                out_umd_data := Some umd;
                out_sfo_info := out_sfo_info out |}
     else Ok out) in
  if endswith file ".SFO"
  then let* info := sfo_info raw_file in
       Ok {| out_tree := out_tree out;
             out_umd_data := out_umd_data out;
             out_sfo_info := <[sfo_file := info]> (out_sfo_info out) |}
  else Ok out.

Definition iso_walk : result walk_report :=
  for_each walk
    (λ entry out, for_each entry.2 (iso_walk_file entry.1.1) out)
    {| out_tree := ∅; out_umd_data := None; out_sfo_info := ∅ |}.

End IsoWalk.

End Submission.

(** ** Fixtures: the images and buffers of the scenarios *)

Module Fixtures.

Import IsoParser Submission.

Definition byte_of_Z (z : Z) : byte :=
  match Byte.of_N (Z.to_N (z mod 256)) with
  | Some b => b
  | None => x00
  end.

Definition le (n : nat) (z : Z) : bytes :=
  (λ k, byte_of_Z (z / 256 ^ Z.of_nat k)) <$> seq 0 n.

Definition be (n : nat) (z : Z) : bytes := rev (le n z).

Definition zeros (n : Z) : bytes := repeat x00 (Z.to_nat n).

Definition pad_to (n : Z) (bs : bytes) : bytes := bs ++ zeros (n - len bs).

(** A directory record as ISO 9660 lays it out: both-endian extent and
    length, seven bytes of time, flags, the name, and a pad byte after a
    name of even length. *)
Definition dir_record (ext dlen fl : Z) (nm : bytes) : bytes :=
  let body :=
    [x00] ++ le 4 ext ++ be 4 ext ++ le 4 dlen ++ be 4 dlen
    ++ zeros 7 ++ [byte_of_Z fl; x00; x00] ++ le 2 1 ++ be 2 1
    ++ [byte_of_Z (len nm)] ++ nm
    ++ (if Z.even (len nm) then [x00] else []) in
  byte_of_Z (1 + len body) :: body.

Definition self_record (ext : Z) : bytes := dir_record ext 2048 2 [x00].
Definition parent_record (ext : Z) : bytes := dir_record ext 2048 2 [x01].

Definition dir_sector (self parent : Z) (records : list bytes) : bytes :=
  pad_to 2048 (self_record self ++ parent_record parent ++ concat records).

(** A primary volume descriptor: type 1, the sizes at 80, 128 and 132, the
    path table at 140, the root record at 156. *)
Definition pvd_sector (blocks pt_size pt_loc root_ext : Z) : bytes :=
  pad_to 2048
    ([x01] ++ list_byte_of_string "CD001" ++ [x01; x00]
     ++ repeat x20 64 ++ zeros 8
     ++ le 4 blocks ++ be 4 blocks ++ zeros 32 ++ le 2 1 ++ be 2 1 ++ le 2 1 ++ be 2 1
     ++ le 2 2048 ++ be 2 2048 ++ le 4 pt_size ++ be 4 pt_size
     ++ le 4 pt_loc ++ le 4 0 ++ be 4 0 ++ be 4 0
     ++ self_record root_ext
     ++ repeat x20 (128 * 4 + 37 * 3)
     ++ concat (repeat (list_byte_of_string "2020010112000000" ++ [x00]) 4)).

Definition terminator_sector : bytes :=
  pad_to 2048 ([xff] ++ list_byte_of_string "CD001" ++ [x01]).

(** One path-table entry: the root, whose name is the single byte 0. *)
Definition root_path_table (root_ext : Z) : bytes :=
  [x01; x00] ++ le 4 root_ext ++ le 2 1 ++ [x00; x00].

(** Scenario A: the root directory, at block 19, holds one file
    [TEST.BIN] of 1024 bytes at block 100. The path table, at block 18,
    is the one of scenario C: one entry, ten bytes. *)
Definition test_bin_record : bytes :=
  dir_record 100 1024 0 (list_byte_of_string "TEST.BIN").

(** An image whose root directory, at block 19, is the given sector. *)
Definition image_of (root_sector : bytes) : bytes :=
  zeros 0x8000
  ++ pvd_sector 20 10 18 19
  ++ terminator_sector
  ++ pad_to 2048 (root_path_table 19)
  ++ root_sector.

Definition scenario_a_sector : bytes := dir_sector 19 19 [test_bin_record].

Definition scenario_a_image : bytes := image_of scenario_a_sector.

(** An image with two directories below the root: [PSP_GAME] at block 20
    and, inside it, [SYSDIR] at block 21, each with one file. *)
Definition tree_root_sector : bytes :=
  dir_sector 19 19
    [dir_record 20 2048 2 (list_byte_of_string "PSP_GAME");
     dir_record 30 48 0 (list_byte_of_string "UMD_DATA.BIN")].

Definition tree_game_sector : bytes :=
  dir_sector 20 19
    [dir_record 40 100 0 (list_byte_of_string "PARAM.SFO");
     dir_record 21 2048 2 (list_byte_of_string "SYSDIR")].

Definition tree_sysdir_sector : bytes :=
  dir_sector 21 20 [dir_record 50 4096 0 (list_byte_of_string "EBOOT.BIN")].

Definition tree_image : bytes :=
  zeros 0x8000
  ++ pvd_sector 22 10 18 19
  ++ terminator_sector
  ++ pad_to 2048 (root_path_table 19)
  ++ tree_root_sector ++ tree_game_sector ++ tree_sysdir_sector.

(** A sector filled to its last byte: the two pseudo-entries and 45 file
    records of 44 bytes, 2048 bytes in all, with no zero byte under any
    cursor. *)
Definition full_sector : bytes :=
  self_record 19 ++ parent_record 19
  ++ concat (repeat (dir_record 100 1024 0 (list_byte_of_string "FILE000.BIN")) 45).

Definition full_image : bytes := image_of full_sector.

(** A sector with a record of 100 bytes at 0 and, at 100, a record whose
    length byte is 0x9c; every other field of the two records is zero. *)
Definition backward_sector : bytes :=
  pad_to 2048 ([x64] ++ zeros 99 ++ [x9c]).

Definition backward_image : bytes := image_of backward_sector.


(** An image whose primary volume descriptor comes after 200 sectors of
    zeros, counted from 0x8000; and a file that ends after 0x8000 bytes
    and one sector of zeros. *)
Definition late_pvd_image : bytes :=
  zeros (0x8000 + 200 * 0x800) ++ pvd_sector 20 10 18 19 ++ terminator_sector.

Definition truncated_image : bytes := zeros (0x8000 + 0x800).

(** The records these images hold, as [DirEntry] decodes them. *)
Definition entry (len_ ext dlen fl : Z) (nm : string) : DirEntry :=
  {| length_ := len_; ext_length := 0; extent := ext; data_length := dlen;
     datetime := zeros 7; flags := fl; unit_size := 0; interleave_size := 0;
     seqnum := 1; name_len := Z.of_nat (String.length nm); name := nm |}.

Definition root_entry : DirEntry := entry 34 19 2048 2 (String "000" EmptyString).
Definition test_bin_entry : DirEntry := entry 42 100 1024 0 "TEST.BIN".
Definition psp_game_entry : DirEntry := entry 42 20 2048 2 "PSP_GAME".
Definition sysdir_entry : DirEntry := entry 40 21 2048 2 "SYSDIR".

(** An SFO buffer of version 1.1 with one entry: the key [TITLE] in a key
    table of 8 bytes at 0x24 and the text [GAME] in a data table of 8
    bytes at 0x2c, 52 bytes in all.  The entry has the given format, data
    length and data offset. *)
Definition sfo_buffer (fmt dlen doff : Z) (value : bytes) : bytes :=
  [x00] ++ list_byte_of_string "PSF" ++ [x01; x01; x00; x00]
  ++ le 4 0x24 ++ le 4 0x2c ++ le 4 1
  ++ le 2 0 ++ le 2 fmt ++ le 4 dlen ++ le 4 8 ++ le 4 doff
  ++ pad_to 8 (list_byte_of_string "TITLE")
  ++ pad_to 8 value.

(** Scenario B. *)
Definition scenario_b_sfo : bytes := sfo_buffer 0x0204 5 0 (list_byte_of_string "GAME").

(** The record at 100 of [backward_sector]. *)
Definition backward_record : DirEntry :=
  {| length_ := -100; ext_length := 0; extent := 0; data_length := 0;
     datetime := zeros 7; flags := 0; unit_size := 0; interleave_size := 0;
     seqnum := 0; name_len := 0; name := "" |}.

Definition scenario_b_decoded : SFO :=
  {| version := "1.1"; key_table_start := 0x24; data_table_start := 0x2c;
     table_entries := 1;
     idx_table := [ {| key_offset := 0; data_fmt := UTF8; data_len := 5;
                       data_max_len := 8; data_offset := 0 |} ];
     data := {[ "TITLE"%string := VStr "GAME" ]} |}.

(** The same buffer with an entry of format Int32 over the five bytes
    00 00 00 00 01, and with an entry of format Int32 and length 0. *)
Definition wide_int_sfo : bytes := sfo_buffer 0x0404 5 0 [x00; x00; x00; x00; x01].

Definition wide_int_entry : SFOIndexTableEntry :=
  {| key_offset := 0; data_fmt := INT32; data_len := 5; data_max_len := 8;
     data_offset := 0 |}.

(** The decoder of [wide_int_sfo] before and after it reads the entry. *)
Definition wide_int_before : SFO :=
  {| version := "1.1"; key_table_start := 0x24; data_table_start := 0x2c;
     table_entries := 1; idx_table := [wide_int_entry]; data := ∅ |}.

Definition wide_int_after : SFO :=
  {| version := "1.1"; key_table_start := 0x24; data_table_start := 0x2c;
     table_entries := 1; idx_table := [wide_int_entry];
     data := {[ "TITLE"%string := VInt (2 ^ 32) ]} |}.

Definition empty_int_sfo : bytes := sfo_buffer 0x0404 0 0 [x2a; x00; x00; x00].

(** The buffer of scenario B with a data offset that points outside the
    52 bytes of the buffer, and with a data length that runs beyond its
    end. *)
Definition outside_sfo : bytes := sfo_buffer 0x0204 5 0x1000 (list_byte_of_string "GAME").

Definition overlong_sfo : bytes := sfo_buffer 0x0204 100 2 (list_byte_of_string "GAME").

(** A buffer that ends after its header and declares three entries. *)
Definition no_index_sfo : bytes :=
  [x00] ++ list_byte_of_string "PSF" ++ [x01; x01; x00; x00]
  ++ le 4 0x24 ++ le 4 0x2c ++ le 4 3.

Definition header_20_10 : IsoHeader :=
  {| volume_space_size := 20; block_size := 2048; path_table_size := 10;
     l_table_off := 18; opt_l_table_off := 0; root_dir := root_entry |}.


(** The header of [tree_image]. *)
Definition tree_header : IsoHeader :=
  {| volume_space_size := 22; block_size := 2048; path_table_size := 10;
     l_table_off := 18; opt_l_table_off := 0; root_dir := root_entry |}.

(** A root sector whose self record carries a system use area and is 136
    bytes long, so that its length byte is 0x88; the parent record and
    the directory [SUB], at block 20, follow it.  The same sector with
    the self record of 34 bytes is [dir_sector 19 19 [sub_record]]. *)
Definition long_self_record (ext : Z) : bytes :=
  x88 :: tail (pad_to 136 (self_record ext)).

Definition sub_record : bytes := dir_record 20 2048 2 (list_byte_of_string "SUB").

Definition long_self_sector : bytes :=
  pad_to 2048 (long_self_record 19 ++ parent_record 19 ++ sub_record).

Definition long_self_image : bytes := image_of long_self_sector ++ dir_sector 20 19 [].

Definition short_self_image : bytes :=
  image_of (dir_sector 19 19 [sub_record]) ++ dir_sector 20 19 [].

Definition sub_entry : DirEntry := entry 36 20 2048 2 "SUB".

(** The long self record as [DirEntry] decodes it. *)
Definition long_self_entry : DirEntry :=
  entry (-120) 19 2048 2 (String "000" EmptyString).


(** The buffer of scenario B with the text [Pok] and a two-byte
    character, c3 a9, five bytes in all; and the same buffer cut after
    the first of the two bytes, 48 bytes in all. *)
Definition whole_utf8_sfo : bytes := sfo_buffer 0x0204 5 0 [x50; x6f; x6b; xc3; xa9].

Definition cut_utf8_sfo : bytes := take 48 whole_utf8_sfo.

(** An entry of format Int32 over the four bytes 05 06 07 08: with the
    data length 4, and with the data length 8 in a buffer that ends after
    the four bytes. *)
Definition four_int_sfo : bytes := sfo_buffer 0x0404 4 0 [x05; x06; x07; x08].

Definition short_int_sfo : bytes := take 48 (sfo_buffer 0x0404 8 0 [x05; x06; x07; x08]).

Definition short_int_entry : SFOIndexTableEntry :=
  {| key_offset := 0; data_fmt := INT32; data_len := 8; data_max_len := 8;
     data_offset := 0 |}.

(** The decoder of the buffers above before it reads the entry, and the
    decoder of [short_int_sfo] after it. *)
Definition utf8_entry : SFOIndexTableEntry :=
  {| key_offset := 0; data_fmt := UTF8; data_len := 5; data_max_len := 8;
     data_offset := 0 |}.

Definition utf8_before : SFO :=
  {| version := "1.1"; key_table_start := 0x24; data_table_start := 0x2c;
     table_entries := 1; idx_table := [utf8_entry]; data := ∅ |}.

Definition short_int_before : SFO :=
  {| version := "1.1"; key_table_start := 0x24; data_table_start := 0x2c;
     table_entries := 1; idx_table := [short_int_entry]; data := ∅ |}.

Definition short_int_decoded : SFO :=
  {| version := "1.1"; key_table_start := 0x24; data_table_start := 0x2c;
     table_entries := 1; idx_table := [short_int_entry];
     data := {[ "TITLE"%string := VInt 134678021 ]} |}.

(** A checksum and a hash object that stream as those of the libraries
    do: the sum and the exclusive or of the bytes fed so far. *)
Definition sum_crc32 (piece : bytes) (prev : Z) : Z :=
  fold_left (λ a b, a + b2z b) piece prev.

Definition xor_hasher : hasher :=
  {| hstate := Z;
     hnew := 0;
     hupdate := λ st piece, fold_left (λ a b, Z.lxor a (b2z b)) piece st;
     hhexdigest := format_x |}.

(** The content of a file UMD_DATA.BIN. *)
Definition umd_data_bin : bytes :=
  list_byte_of_string "ULJM-05500|0123456789ABCDEF|0001|G" ++ [x00; x00].

(** A volume of two directories: the root with UMD_DATA.BIN, and
    PSP_GAME with PARAM.SFO. *)
Definition small_walk : list (string * list string * list string) :=
  [ ("/"%string, ["PSP_GAME"%string], ["UMD_DATA.BIN"%string]);
    ("/PSP_GAME"%string, [], ["PARAM.SFO"%string]) ].

Definition small_files (path : string) : result bytes :=
  if String.eqb path "//UMD_DATA.BIN" then Ok umd_data_bin
  else if String.eqb path "/PSP_GAME/PARAM.SFO" then Ok scenario_b_sfo
  else Raise (Exception "no such file").

(** A volume with PARAM.SFO in the root directory. *)
Definition root_sfo_walk : list (string * list string * list string) :=
  [ ("/"%string, [], ["PARAM.SFO"%string]) ].

Definition root_sfo_files (path : string) : result bytes :=
  if String.eqb path "//PARAM.SFO" then Ok scenario_b_sfo
  else Raise (Exception "no such file").

End Fixtures.

(** ** Vocabulary of the statements *)

Module Spec.

Import IsoParser Submission.

(** The record under the cursor, when the loop of [walk_dirs] decodes one
    there: the byte under the cursor is not zero and the record decodes. *)
Definition record_at (data : bytes) (idx : Z) : option DirEntry :=
  match getitem data idx with
  | Ok b =>
    if b =? 0 then None
    else match DirEntry_init data idx with
         | Ok e => Some e
         | Raise _ => None
         end
  | Raise _ => None
  end.

(** The cursor of the scan of [walk_dirs] after [n] more records, from
    the cursor [idx]: it moves by the record length as [DirEntry] reads
    it, a signed byte.  It traces the code. *)
Fixpoint cursor_from (data : bytes) (idx : Z) (n : nat) : option Z :=
  match n with
  | O => Some idx
  | S n' =>
    match record_at data idx with
    | Some e => cursor_from data (idx + length_ e) n'
    | None => None
    end
  end.

(** The records that the scan of [walk_dirs] meets, in its own order: the
    record under its cursor after [n] more records.  This follows the
    code, whose cursor moves by the record length as [DirEntry] reads
    it; it is used to trace the code, not to say what the records of a
    sector are (that is [nth_record] below). *)
Definition scan_record_from (data : bytes) (idx : Z) (n : nat) : option DirEntry :=
  match cursor_from data idx n with
  | Some c => record_at data c
  | None => None
  end.

Definition is_dir (e : DirEntry) : bool := negb (Z.land (flags e) 0x02 =? 0).

(** [e] is a directory record met by a scan that is at cursor [idx] with
    [i] records behind it; the first two records of a sector do not
    count. *)
Definition scan_listed_from (data : bytes) (idx i : Z) (e : DirEntry) : Prop :=
  ∃ n : nat, 2 ≤ i + Z.of_nat n ∧ scan_record_from data idx n = Some e ∧ is_dir e = true.

Definition scan_listed (data : bytes) (e : DirEntry) : Prop := scan_listed_from data 0 0 e.

(** The sector that [walk_dirs] reads for the directory [d]. *)
Definition sector_of (file : bytes) (d : DirEntry) : option bytes :=
  if extent d * 0x800 <? 0 then None
  else Some (take (Z.to_nat 0x800) (drop (Z.to_nat (extent d * 0x800)) file)).

(** The directory records that the walk comes to below [d], along its
    own scans. *)
Inductive scan_reach (file : bytes) : DirEntry → DirEntry → Prop :=
| scan_reach_child d data e :
    sector_of file d = Some data → scan_listed data e → scan_reach file d e
| scan_reach_below d data c e :
    sector_of file d = Some data → scan_listed data c → scan_reach file c e →
    scan_reach file d e.

(** *** The records of a directory sector, as the format lays them out

    The length of a record is its first byte, an unsigned byte; the
    records follow each other from offset 0, each [record_length] bytes
    after the one before, and a zero length byte, or the end of the
    sector, ends them.  Nothing here looks at how the code moves its
    cursor. *)
Definition record_length_at (data : bytes) (idx : Z) : option Z :=
  match getitem data idx with
  | Ok b => if b =? 0 then None else Some b
  | Raise _ => None
  end.

(** The offset of record number [n], counting the records from the one at
    [idx]. *)
Fixpoint record_offset_from (data : bytes) (idx : Z) (n : nat) : option Z :=
  match n with
  | O => Some idx
  | S n' =>
    match record_length_at data idx with
    | Some b => record_offset_from data (idx + b) n'
    | None => None
    end
  end.

Definition nth_record_from (data : bytes) (idx : Z) (n : nat) : option DirEntry :=
  match record_offset_from data idx n with
  | Some c => record_at data c
  | None => None
  end.

(** Record number [n] of a directory sector, counting from 0. *)
Definition nth_record (data : bytes) (n : nat) : option DirEntry :=
  nth_record_from data 0 n.

(** [e] is a directory record of the sector that is not one of its first
    two records. *)
Definition listed (data : bytes) (e : DirEntry) : Prop :=
  ∃ n : nat, (2 ≤ n)%nat ∧ nth_record data n = Some e ∧ is_dir e = true.

(** The directory records below [d]: those listed in its sector, and
    those below them. *)
Inductive reach (file : bytes) : DirEntry → DirEntry → Prop :=
| reach_child d data e :
    sector_of file d = Some data → listed data e → reach file d e
| reach_below d data c e :
    sector_of file d = Some data → listed data c → reach file c e → reach file d e.

(** Every record of the sector, counted from the one at [idx], is shorter
    than 128 bytes. *)
Definition short_records_from (data : bytes) (idx : Z) : Prop :=
  ∀ n c b, record_offset_from data idx n = Some c → getitem data c = Ok b → b < 0x80.

Definition short_records (data : bytes) : Prop := short_records_from data 0.

(** A check of [short_records_from] that can be run: it follows the
    records for at most [fuel] of them. *)
Fixpoint short_records_check (fuel : nat) (data : bytes) (idx : Z) : bool :=
  match fuel with
  | O => false
  | S fuel' =>
    match getitem data idx with
    | Ok b =>
      if b =? 0 then true
      else (b <? 0x80) && short_records_check fuel' data (idx + b)
    | Raise _ => true
    end
  end.

(** The two pseudo-entries: a name of one byte, 0 for the directory
    itself and 1 for its parent. *)
Definition is_self (e : DirEntry) : bool :=
  (name_len e =? 1) && String.eqb (name e) (String "000" EmptyString).

Definition is_parent (e : DirEntry) : bool :=
  (name_len e =? 1) && String.eqb (name e) (String "001" EmptyString).

Definition is_pseudo (e : DirEntry) : bool := is_self e || is_parent e.

(** The list a call of [walk_dirs] works on, for the [out] it receives. *)
Definition norm_out (out : option (list DirEntry)) : list DirEntry :=
  match out with
  | None | Some [] => []
  | Some o => o
  end.

(** The cursor of the path-table loop after [n] more entries, from the
    cursor [idx]. *)
Fixpoint pt_cursor (data : bytes) (idx : Z) (n : nat) : option Z :=
  match n with
  | O => Some idx
  | S n' =>
    match PathTableEntry_init data idx with
    | Ok e => pt_cursor data (idx + PathTableEntry_size e) n'
    | Raise _ => None
    end
  end.






(** Sector number [k] of a file, counting from the byte 0x8000. *)
Definition sector_k (file : bytes) (k : nat) : bytes :=
  take (Z.to_nat 0x800) (drop (Z.to_nat (0x8000 + 0x800 * Z.of_nat k)) file).

(** The type byte of a sector that the scan passes over. *)
Definition passed_over (sector : bytes) : Prop :=
  ∃ t, getitem sector 0 = Ok t ∧ t ≠ 0xFF ∧ t ≠ 0x01.

(** A file object from which the next read is sector [k]: it stands at
    the start of that sector, or at the end of a file that has no such
    sector. *)
Definition aligned (f : stream) (k : nat) : Prop :=
  pos f = 0x8000 + 0x800 * Z.of_nat k
  ∨ (len (content f) ≤ pos f ∧ len (content f) ≤ 0x8000 + 0x800 * Z.of_nat k).

(** Every character of a text satisfies [p]. *)
Fixpoint all_chars (p : ascii → bool) (s : string) : bool :=
  match s with
  | EmptyString => true
  | String c s' => p c && all_chars p s'
  end.

Definition first_char (s : string) : option ascii :=
  match s with
  | EmptyString => None
  | String c _ => Some c
  end.

Fixpoint last_char (s : string) : option ascii :=
  match s with
  | EmptyString => None
  | String c EmptyString => Some c
  | String _ s' => last_char s'
  end.

(** A text that neither begins nor ends with a character that [p]
    holds of. *)
Definition trimmed (p : ascii → bool) (s : string) : Prop :=
  (∀ c, first_char s = Some c → p c = false)
  ∧ (∀ c, last_char s = Some c → p c = false).

(** What a call returns, without the file object it leaves behind. *)
Definition returned {A : Type} (r : run (A * stream)) : run A :=
  let+ (a, _) := r in Some (Ok a).

(** The bytes of a buffer at the positions from [a] up to [b], as far as
    the buffer has them: none from the end of the buffer on. *)
Definition bytes_between (raw : bytes) (a b : Z) : bytes :=
  take (Z.to_nat (Z.min b (len raw) - Z.min a (len raw)))
       (drop (Z.to_nat (Z.min a (len raw))) raw).

(** The end of the key span of entry [idx]: the key offset of the next
    entry, or the start of the data table for the last entry. *)
Definition key_span_end (self : SFO) (idx : nat) : Z :=
  match idx_table self !! (idx + 1)%nat with
  | Some next => key_table_start self + key_offset next
  | None => data_table_start self
  end.

(** The offsets and lengths of a decoder are unsigned fields: none is
    negative. *)
Definition unsigned_fields (self : SFO) : Prop :=
  0 ≤ key_table_start self ∧ 0 ≤ data_table_start self
  ∧ Forall (λ e, 0 ≤ key_offset e ∧ 0 ≤ data_len e ∧ 0 ≤ data_offset e) (idx_table self).

(** The value of a data span, by the format of its entry. *)
Definition value_of_span (fmt : SFODataFormat) (bs : bytes) : sfo_value :=
  match fmt with
  | INT32 => VInt (int_from_bytes_little bs)
  | _ => VStr (rstrip_nul (string_of_list_byte bs))
  end.

(** A sequence of bytes that the ASCII codec decodes. *)
Definition is_ascii (bs : bytes) : bool := forallb (λ b, b2z b <? 128) bs.

(** The number of times a character occurs in a text. *)
Fixpoint count_char (c : ascii) (s : string) : nat :=
  match s with
  | EmptyString => 0
  | String c' s' => (if Ascii.eqb c' c then 1 else 0) + count_char c s'
  end.

(** The pieces of a list with a separator between each two. *)
Fixpoint join_with (sep : ascii) (l : list string) : string :=
  match l with
  | [] => EmptyString
  | [piece] => piece
  | piece :: l' => (piece +:+ String sep (join_with sep l'))%string
  end.

(** A text without the character [c]. *)
Definition free_of (c : ascii) (s : string) : Prop :=
  all_chars (λ c', negb (Ascii.eqb c' c)) s = true.

(** The digits [0-9a-f] and the number that a text of them writes. *)
Definition hex_digit_value (c : ascii) : option Z :=
  let n := Z.of_N (N_of_ascii c) in
  if (48 <=? n) && (n <=? 57) then Some (n - 48)
  else if (97 <=? n) && (n <=? 102) then Some (n - 87)
  else None.

Definition is_lower_hex (c : ascii) : bool :=
  match hex_digit_value c with
  | Some _ => true
  | None => false
  end.

Fixpoint hex_value_from (acc : Z) (s : string) : Z :=
  match s with
  | EmptyString => acc
  | String c s' =>
    hex_value_from (16 * acc + default 0 (hex_digit_value c)) s'
  end.

Definition hex_value (s : string) : Z := hex_value_from 0 s.

(** The pairs of a directory name and a file name that a walk yields, in
    its order. *)
Definition walked_files (walk : list (string * list string * list string))
  : list (string * string) :=
  flat_map (λ entry, (λ file, (entry.1.1, file)) <$> entry.2) walk.

(** The digest that [iso_walk] stores for the bytes of a file. *)
Definition sha1_text (sha1 : hasher) (raw_file : bytes) : string :=
  zfill 40 (hhexdigest sha1 (hupdate sha1 (hnew sha1) raw_file)).

End Spec.

(** ** Facts about the Python primitives *)

Module PyFacts.

(** Splitting a conjunction of closed facts and computing each. *)
Ltac split_conj := repeat match goal with |- _ ∧ _ => split end.
Ltac by_compute := split_conj; vm_compute; reflexivity.

Lemma b2z_range b : 0 ≤ b2z b < 256.
Proof.
  unfold b2z. pose proof (Byte.to_N_bounded b). lia.
Qed.

Lemma first_byte_of_window (raw : bytes) (off n : nat) :
  (off < length raw)%nat →
  take 1 (take (S n) (drop off raw)) = [nth off raw x00].
Proof.
  revert off. induction raw as [|x raw IH]; intros off H; simpl in H; [lia|].
  destruct off as [|off]; [reflexivity|].
  simpl. apply IH. lia.
Qed.

(** The byte that [raw[i]] reads is the first byte of the window that
    [unpack_from] takes at the same offset. *)
Lemma getitem_unpack_from raw i b n w :
  getitem raw i = Ok b →
  unpack_from (Z.of_nat (S n)) raw i = Ok w →
  fmt_B w 0 = b.
Proof.
  unfold getitem, unpack_from, fmt_B, field, len.
  set (j := if i <? 0 then i + Z.of_nat (length raw) else i).
  destruct ((0 <=? j) && (j <? Z.of_nat (length raw))) eqn:E1; [|discriminate].
  destruct ((0 <=? j) && (j + Z.of_nat (S n) <=? Z.of_nat (length raw))); [|discriminate].
  intros [= <-] [= <-].
  apply andb_true_iff in E1 as [H0 H1]. apply Z.leb_le in H0. apply Z.ltb_lt in H1.
  rewrite Nat2Z.id. rewrite drop_0.
  rewrite first_byte_of_window by lia. simpl. lia.
Qed.

Lemma to_signed_8_small b : 0 ≤ b < 128 → to_signed 8 b = b.
Proof.
  intros H. unfold to_signed. change (2 ^ (8 - 1)) with 128.
  destruct (Z.ltb_spec b 128); lia.
Qed.

Lemma to_signed_8_large b : 128 ≤ b < 256 → to_signed 8 b = b - 256.
Proof.
  intros H. unfold to_signed. change (2 ^ (8 - 1)) with 128. change (2 ^ 8) with 256.
  destruct (Z.ltb_spec b 128); lia.
Qed.

Lemma getitem_range raw i b : getitem raw i = Ok b → 0 ≤ b < 256.
Proof.
  unfold getitem. destruct (_ && _); [|discriminate]. intros [= <-]. apply b2z_range.
Qed.

End PyFacts.

(** ** Facts about isoparser.py *)

Module IsoFacts.

Import IsoParser Spec Fixtures PyFacts.

(** [DirEntry] reads the record length as a signed byte. *)
Lemma DirEntry_length raw idx e b :
  DirEntry_init raw idx = Ok e → getitem raw idx = Ok b → length_ e = to_signed 8 b.
Proof.
  unfold DirEntry_init. intros H Hg.
  destruct (unpack_from 33 raw idx) as [header|] eqn:Hu; [|discriminate].
  cbn [bind] in H.
  destruct (if fmt_b header 32 <? 0 then _ else _) as [nm|]; [|discriminate].
  cbn [bind] in H.
  destruct (decode_ascii nm); [|discriminate]. cbn [bind] in H.
  injection H as <-. cbn [length_]. unfold fmt_b.
  by rewrite (getitem_unpack_from raw idx b 32 header Hg Hu).
Qed.

Lemma walk_dirs_eq fuel s d out :
  walk_dirs (S fuel) s d out =
  (let out :=
      match out with
      | None | Some [] => []
      | Some o => o
      end in
    let+ stream_ := lift (seek s (extent d * 0x800)) in
    let+ (data, stream_) := lift (read stream_ 0x800) in
    walk_dirs_loop fuel stream_ data 0 0 out).
Proof. reflexivity. Qed.

Lemma walk_dirs_loop_eq fuel s data idx i out :
  walk_dirs_loop (S fuel) s data idx i out =
  (let+ b := lift (getitem data idx) in
    if b =? 0 then Some (Ok (out, s)) else
    let+ entry := lift (DirEntry_init data idx) in
    if negb (Z.land (flags entry) 0x02 =? 0) && (2 <=? i) then
      let out1 := out ++ [entry] in
      let+ (callee_out, stream_) := walk_dirs fuel s entry (Some out1) in
      let out2 :=
        match out1 with
        | [] => out1
        | _ => callee_out
        end in
      walk_dirs_loop fuel stream_ data (idx + length_ entry) (i + 1) out2
    else
      walk_dirs_loop fuel s data (idx + length_ entry) (i + 1) out).
Proof. reflexivity. Qed.

(** What [walk_dirs] reads is the sector of the directory. *)
Lemma enter_sector s d s1 data s2 :
  seek s (extent d * 0x800) = Ok s1 →
  read s1 0x800 = Ok (data, s2) →
  sector_of (content s) d = Some data ∧ content s2 = content s.
Proof.
  unfold seek, read, sector_of.
  destruct (extent d * 0x800 <? 0) eqn:E; [discriminate|].
  intros [= <-]. simpl. intros [= <- <-]. simpl. done.
Qed.

Lemma scan_listed_from_stop data idx i e :
  record_at data idx = None → ¬ scan_listed_from data idx i e.
Proof.
  intros H (n & _ & Hn & _). unfold scan_record_from in Hn.
  destruct n; simpl in Hn; rewrite H in Hn; discriminate.
Qed.

Lemma scan_listed_from_step data idx i r e :
  record_at data idx = Some r →
  scan_listed_from data idx i e ↔
  (2 ≤ i ∧ e = r ∧ is_dir r = true) ∨ scan_listed_from data (idx + length_ r) (i + 1) e.
Proof.
  intros H. split.
  - intros (n & Hi & Hn & Hd). unfold scan_record_from in Hn. destruct n; simpl in Hn.
    + rewrite H in Hn. injection Hn as <-. left. split; [lia|done].
    + rewrite H in Hn. right. exists n. unfold scan_record_from.
      split; [lia|done].
  - intros [(Hi & -> & Hd) | (n & Hi & Hn & Hd)].
    + exists 0%nat. unfold scan_record_from. simpl. split; [lia|done].
    + exists (S n). unfold scan_record_from in *. simpl. rewrite H. split; [lia|done].
Qed.

Lemma scan_reach_iff file d data e :
  sector_of file d = Some data →
  scan_reach file d e ↔ ∃ c, scan_listed data c ∧ (e = c ∨ scan_reach file c e).
Proof.
  intros Hs. split.
  - intros H. destruct H as [d data' e Hs' Hl | d data' c e Hs' Hl Hr];
      rewrite Hs in Hs'; injection Hs' as <-; eauto.
  - intros (c & Hl & [-> | Hr]); [eapply scan_reach_child | eapply scan_reach_below]; eauto.
Qed.

Lemma walk_spec fuel :
  (∀ s d out r s',
      walk_dirs fuel s d out = Some (Ok (r, s')) →
      content s' = content s ∧
      ∀ e, In e r ↔ In e (norm_out out) ∨ scan_reach (content s) d e)
  ∧
  (∀ s data idx i out r s',
      walk_dirs_loop fuel s data idx i out = Some (Ok (r, s')) →
      content s' = content s ∧
      ∀ e, In e r ↔
           In e out ∨ ∃ c, scan_listed_from data idx i c ∧ (e = c ∨ scan_reach (content s) c e)).
Proof.
  induction fuel as [|fuel [IHw IHl]]; [split; intros; discriminate|].
  split.
  - intros s d out r s'. rewrite walk_dirs_eq. cbn zeta. unfold lift.
    destruct (seek s (extent d * 0x800)) as [s1|] eqn:Hseek; [|discriminate].
    cbn [bindF].
    destruct (read s1 0x800) as [[data s2]|] eqn:Hread; [|discriminate].
    cbn [bindF]. intros H.
    destruct (enter_sector _ _ _ _ _ Hseek Hread) as [Hsec Hc].
    apply IHl in H as [Hc' H]. split; [congruence|].
    intros e. rewrite H. fold (norm_out out). rewrite Hc.
    rewrite (scan_reach_iff _ _ _ e Hsec). done.
  - intros s data idx i out r s'. rewrite walk_dirs_loop_eq. unfold lift.
    destruct (getitem data idx) as [b|] eqn:Hg; [|discriminate]. cbn [bindF].
    destruct (b =? 0) eqn:Hb.
    { intros [= <- <-]. split; [done|]. intros e. split; [tauto|].
      intros [?|(c & Hl & _)]; [done|]. exfalso. revert Hl. apply scan_listed_from_stop.
      unfold record_at. by rewrite Hg, Hb. }
    destruct (DirEntry_init data idx) as [entry|] eqn:Hd; [|discriminate]. cbn [bindF].
    assert (Hrec : record_at data idx = Some entry).
    { unfold record_at. by rewrite Hg, Hb, Hd. }
    destruct (negb (Z.land (flags entry) 2 =? 0) && (2 <=? i)) eqn:Hc.
    + cbn zeta.
      destruct (walk_dirs fuel s entry (Some (out ++ [entry]))) as [[[cr s1]|]|] eqn:Hw;
        [|discriminate|discriminate].
      cbn [bindF].
      assert (Hne : match out ++ [entry] with [] => out ++ [entry] | _ => cr end = cr).
      { destruct out; reflexivity. }
      rewrite Hne. intros H.
      apply IHw in Hw as [Hc1 Hw]. apply IHl in H as [Hc2 H].
      split; [congruence|]. intros e. rewrite H, Hw. rewrite Hc1.
      assert (Hn : norm_out (Some (out ++ [entry])) = out ++ [entry]).
      { destruct out; reflexivity. }
      rewrite Hn. rewrite in_app_iff. simpl.
      apply andb_true_iff in Hc as [Hdir Hi]. apply Z.leb_le in Hi.
      split.
      * intros [[[?|[<-|[]]]|Hr]|(c & Hl & Hcr)].
        -- by left.
        -- right. exists entry. split; [|by left].
           apply (scan_listed_from_step _ _ _ _ _ Hrec). by left.
        -- right. exists entry. split; [|by right].
           apply (scan_listed_from_step _ _ _ _ _ Hrec). by left.
        -- right. exists c. split; [|done].
           apply (scan_listed_from_step _ _ _ _ _ Hrec). by right.
      * intros [?|(c & Hl & Hcr)]; [by left; left; left|].
        apply (scan_listed_from_step _ _ _ _ _ Hrec) in Hl as [(_ & -> & _)|Hl].
        -- destruct Hcr as [->|Hr]; [left; left; right; by left | left; by right].
        -- right. eauto.
    + intros H. apply IHl in H as [Hc2 H]. split; [done|].
      intros e. rewrite H. split.
      * intros [?|(c & Hl & Hcr)]; [by left|]. right. exists c. split; [|done].
        apply (scan_listed_from_step _ _ _ _ _ Hrec). by right.
      * intros [?|(c & Hl & Hcr)]; [by left|].
        apply (scan_listed_from_step _ _ _ _ _ Hrec) in Hl as [(Hi & -> & Hdir)|Hl].
        -- exfalso. unfold is_dir in Hdir. rewrite Hdir in Hc. simpl in Hc.
           apply Z.leb_gt in Hc. lia.
        -- right. eauto.
Qed.

Lemma returned_inv {A : Type} (r : run (A * stream)) (a : A) :
  returned r = Some (Ok a) → ∃ s, r = Some (Ok (a, s)).
Proof.
  unfold returned. destruct r as [[[a' s]|]|]; simpl; [|discriminate..].
  intros [= <-]. eauto.
Qed.

Lemma scan_listed_is_dir data idx i e : scan_listed_from data idx i e → is_dir e = true.
Proof. by intros (n & _ & _ & H). Qed.

Lemma scan_reach_is_dir file d e : scan_reach file d e → is_dir e = true.
Proof. induction 1; eauto using scan_listed_is_dir. Qed.

(** A record that the loop passes without appending moves the cursor by
    its length. *)
Lemma walk_dirs_loop_skip fuel s data idx i out e :
  record_at data idx = Some e →
  is_dir e && (2 <=? i) = false →
  walk_dirs_loop (S fuel) s data idx i out
  = walk_dirs_loop fuel s data (idx + length_ e) (i + 1) out.
Proof.
  unfold record_at, is_dir. intros Hr Hc. rewrite walk_dirs_loop_eq. unfold lift.
  destruct (getitem data idx) as [b|]; [|discriminate]. cbn [bindF].
  destruct (b =? 0); [discriminate|].
  destruct (DirEntry_init data idx) as [e'|]; [|discriminate].
  injection Hr as ->. cbn [bindF]. by rewrite Hc.
Qed.

(** [walk_dirs] is its loop on the sector of the directory. *)
Lemma walk_dirs_sector fuel s d out data :
  sector_of (content s) d = Some data →
  walk_dirs (S fuel) s d out
  = walk_dirs_loop fuel (mkStream (content s) (extent d * 0x800 + len data)) data 0 0
      (norm_out out).
Proof.
  unfold sector_of. intros H. rewrite walk_dirs_eq. unfold lift, seek, read.
  destruct (extent d * 0x800 <? 0); [discriminate|]. injection H as <-.
  reflexivity.
Qed.

Lemma getitem_past_end data idx : len data ≤ idx → getitem data idx = Raise IndexError.
Proof.
  intros H. unfold getitem. unfold len in *.
  destruct (Z.ltb_spec idx 0); [lia|].
  destruct (Z.ltb_spec idx (Z.of_nat (length data))); [lia|].
  by rewrite andb_false_r.
Qed.

(** A loop that returns has come, record after record, to a cursor with a
    zero byte under it. *)
Lemma walk_dirs_loop_ends_at_zero fuel :
  ∀ s data idx i out r,
    walk_dirs_loop fuel s data idx i out = Some (Ok r) →
    ∃ n c, cursor_from data idx n = Some c ∧ getitem data c = Ok 0.
Proof.
  induction fuel as [|fuel IH]; intros s data idx i out r; [discriminate|].
  rewrite walk_dirs_loop_eq. unfold lift.
  destruct (getitem data idx) as [b|] eqn:Hg; [|discriminate]. cbn [bindF].
  destruct (b =? 0) eqn:Hb.
  { intros _. apply Z.eqb_eq in Hb as ->. by exists 0%nat, idx. }
  destruct (DirEntry_init data idx) as [entry|] eqn:Hd; [|discriminate]. cbn [bindF].
  assert (Hrec : record_at data idx = Some entry).
  { unfold record_at. by rewrite Hg, Hb, Hd. }
  assert (Hnext : ∀ s1 o, walk_dirs_loop fuel s1 data (idx + length_ entry) (i + 1) o = Some (Ok r) →
                  ∃ n c, cursor_from data idx n = Some c ∧ getitem data c = Ok 0).
  { intros s1 o H. apply IH in H as (n & c & Hn & Hc). exists (S n), c. simpl.
    by rewrite Hrec. }
  destruct (negb (Z.land (flags entry) 2 =? 0) && (2 <=? i)).
  - cbn zeta.
    destruct (walk_dirs fuel s entry (Some (out ++ [entry]))) as [[[cr s1]|]|];
      [|discriminate..].
    cbn [bindF]. apply Hnext.
  - apply Hnext.
Qed.

Lemma backward_sector_cycle fuel :
  ∀ s i out,
    walk_dirs_loop fuel s backward_sector 0 i out = None
    ∧ walk_dirs_loop fuel s backward_sector 100 i out = None.
Proof.
  assert (R0 : ∃ e, record_at backward_sector 0 = Some e ∧ length_ e = 100
                    ∧ is_dir e = false).
  { eexists. split; [vm_compute; reflexivity | split; reflexivity]. }
  assert (R1 : ∃ e, record_at backward_sector 100 = Some e ∧ length_ e = -100
                    ∧ is_dir e = false).
  { eexists. split; [vm_compute; reflexivity | split; reflexivity]. }
  destruct R0 as (e0 & R0 & L0 & D0). destruct R1 as (e1 & R1 & L1 & D1).
  induction fuel as [|fuel IH]; intros s i out; [done|].
  split.
  - rewrite (walk_dirs_loop_skip _ _ _ _ _ _ e0 R0) by (by rewrite D0).
    rewrite L0. change (0 + 100) with 100. apply IH.
  - rewrite (walk_dirs_loop_skip _ _ _ _ _ _ e1 R1) by (by rewrite D1).
    rewrite L1. change (100 + -100) with 0. apply IH.
Qed.

Lemma path_table_loop_eq fuel data pts idx :
  path_table_loop (S fuel) data pts idx =
  if idx <? pts then
    let+ entry := lift (PathTableEntry_init data idx) in
    path_table_loop fuel data pts (idx + PathTableEntry_size entry)
  else Some (Ok idx).
Proof. reflexivity. Qed.

(** The loop returns the first entry boundary that is not below the
    declared size. *)
Lemma path_table_loop_complete data pts n :
  ∀ fuel idx final,
    pt_cursor data idx n = Some final → pts ≤ final →
    (∀ m c, (m < n)%nat → pt_cursor data idx m = Some c → c < pts) →
    (n < fuel)%nat →
    path_table_loop fuel data pts idx = Some (Ok final).
Proof.
  induction n as [|n IH]; intros fuel idx final Hc Hf Hm Hn;
    (destruct fuel as [|fuel]; [lia|]); rewrite path_table_loop_eq; simpl in Hc.
  - injection Hc as <-. destruct (Z.ltb_spec idx pts); [lia|done].
  - assert (idx < pts) by (apply (Hm 0%nat); [lia|done]).
    destruct (Z.ltb_spec idx pts); [|lia].
    destruct (PathTableEntry_init data idx) as [e|] eqn:He; [|discriminate].
    unfold lift. cbn [bindF]. apply IH; [done|done| |lia].
    intros m c Hlt Hcm. apply (Hm (S m)); [lia|]. simpl. by rewrite He.
Qed.

Lemma path_table_loop_sound data pts fuel :
  ∀ idx final,
    path_table_loop fuel data pts idx = Some (Ok final) →
    pts ≤ final
    ∧ ∃ n, pt_cursor data idx n = Some final
           ∧ ∀ m c, (m < n)%nat → pt_cursor data idx m = Some c → c < pts.
Proof.
  induction fuel as [|fuel IH]; intros idx final; [discriminate|].
  rewrite path_table_loop_eq. destruct (Z.ltb_spec idx pts) as [Hlt0|Hge0].
  - destruct (PathTableEntry_init data idx) as [e|] eqn:He; [|discriminate].
    unfold lift. cbn [bindF]. intros H. apply IH in H as (Hf & n & Hc & Hm).
    split; [done|]. exists (S n). simpl. rewrite He. split; [done|].
    intros [|m] c Hlt; simpl.
    + by intros [= <-].
    + rewrite He. apply Hm. lia.
  - intros [= <-]. split; [done|]. exists 0%nat. split; [done|]. intros; lia.
Qed.


(** More fuel does not change what a call returns. *)
Lemma walk_fuel_mono fuel :
  (∀ s d out r, walk_dirs fuel s d out = Some r →
                ∀ fuel', (fuel ≤ fuel')%nat → walk_dirs fuel' s d out = Some r)
  ∧ (∀ s data idx i out r,
       walk_dirs_loop fuel s data idx i out = Some r →
       ∀ fuel', (fuel ≤ fuel')%nat → walk_dirs_loop fuel' s data idx i out = Some r).
Proof.
  induction fuel as [|fuel [IHw IHl]]; [split; intros; discriminate|].
  split.
  - intros s d out r H [|fuel'] Hle; [lia|]. revert H.
    rewrite !walk_dirs_eq. cbn zeta. unfold lift.
    destruct (seek s (extent d * 2048)) as [s1|]; [|done]. cbn [bindF].
    destruct (read s1 2048) as [[data s2]|]; [|done]. cbn [bindF].
    intros H. apply (IHl _ _ _ _ _ _ H). lia.
  - intros s data idx i out r H [|fuel'] Hle; [lia|]. revert H.
    rewrite !walk_dirs_loop_eq. unfold lift.
    destruct (getitem data idx) as [b|]; [|done]. cbn [bindF].
    destruct (b =? 0); [done|].
    destruct (DirEntry_init data idx) as [entry|]; [|done]. cbn [bindF].
    destruct (negb (Z.land (flags entry) 2 =? 0) && (2 <=? i)).
    + cbn zeta.
      destruct (walk_dirs fuel s entry (Some (out ++ [entry]))) as [r1|] eqn:Hw;
        [|discriminate].
      rewrite (IHw _ _ _ _ Hw fuel') by lia.
      destruct r1 as [[cr s1]|]; [|done]. cbn [bindF].
      intros H. apply (IHl _ _ _ _ _ _ H). lia.
    + intros H. apply (IHl _ _ _ _ _ _ H). lia.
Qed.

Lemma walk_dirs_fuel_mono fuel fuel' s d out r :
  walk_dirs fuel s d out = Some r → (fuel ≤ fuel')%nat →
  walk_dirs fuel' s d out = Some r.
Proof. intros H. by apply (proj1 (walk_fuel_mono fuel)). Qed.

Lemma returned_walk_dirs_fuel_mono fuel fuel' s d out r :
  returned (walk_dirs fuel s d out) = Some r → (fuel ≤ fuel')%nat →
  returned (walk_dirs fuel' s d out) = Some r.
Proof.
  unfold returned. destruct (walk_dirs fuel s d out) as [r0|] eqn:H; [|discriminate].
  intros Hr Hle. by rewrite (walk_dirs_fuel_mono _ _ _ _ _ _ H Hle).
Qed.

Lemma path_table_loop_fuel_mono fuel :
  ∀ data pts idx r,
    path_table_loop fuel data pts idx = Some r →
    ∀ fuel', (fuel ≤ fuel')%nat → path_table_loop fuel' data pts idx = Some r.
Proof.
  induction fuel as [|fuel IH]; intros data pts idx r H [|fuel'] Hle;
    try discriminate; try lia.
  revert H. rewrite !path_table_loop_eq. destruct (idx <? pts); [|done].
  unfold lift. destruct (PathTableEntry_init data idx); [|done]. cbn [bindF].
  intros H. apply (IH _ _ _ _ H). lia.
Qed.

Lemma parse_iso_fuel_mono fuel fuel' file r :
  parse_iso fuel file = Some r → (fuel ≤ fuel')%nat → parse_iso fuel' file = Some r.
Proof.
  unfold parse_iso. intros H Hle.
  destruct (get_pvd_header (open file)) as [[[header f]|]|]; [|done..].
  cbn [bindF] in *. unfold lift in *.
  destruct (seek f _) as [f1|]; [|done]. cbn [bindF] in *.
  destruct (read f1 _) as [[data f2]|]; [|done]. cbn [bindF] in *.
  destruct (path_table_loop fuel data _ 0) as [r1|] eqn:Hp; [|discriminate].
  rewrite (path_table_loop_fuel_mono _ _ _ _ _ Hp fuel' Hle).
  destruct r1 as [z|]; [|done]. cbn [bindF] in *.
  destruct (walk_dirs fuel f2 _ None) as [r2|] eqn:Hw; [|discriminate].
  by rewrite (walk_dirs_fuel_mono _ _ _ _ _ _ Hw Hle).
Qed.

Section PvdScanFacts.

Context {A : Type} (on_pvd : bytes → result A).

Lemma pvd_scan_loop_eq fuel f raw_sector :
  pvd_scan_loop on_pvd (S fuel) f raw_sector =
  (let+ t := lift (getitem raw_sector 0) in
    if negb (t =? 0xFF) then
      if t =? 0x01 then
        let+ r := lift (on_pvd raw_sector) in
        Some (Ok (r, f))
      else
        let+ (raw_sector', f') := lift (read f 0x800) in
        pvd_scan_loop on_pvd fuel f' raw_sector'
    else Some (Raise (Exception "Could not find PVD"))).
Proof. reflexivity. Qed.

Lemma len_take_drop (l : bytes) (n p : nat) :
  len (take n (drop p l)) = Z.min (Z.of_nat n) (Z.max 0 (len l - Z.of_nat p)).
Proof. unfold len. rewrite length_take, length_drop. lia. Qed.

Lemma getitem_nil i : getitem [] i = Raise IndexError.
Proof.
  assert (H : ∀ j, (0 <=? j) && (j <? 0) = false).
  { intros j. destruct (Z.leb_spec 0 j), (Z.ltb_spec j 0); simpl; auto; lia. }
  unfold getitem. change (len []) with 0. by rewrite H.
Qed.

(** A read of one sector from a file object with a position that is not
    negative. *)
Lemma read_sector f :
  0 ≤ pos f →
  ∃ raw f', read f 0x800 = Ok (raw, f')
            ∧ raw = take (Z.to_nat 0x800) (drop (Z.to_nat (pos f)) (content f))
            ∧ content f' = content f
            ∧ pos f' = pos f + len raw
            ∧ len raw = Z.min 0x800 (Z.max 0 (len (content f) - pos f)).
Proof.
  intros Hp. eexists _, _. unfold read. simpl. split; [reflexivity|].
  split; [reflexivity|]. split; [reflexivity|]. split; [reflexivity|].
  rewrite len_take_drop. lia.
Qed.

(** The loop returns, whatever it finds, when its fuel exceeds by two the
    bytes of the file that are left to read. *)
Lemma pvd_scan_loop_total fuel :
  ∀ f raw,
    0 ≤ pos f →
    (raw = [] ∧ (1 ≤ fuel)%nat) ∨ Z.max 0 (len (content f) - pos f) + 2 ≤ Z.of_nat fuel →
    pvd_scan_loop on_pvd fuel f raw ≠ None.
Proof.
  induction fuel as [|fuel IH]; intros f raw Hp Hfuel; [lia|].
  rewrite pvd_scan_loop_eq. unfold lift.
  destruct raw as [|b raw].
  { rewrite getitem_nil. done. }
  destruct Hfuel as [[? _]|Hfuel]; [done|].
  destruct (getitem (b :: raw) 0) as [t|]; [|done]. cbn [bindF].
  destruct (negb (t =? 255)); [|done].
  destruct (t =? 1).
  { destruct (on_pvd (b :: raw)); done. }
  destruct (read_sector f Hp) as (raw' & f' & -> & Hraw & Hc & Hpos & Hlen).
  cbn [bindF]. apply IH; [unfold len in *; lia|].
  destruct raw' as [|b' raw2] eqn:E.
  - left. split; [done|lia].
  - right. rewrite Hc, Hpos. rewrite Hlen.
    assert (0 < len (b' :: raw2)) by (unfold len; simpl; lia). lia.
Qed.

Lemma pvd_scan_enter fuel f :
  pvd_scan_fuel on_pvd fuel f
  = let+ (raw_sector, f') := lift (read (mkStream (content f) 0x8000) 0x800) in
    pvd_scan_loop on_pvd fuel f' raw_sector.
Proof. reflexivity. Qed.

Lemma pvd_scan_total f : pvd_scan on_pvd f ≠ None.
Proof.
  unfold pvd_scan. rewrite pvd_scan_enter.
  set (f0 := mkStream (content f) 0x8000).
  destruct (read_sector f0) as (raw & f' & -> & Hraw & Hc & Hpos & Hlen); [simpl; lia|].
  unfold lift. cbn [bindF]. apply pvd_scan_loop_total.
  - rewrite Hpos. unfold len. simpl. lia.
  - right. rewrite Hc, Hpos. simpl. unfold len in *. simpl in *. lia.
Qed.

(** Reading from an aligned file object gives the next sector and leaves
    the file object aligned for the one after. *)
Lemma read_aligned f k :
  aligned f k →
  ∃ f', read f 0x800 = Ok (sector_k (content f) k, f')
        ∧ content f' = content f ∧ aligned f' (S k).
Proof.
  intros Ha.
  assert (Hp : 0 ≤ pos f) by (destruct Ha as [->|[? _]]; unfold len in *; lia).
  destruct (read_sector f Hp) as (raw & f' & -> & Hraw & Hc & Hpos & Hlen).
  exists f'. split; [|split; [done|]].
  - f_equal. f_equal. rewrite Hraw. unfold sector_k. destruct Ha as [->|[H1 H2]]; [done|].
    rewrite !drop_ge; [done|unfold len in *; lia|unfold len in *; lia].
  - unfold aligned. rewrite Hc, Hpos, Hlen. destruct Ha as [->|[H1 H2]]; lia.
Qed.

Lemma passed_over_nonempty file k :
  passed_over (sector_k file k) → 0x8000 + 0x800 * Z.of_nat k < len file.
Proof.
  intros (t & Hg & _). destruct (Z.lt_ge_cases (0x8000 + 0x800 * Z.of_nat k) (len file)); [done|].
  unfold sector_k in Hg. rewrite drop_ge in Hg by (unfold len in *; lia).
  rewrite take_nil in Hg. by rewrite getitem_nil in Hg.
Qed.

(** The loop goes over the sectors that are neither a primary volume
    descriptor nor a terminator, one pass each. *)
Lemma pvd_scan_loop_skip n :
  ∀ fuel f k,
    aligned f (S k) →
    (∀ j, (j < n)%nat → passed_over (sector_k (content f) (k + j))) →
    ∃ f', content f' = content f ∧ aligned f' (S (k + n))
          ∧ pvd_scan_loop on_pvd (n + fuel) f (sector_k (content f) k)
            = pvd_scan_loop on_pvd fuel f' (sector_k (content f) (k + n)).
Proof.
  induction n as [|n IH]; intros fuel f k Ha Hj.
  - exists f. rewrite Nat.add_0_r. done.
  - destruct (Hj 0%nat) as (t & Hg & Hff & H01); [lia|]. rewrite Nat.add_0_r in Hg.
    destruct (read_aligned f (S k) Ha) as (f1 & Hr & Hc1 & Ha1).
    destruct (IH fuel f1 (S k) Ha1) as (f' & Hc' & Ha' & Heq).
    { intros j Hlt. rewrite Hc1. replace (S k + j)%nat with (k + S j)%nat by lia.
      apply Hj. lia. }
    exists f'. split; [congruence|]. split.
    { replace (k + S n)%nat with (S k + n)%nat by lia. done. }
    change (S n + fuel)%nat with (S (n + fuel)). rewrite pvd_scan_loop_eq.
    rewrite Hg. unfold lift. cbn [bindF].
    destruct (Z.eqb_spec t 255); [done|]. destruct (Z.eqb_spec t 1); [done|].
    cbn [negb]. rewrite Hr. cbn [bindF]. rewrite Hc1 in Heq. rewrite Heq.
    by replace (k + S n)%nat with (S k + n)%nat by lia.
Qed.

(** The scan comes to sector [k] when it passes over the sectors before
    it. *)
Lemma pvd_scan_reaches f k :
  (∀ j, (j < k)%nat → passed_over (sector_k (content f) j)) →
  ∃ f' fuel, content f' = content f
             ∧ pvd_scan on_pvd f
               = pvd_scan_loop on_pvd (S fuel) f' (sector_k (content f) k).
Proof.
  intros Hj. unfold pvd_scan. rewrite pvd_scan_enter.
  set (f0 := mkStream (content f) 0x8000).
  assert (Ha0 : aligned f0 0) by (left; simpl; lia).
  destruct (read_aligned f0 0%nat Ha0) as (f1 & Hr & Hc1 & Ha1).
  rewrite Hr. unfold lift. cbn [bindF]. simpl in Hc1. change (content f0) with (content f).
  assert (Hk : (k < S (S (length (content f))))%nat).
  { destruct k as [|k]; [lia|].
    pose proof (passed_over_nonempty _ k (Hj k ltac:(lia))). unfold len in *. lia. }
  destruct (pvd_scan_loop_skip k (S (S (length (content f))) - k) f1 0%nat Ha1)
    as (f' & Hc' & _ & Heq).
  { intros j Hlt. rewrite Hc1. apply Hj. done. }
  rewrite Hc1 in Heq. simpl in Heq.
  exists f', (S (length (content f)) - k)%nat. split; [congruence|].
  replace (S (S (length (content f)))) with (k + (S (S (length (content f))) - k))%nat
    at 1 by lia.
  rewrite Heq. f_equal. lia.
Qed.

(** What the scan does at the first sector that it does not pass over. *)
Lemma pvd_scan_outcome f k :
  (∀ j, (j < k)%nat → passed_over (sector_k (content f) j)) →
  (getitem (sector_k (content f) k) 0 = Ok 0x01 →
   returned (pvd_scan on_pvd f) = Some (on_pvd (sector_k (content f) k)))
  ∧ (getitem (sector_k (content f) k) 0 = Ok 0xFF →
     pvd_scan on_pvd f = Some (Raise (Exception "Could not find PVD")))
  ∧ (sector_k (content f) k = [] → pvd_scan on_pvd f = Some (Raise IndexError)).
Proof.
  intros Hj. destruct (pvd_scan_reaches f k Hj) as (f' & fuel & _ & ->).
  rewrite pvd_scan_loop_eq. unfold lift. repeat split.
  - intros ->. cbn [bindF]. simpl. by destruct (on_pvd _).
  - by intros ->.
  - intros ->. by rewrite getitem_nil.
Qed.

End PvdScanFacts.

Lemma getitem_first (b : byte) (l : bytes) : getitem (b :: l) 0 = Ok (b2z b).
Proof.
  unfold getitem, len. simpl length.
  destruct (Z.ltb_spec 0 (Z.of_nat (S (length l)))); [done|lia].
Qed.

Lemma drop_repeat {A : Type} (x : A) (n d : nat) :
  drop d (repeat x n) = repeat x (n - d).
Proof.
  revert d. induction n as [|n IH]; intros [|d]; simpl; done.
Qed.

(** A sector of a run of zeros begins with a zero. *)
Lemma sector_k_zeros (n : Z) (rest : bytes) (j : nat) :
  0x8000 + 0x800 * Z.of_nat j < n →
  getitem (sector_k (zeros n ++ rest) j) 0 = Ok 0.
Proof.
  intros H. unfold sector_k, zeros.
  set (d := Z.to_nat (32768 + 2048 * Z.of_nat j)).
  assert (Hd : (d < Z.to_nat n)%nat) by lia.
  rewrite drop_app_le by (rewrite repeat_length; lia).
  rewrite drop_repeat.
  destruct (Z.to_nat n - d)%nat as [|m] eqn:E; [lia|].
  change (Z.to_nat 2048) with (S (Z.to_nat 2047)). simpl. apply getitem_first.
Qed.

Lemma sector_k_after_zeros (k : nat) (sector rest : bytes) :
  length sector = Z.to_nat 0x800 →
  sector_k (zeros (0x8000 + 0x800 * Z.of_nat k) ++ sector ++ rest) k = sector.
Proof.
  intros Hl. unfold sector_k, zeros.
  rewrite drop_app_length' by (by rewrite repeat_length).
  by rewrite take_app_length'.
Qed.

(** The scan finds a primary volume descriptor after any number of
    sectors of zeros. *)
Lemma late_pvd_is_found (k : nat) (rest : bytes) :
  returned (get_pvd_header
              (open (zeros (0x8000 + 0x800 * Z.of_nat k) ++ pvd_sector 20 10 18 19 ++ rest)))
  = Some (Ok header_20_10).
Proof.
  set (img := zeros (0x8000 + 0x800 * Z.of_nat k) ++ pvd_sector 20 10 18 19 ++ rest).
  assert (Hk : sector_k img k = pvd_sector 20 10 18 19).
  { apply sector_k_after_zeros. vm_compute. reflexivity. }
  destruct (pvd_scan_outcome IsoHeader_init (open img) k) as (H1 & _).
  - intros j Hj. exists 0. split; [|split; discriminate].
    apply sector_k_zeros. lia.
  - unfold get_pvd_header. rewrite H1.
    + change (content (open img)) with img. rewrite Hk. vm_compute. reflexivity.
    + change (content (open img)) with img. rewrite Hk. vm_compute. reflexivity.
Qed.

(** *** The records of a sector and the scan of the code

    The scan moves by the record length as [DirEntry] reads it, a signed
    byte; the records lie [record_length] bytes apart, an unsigned byte.
    In a sector whose records are all shorter than 128 bytes the two
    agree. *)

Lemma record_at_length data idx e :
  record_at data idx = Some e →
  ∃ b, getitem data idx = Ok b ∧ record_length_at data idx = Some b
       ∧ length_ e = to_signed 8 b.
Proof.
  unfold record_at, record_length_at.
  destruct (getitem data idx) as [b|] eqn:Hg; [|discriminate].
  destruct (b =? 0); [discriminate|].
  destruct (DirEntry_init data idx) as [e'|] eqn:Hd; [|discriminate].
  intros [= <-]. exists b. split; [done|]. split; [done|].
  by apply (DirEntry_length data idx).
Qed.

Lemma record_length_at_inv data idx b :
  record_length_at data idx = Some b → getitem data idx = Ok b ∧ b ≠ 0.
Proof.
  unfold record_length_at. destruct (getitem data idx) as [b'|]; [|discriminate].
  destruct (Z.eqb_spec b' 0); [discriminate|]. by intros [= <-].
Qed.

Lemma short_records_from_step data idx b :
  short_records_from data idx → record_length_at data idx = Some b →
  0 < b < 0x80 ∧ short_records_from data (idx + b).
Proof.
  intros Hs Hb. pose proof (record_length_at_inv _ _ _ Hb) as [Hg Hz].
  pose proof (getitem_range _ _ _ Hg). split.
  - pose proof (Hs 0%nat idx b eq_refl Hg). lia.
  - intros n c b' Hn Hc. apply (Hs (S n) c b'); [|done]. simpl. by rewrite Hb.
Qed.

(** The check is sound. *)
Lemma short_records_check_sound fuel :
  ∀ data idx, short_records_check fuel data idx = true → short_records_from data idx.
Proof.
  induction fuel as [|fuel IH]; intros data idx; [discriminate|]. simpl.
  destruct (getitem data idx) as [b|] eqn:Hg.
  - destruct (Z.eqb_spec b 0) as [->|Hz].
    + intros _ [|n] c b' Hn Hc; simpl in Hn.
      * injection Hn as <-. rewrite Hg in Hc. injection Hc as <-. lia.
      * unfold record_length_at in Hn. rewrite Hg in Hn. discriminate.
    + intros H. apply andb_true_iff in H as [Hb H]. apply Z.ltb_lt in Hb.
      intros [|n] c b' Hn Hc; simpl in Hn.
      * injection Hn as <-. rewrite Hg in Hc. injection Hc as <-. lia.
      * unfold record_length_at in Hn. rewrite Hg in Hn.
        destruct (Z.eqb_spec b 0); [done|]. by apply (IH _ _ H n c b').
  - intros _ [|n] c b' Hn Hc; simpl in Hn.
    + injection Hn as <-. rewrite Hg in Hc. discriminate.
    + unfold record_length_at in Hn. rewrite Hg in Hn. discriminate.
Qed.

(** The cursor of the scan is at the offsets of the records. *)
Lemma scan_follows_layout data n :
  ∀ idx c, short_records_from data idx →
           cursor_from data idx n = Some c → record_offset_from data idx n = Some c.
Proof.
  induction n as [|n IH]; intros idx c Hs; simpl; [done|].
  destruct (record_at data idx) as [e|] eqn:Hr; [|discriminate].
  destruct (record_at_length _ _ _ Hr) as (b & Hg & Hb & Hl).
  rewrite Hb. destruct (short_records_from_step _ _ _ Hs Hb) as [Hlt Hs'].
  rewrite Hl, to_signed_8_small by lia. by apply IH.
Qed.

(** Where the scan comes to a zero byte, it has met every record of the
    sector that decodes. *)
Lemma layout_follows_scan data n :
  ∀ idx n0 c0 c e,
    short_records_from data idx →
    cursor_from data idx n0 = Some c0 → getitem data c0 = Ok 0 →
    record_offset_from data idx n = Some c → record_at data c = Some e →
    cursor_from data idx n = Some c.
Proof.
  induction n as [|n IH]; intros idx n0 c0 c e Hs H0 Hz Hn Hr; simpl in *; [done|].
  destruct (record_length_at data idx) as [b|] eqn:Hb; [|discriminate].
  destruct (short_records_from_step _ _ _ Hs Hb) as [Hlt Hs'].
  pose proof (record_length_at_inv _ _ _ Hb) as [Hg Hnz].
  destruct n0 as [|n0]; simpl in H0.
  { injection H0 as <-. rewrite Hg in Hz. by injection Hz. }
  destruct (record_at data idx) as [e0|] eqn:Hr0; [|discriminate].
  destruct (record_at_length _ _ _ Hr0) as (b0 & Hg0 & _ & Hl).
  rewrite Hg in Hg0. injection Hg0 as <-.
  rewrite Hl, to_signed_8_small in H0 |- * by lia. by eapply IH.
Qed.

Lemma scan_listed_is_listed data e :
  short_records data → scan_listed data e → listed data e.
Proof.
  intros Hs (n & Hn & Hr & Hd). exists n. split; [lia|]. split; [|done].
  unfold scan_record_from in Hr. unfold nth_record, nth_record_from.
  destruct (cursor_from data 0 n) as [c|] eqn:Hc; [|discriminate].
  by rewrite (scan_follows_layout _ _ _ _ Hs Hc).
Qed.

Lemma listed_is_scan_listed data n0 c0 e :
  short_records data →
  cursor_from data 0 n0 = Some c0 → getitem data c0 = Ok 0 →
  listed data e → scan_listed data e.
Proof.
  intros Hs H0 Hz (n & Hn & Hr & Hd). exists n. split; [lia|]. split; [|done].
  unfold nth_record, nth_record_from in Hr. unfold scan_record_from.
  destruct (record_offset_from data 0 n) as [c|] eqn:Hc; [|discriminate].
  by rewrite (layout_follows_scan _ _ _ _ _ _ _ Hs H0 Hz Hc Hr).
Qed.

Lemma scan_reach_trans file a b c :
  scan_reach file a b → scan_reach file b c → scan_reach file a c.
Proof.
  induction 1 as [d data e Hs Hl | d data x e Hs Hl Hr IH]; intros H.
  - eapply scan_reach_below; eauto.
  - eapply scan_reach_below; eauto.
Qed.

(** A walk that returns has scanned, to a zero byte, the sector of its
    directory and of every directory it came to. *)
Lemma walk_scans fuel :
  (∀ s d out r s',
      walk_dirs fuel s d out = Some (Ok (r, s')) →
      ∀ d', d' = d ∨ scan_reach (content s) d d' →
            ∃ data n c, sector_of (content s) d' = Some data
                        ∧ cursor_from data 0 n = Some c ∧ getitem data c = Ok 0)
  ∧
  (∀ s data idx i out r s',
      walk_dirs_loop fuel s data idx i out = Some (Ok (r, s')) →
      ∀ x d', scan_listed_from data idx i x →
              d' = x ∨ scan_reach (content s) x d' →
              ∃ data' n c, sector_of (content s) d' = Some data'
                           ∧ cursor_from data' 0 n = Some c ∧ getitem data' c = Ok 0).
Proof.
  induction fuel as [|fuel [IHw IHl]]; [split; intros; discriminate|].
  split.
  - intros s d out r s'. rewrite walk_dirs_eq. cbn zeta. unfold lift.
    destruct (seek s (extent d * 0x800)) as [s1|] eqn:Hseek; [|discriminate].
    cbn [bindF].
    destruct (read s1 0x800) as [[data s2]|] eqn:Hread; [|discriminate].
    cbn [bindF]. intros H d' Hd'.
    destruct (enter_sector _ _ _ _ _ Hseek Hread) as [Hsec Hc].
    destruct Hd' as [->|Hr].
    + destruct (walk_dirs_loop_ends_at_zero _ _ _ _ _ _ _ H) as (n & c & Hn & Hz).
      by exists data, n, c.
    + apply (scan_reach_iff _ _ _ _ Hsec) in Hr as (x & Hl & Hx).
      rewrite <- Hc. eapply IHl; [exact H|exact Hl|]. by rewrite Hc.
  - intros s data idx i out r s'. rewrite walk_dirs_loop_eq. unfold lift.
    destruct (getitem data idx) as [b|] eqn:Hg; [|discriminate]. cbn [bindF].
    destruct (b =? 0) eqn:Hb.
    { intros _ x d' Hl _. exfalso. revert Hl. apply scan_listed_from_stop.
      unfold record_at. by rewrite Hg, Hb. }
    destruct (DirEntry_init data idx) as [entry|] eqn:Hd; [|discriminate]. cbn [bindF].
    assert (Hrec : record_at data idx = Some entry).
    { unfold record_at. by rewrite Hg, Hb, Hd. }
    destruct (negb (Z.land (flags entry) 2 =? 0) && (2 <=? i)) eqn:Hc.
    + cbn zeta.
      destruct (walk_dirs fuel s entry (Some (out ++ [entry]))) as [[[cr s1]|]|] eqn:Hw;
        [|discriminate|discriminate].
      cbn [bindF].
      assert (Hne : match out ++ [entry] with [] => out ++ [entry] | _ => cr end = cr).
      { destruct out; reflexivity. }
      rewrite Hne. intros H x d' Hl Hx.
      destruct (walk_spec fuel) as [Hws _]. pose proof (Hws _ _ _ _ _ Hw) as [Hc1 _].
      apply (scan_listed_from_step _ _ _ _ _ Hrec) in Hl as [(_ & -> & _)|Hl].
      * eapply IHw; eauto.
      * rewrite <- Hc1. eapply IHl; [exact H|exact Hl|]. by rewrite Hc1.
    + intros H x d' Hl Hx.
      apply (scan_listed_from_step _ _ _ _ _ Hrec) in Hl as [(Hi & -> & Hdir)|Hl].
      * exfalso. unfold is_dir in Hdir. rewrite Hdir in Hc. simpl in Hc.
        apply Z.leb_gt in Hc. lia.
      * eapply IHl; eauto.
Qed.

Section ShortSectors.

Context (file : bytes) (root : DirEntry).

(** The sectors of the root and of the directories the walk comes to
    hold short records only, and the walk has scanned each to a zero
    byte. *)
Hypothesis Hshort :
  ∀ d data, d = root ∨ scan_reach file root d → sector_of file d = Some data →
            short_records data.
Hypothesis Hscanned :
  ∀ d, d = root ∨ scan_reach file root d →
       ∃ data n c, sector_of file d = Some data
                   ∧ cursor_from data 0 n = Some c ∧ getitem data c = Ok 0.

Lemma scan_reach_is_reach d e :
  d = root ∨ scan_reach file root d → scan_reach file d e → reach file d e.
Proof.
  intros Hd H. induction H as [d data e Hs Hl | d data x e Hs Hl Hr IH].
  - eapply reach_child; [exact Hs|]. eapply scan_listed_is_listed; eauto.
  - eapply reach_below; [exact Hs| |].
    + eapply scan_listed_is_listed; eauto.
    + apply IH. right. destruct Hd as [->|Hd].
      * eapply scan_reach_child; eauto.
      * eapply scan_reach_trans; [exact Hd|]. eapply scan_reach_child; eauto.
Qed.

Lemma reach_is_scan_reach d e :
  d = root ∨ scan_reach file root d → reach file d e → scan_reach file d e.
Proof.
  intros Hd H. induction H as [d data e Hs Hl | d data x e Hs Hl Hr IH].
  - destruct (Hscanned d Hd) as (data' & n & c & Hs' & Hn & Hz).
    rewrite Hs in Hs'. injection Hs' as <-.
    eapply scan_reach_child; [exact Hs|]. eapply listed_is_scan_listed; eauto.
  - destruct (Hscanned d Hd) as (data' & n & c & Hs' & Hn & Hz).
    rewrite Hs in Hs'. injection Hs' as <-.
    assert (Hx : scan_listed data x) by (eapply listed_is_scan_listed; eauto).
    eapply scan_reach_below; [exact Hs|exact Hx|].
    apply IH. right. destruct Hd as [->|Hd].
    + eapply scan_reach_child; eauto.
    + eapply scan_reach_trans; [exact Hd|]. eapply scan_reach_child; eauto.
Qed.

End ShortSectors.

(** In sectors of short records, the walk returns the directory records
    below its directory, and nothing else. *)
Lemma walk_dirs_reach fuel s root out s' :
  walk_dirs fuel s root None = Some (Ok (out, s')) →
  (∀ d data, d = root ∨ In d out → sector_of (content s) d = Some data →
             short_records data) →
  ∀ e, In e out ↔ reach (content s) root e.
Proof.
  intros H Hshort.
  destruct (walk_spec fuel) as [Hw _]. pose proof (Hw _ _ _ _ _ H) as [_ Hin].
  assert (Hin' : ∀ e, In e out ↔ scan_reach (content s) root e).
  { intros e. rewrite Hin. simpl. tauto. }
  destruct (walk_scans fuel) as [Hsc _]. pose proof (Hsc _ _ _ _ _ H) as Hscanned.
  assert (Hshort' : ∀ d data, d = root ∨ scan_reach (content s) root d →
                              sector_of (content s) d = Some data → short_records data).
  { intros d data [->|Hd]; apply Hshort; [by left|right; by apply Hin']. }
  intros e. rewrite Hin'. split.
  - apply (scan_reach_is_reach _ root Hshort'). by left.
  - apply (reach_is_scan_reach _ _ Hshort' Hscanned); by left.
Qed.

(** A sector that passes the check holds short records only. *)
Lemma short_sector_checked file d data fuel :
  sector_of file d = Some data →
  match sector_of file d with
  | Some x => short_records_check fuel x 0
  | None => false
  end = true →
  short_records data.
Proof. intros ->. apply short_records_check_sound. Qed.

End IsoFacts.

(** ** Facts about umdb_gen_submission.py *)

Module SubmissionFacts.

Import Submission Spec Fixtures PyFacts.

Lemma append_cons c (a b : string) : (String c a +:+ b = String c (a +:+ b))%string.
Proof. reflexivity. Qed.

Lemma append_nil (b : string) : (EmptyString +:+ b = b)%string.
Proof. reflexivity. Qed.

Section Strip.

Context (p : ascii → bool).

Lemma lstrip_with_spec s :
  ∃ lead, s = (lead +:+ lstrip_with p s)%string ∧ all_chars p lead = true
          ∧ ∀ c, first_char (lstrip_with p s) = Some c → p c = false.
Proof.
  induction s as [|c s (lead & Hs & Hl & Hf)]; simpl.
  - exists EmptyString. done.
  - destruct (p c) eqn:Hc.
    + exists (String c lead). rewrite append_cons. simpl. rewrite Hc, Hl.
      split; [by f_equal|done].
    + exists EmptyString. rewrite append_nil. simpl.
      split; [done|]. split; [done|]. by intros ? [= <-].
Qed.

Lemma rstrip_with_spec s :
  ∃ trail, s = (rstrip_with p s +:+ trail)%string ∧ all_chars p trail = true
           ∧ ∀ c, last_char (rstrip_with p s) = Some c → p c = false.
Proof.
  induction s as [|c s (trail & Hs & Hl & Hf)]; simpl.
  - exists EmptyString. done.
  - destruct (rstrip_with p s) as [|c' t] eqn:Hr.
    + rewrite append_nil in Hs. destruct (p c) eqn:Hc.
      * exists (String c trail). rewrite append_nil. simpl. rewrite Hc, Hl.
        split; [by f_equal|done].
      * exists trail. rewrite append_cons, append_nil. split; [by f_equal|].
        split; [done|]. simpl. by intros ? [= <-].
    + exists trail. rewrite append_cons. split; [by f_equal|]. split; [done|].
      exact Hf.
Qed.

(** Stripping at the right keeps a first character that is not
    stripped. *)
Lemma rstrip_with_first s c :
  first_char s = Some c → p c = false → first_char (rstrip_with p s) = Some c.
Proof.
  destruct s as [|c' s]; simpl; [done|]. intros [= ->] Hc.
  destruct (rstrip_with p s); [by rewrite Hc|done].
Qed.

Lemma rstrip_with_empty s : first_char s = None → rstrip_with p s = EmptyString.
Proof. by destruct s. Qed.

End Strip.

(** [strip] removes whitespace from the two ends and nothing else. *)
Lemma strip_spec s :
  ∃ lead trail, s = (lead +:+ strip s +:+ trail)%string
                ∧ all_chars isspace lead = true ∧ all_chars isspace trail = true
                ∧ trimmed isspace (strip s).
Proof.
  unfold strip.
  destruct (lstrip_with_spec isspace s) as (lead & Hs & Hl & Hf).
  destruct (rstrip_with_spec isspace (lstrip_with isspace s)) as (trail & Ht & Htl & Hlast).
  exists lead, trail. split; [|split; [done|split; [done|]]].
  - rewrite Hs at 1. by rewrite Ht at 1.
  - split; [|done]. intros c Hc.
    destruct (first_char (lstrip_with isspace s)) as [c0|] eqn:E.
    + pose proof (Hf c0 eq_refl) as Hc0.
      rewrite (rstrip_with_first _ _ _ E Hc0) in Hc. by injection Hc as <-.
    + by rewrite (rstrip_with_empty _ _ E) in Hc.
Qed.

Lemma len_nonneg (l : bytes) : 0 ≤ len l.
Proof. unfold len. lia. Qed.

Lemma clip_nonneg n i : 0 ≤ i → clip n i = Z.min i n.
Proof. intros H. unfold clip. destruct (Z.ltb_spec i 0); [lia|done]. Qed.

(** A slice with bounds that are not negative is cut at the end of the
    sequence. *)
Lemma slice_clipped raw a b :
  0 ≤ a → 0 ≤ b →
  slice raw a b
  = take (Z.to_nat (Z.min b (len raw) - Z.min a (len raw)))
         (drop (Z.to_nat (Z.min a (len raw))) raw).
Proof. intros Ha Hb. unfold slice. by rewrite !clip_nonneg. Qed.

Lemma len_slice raw a b :
  0 ≤ a → a ≤ b → len (slice raw a b) = Z.min b (len raw) - Z.min a (len raw).
Proof.
  intros Ha Hb. rewrite slice_clipped by lia. unfold len.
  rewrite length_take, length_drop. lia.
Qed.

Lemma slice_inside raw a b :
  0 ≤ a → a ≤ b → b ≤ len raw →
  slice raw a b = take (Z.to_nat (b - a)) (drop (Z.to_nat a) raw).
Proof.
  intros Ha Hab Hb. rewrite slice_clipped by lia.
  by rewrite !Z.min_l by lia.
Qed.

(** A slice that begins at or after the end of the sequence is empty. *)
Lemma slice_outside raw a b : len raw ≤ a → slice raw a b = [].
Proof.
  intros Ha. pose proof (len_nonneg raw) as Hn. unfold slice.
  assert (Hb : clip (len raw) b ≤ len raw).
  { unfold clip. destruct (Z.ltb_spec b 0); lia. }
  rewrite (clip_nonneg _ a) by lia. rewrite Z.min_r by lia.
  replace (Z.to_nat (clip (len raw) b - len raw)) with 0%nat by lia.
  reflexivity.
Qed.

Lemma int_from_bytes_little_range bs :
  0 ≤ int_from_bytes_little bs < 256 ^ len bs.
Proof.
  unfold len. induction bs as [|b bs IH]; simpl; [lia|].
  pose proof (b2z_range b).
  replace (Z.of_nat (S (length bs))) with (1 + Z.of_nat (length bs)) by lia.
  rewrite Z.pow_add_r by lia. change (256 ^ 1) with 256.
  fold (int_from_bytes_little bs). nia.
Qed.

Lemma unpack_inv size buf w : unpack size buf = Ok w → w = buf ∧ len buf = size.
Proof.
  unfold unpack. destruct (Z.eqb_spec (len buf) size); [|discriminate].
  by intros [= <-].
Qed.

Section ForRange.

Context {St : Type} (body : nat → St → result St).

Lemma for_range_invariant (P : St → Prop) :
  (∀ i s s', body i s = Ok s' → P s → P s') →
  ∀ n i s s', for_range n i body s = Ok s' → P s → P s'.
Proof.
  intros Hstep. induction n as [|n IH]; intros i s s'; simpl.
  - by intros [= <-].
  - destruct (body i s) as [s1|] eqn:Hb; [|discriminate]. cbn [bind].
    intros H Hs. eapply IH; eauto.
Qed.

(** A loop that returns has run its last pass. *)
Lemma for_range_last n :
  ∀ i s s', for_range (S n) i body s = Ok s' →
            ∃ s1 s2, body (i + n)%nat s1 = Ok s2.
Proof.
  induction n as [|n IH]; intros i s s' H.
  - simpl in H. destruct (body i s) as [s1|] eqn:Hb; [|discriminate].
    exists s, s1. by rewrite Nat.add_0_r.
  - change (for_range (S (S n)) i body s)
      with (let* s1 := body i s in for_range (S n) (S i) body s1) in H.
    destruct (body i s) as [s1|]; [|discriminate]. cbn [bind] in H.
    apply IH in H as (s2 & s3 & H). exists s2, s3.
    by replace (i + S n)%nat with (S i + n)%nat by lia.
Qed.

End ForRange.

(** [_read_entry] changes the dictionary only. *)
Lemma read_entry_fields self raw i self' :
  _read_entry self raw i = Ok self' →
  version self' = version self ∧ key_table_start self' = key_table_start self
  ∧ data_table_start self' = data_table_start self
  ∧ table_entries self' = table_entries self ∧ idx_table self' = idx_table self.
Proof.
  unfold _read_entry.
  destruct (list_getitem (idx_table self) i) as [entry|]; [|discriminate]. cbn [bind].
  destruct (if _ =? _ then _ else _) as [k_end|]; [|discriminate]. cbn [bind].
  destruct (decode_utf8 _) as [key|]; [|discriminate]. cbn [bind].
  destruct (match data_fmt entry with INT32 => _ | _ => _ end) as [v|]; [|discriminate].
  cbn [bind]. by intros [= <-].
Qed.

(** The parts of [SFO.__init__]. *)
Lemma SFO_init_inv raw sfo :
  SFO_init raw = Ok sfo →
  ∃ minor major header,
    b2z <$> slice raw 0 0x4 = [0x00; 0x50; 0x53; 0x46]
    ∧ unpack 4 (slice raw 0x5 0x8 ++ [x00]) = Ok minor
    ∧ getitem raw 0x04 = Ok major
    ∧ unpack 12 (slice raw 0x08 0x14) = Ok header
    ∧ version sfo = (str_of_int major +:+ "." +:+ str_of_int (fmt_I minor 0))%string
    ∧ key_table_start sfo = fmt_I header 0
    ∧ data_table_start sfo = fmt_I header 4
    ∧ table_entries sfo = fmt_I header 8
    ∧ for_range (Z.to_nat (fmt_I header 8)) 0
        (λ idx tbl,
           let* e := SFOIndexTableEntry_init raw (0x14 + Z.of_nat idx * 0x10) in
           Ok (tbl ++ [e]))
        [] = Ok (idx_table sfo).
Proof.
  unfold SFO_init.
  destruct (decide (b2z <$> slice raw 0 4 = [0; 80; 83; 70])) as [Hsig|]; [|discriminate].
  cbn [bind].
  destruct (unpack 4 (slice raw 5 8 ++ [x00])) as [minor|] eqn:Hminor; [|discriminate].
  cbn [bind].
  destruct (getitem raw 4) as [major|] eqn:Hmajor; [|discriminate]. cbn [bind].
  destruct (unpack 12 (slice raw 8 20)) as [header|] eqn:Hheader; [|discriminate].
  cbn [bind].
  destruct (for_range (Z.to_nat (fmt_I header 8)) 0 _ []) as [tbl|] eqn:Htbl;
    [|discriminate].
  cbn [bind]. intros H. exists minor, major, header.
  split; [done|]. split; [done|]. split; [done|]. split; [done|].
  rewrite Htbl.
  set (P := λ s : SFO,
         version s = (str_of_int major +:+ "." +:+ str_of_int (fmt_I minor 0))%string
         ∧ key_table_start s = fmt_I header 0 ∧ data_table_start s = fmt_I header 4
         ∧ table_entries s = fmt_I header 8 ∧ Ok tbl = Ok (idx_table s)).
  change (P sfo).
  refine (for_range_invariant _ P _ _ _ _ _ H _).
  - intros i s s' Hr. unfold P.
    apply read_entry_fields in Hr as (-> & -> & -> & -> & ->). done.
  - unfold P. simpl. done.
Qed.


Lemma list_getitem_inv {A : Type} (l : list A) (i : nat) (a : A) :
  list_getitem l i = Ok a ↔ l !! i = Some a.
Proof.
  unfold list_getitem. destruct (l !! i); split; intros H; try discriminate;
    by injection H as ->.
Qed.

(** What [_read_entry] stores: one key, the text of the key span, with
    the integer of the data span for the format Int32 and its text for
    the two others. *)
Lemma read_entry_inv self raw idx entry self' :
  _read_entry self raw idx = Ok self' →
  idx_table self !! idx = Some entry →
  let k_start := key_table_start self + key_offset entry in
  let d_start := data_table_start self + data_offset entry in
  let d_end := d_start + data_len entry in
  ∃ key v,
    data self' = <[key := v]> (data self)
    ∧ (∃ k_end text, decode_utf8 (slice raw k_start k_end) = Ok text
                     ∧ key = rstrip_nul text)
    ∧ (data_fmt entry = INT32 →
       v = VInt (int_from_bytes_little (slice raw d_start d_end)))
    ∧ (data_fmt entry ≠ INT32 →
       ∃ text, decode_utf8 (slice raw d_start d_end) = Ok text
               ∧ v = VStr (rstrip_nul text)).
Proof.
  unfold _read_entry. intros H He. apply list_getitem_inv in He. rewrite He in H.
  cbn [bind] in H.
  destruct (if _ =? _ then _ else _) as [k_end|]; [|discriminate]. cbn [bind] in H.
  destruct (decode_utf8 (slice raw _ k_end)) as [key|] eqn:Hk; [|discriminate].
  cbn [bind] in H. cbn zeta.
  assert (Hkey : ∃ k_end text,
             decode_utf8 (slice raw (key_table_start self + key_offset entry) k_end)
             = Ok text ∧ rstrip_nul key = rstrip_nul text) by (by exists k_end, key).
  destruct (data_fmt entry) eqn:Hf.
  - destruct (decode_utf8 (slice raw (data_table_start self + data_offset entry) _))
      as [text|] eqn:Ht; [|discriminate].
    cbn [bind] in H.
    injection H as <-. exists (rstrip_nul key), (VStr (rstrip_nul text)).
    split; [done|]. split; [done|]. split; [done|]. intros _. by exists text.
  - destruct (decode_utf8 (slice raw (data_table_start self + data_offset entry) _))
      as [text|] eqn:Ht; [|discriminate].
    cbn [bind] in H.
    injection H as <-. exists (rstrip_nul key), (VStr (rstrip_nul text)).
    split; [done|]. split; [done|]. split; [done|]. intros _. by exists text.
  - cbn [bind] in H. injection H as <-.
    exists (rstrip_nul key), (VInt (int_from_bytes_little
      (slice raw (data_table_start self + data_offset entry)
         (data_table_start self + data_offset entry + data_len entry)))).
    split; [done|]. split; [done|]. done.
Qed.

Lemma entry_init_inside raw offset e :
  0 ≤ offset → SFOIndexTableEntry_init raw offset = Ok e → offset + 0x10 ≤ len raw.
Proof.
  unfold SFOIndexTableEntry_init. intros Ho H.
  destruct (unpack 16 (slice raw offset (offset + 16))) as [w|] eqn:Hu; [|discriminate].
  apply unpack_inv in Hu as [_ Hl]. rewrite len_slice in Hl by lia. lia.
Qed.

End SubmissionFacts.


(** ** Facts about the decoders and the loops *)

Module RecordFacts.

Import IsoParser Submission Spec Fixtures PyFacts IsoFacts SubmissionFacts.

Lemma unpack_from_inv size raw offset w :
  0 ≤ size → unpack_from size raw offset = Ok w →
  len w = size
  ∧ (0 ≤ offset → offset + size ≤ len raw
                  ∧ w = take (Z.to_nat size) (drop (Z.to_nat offset) raw)).
Proof.
  unfold unpack_from. intros Hs.
  set (off := if offset <? 0 then offset + len raw else offset).
  destruct (Z.leb_spec 0 off); [|discriminate].
  destruct (Z.leb_spec (off + size) (len raw)); [|discriminate].
  simpl. intros [= <-]. split.
  - rewrite len_take_drop. unfold len in *. lia.
  - intros Ho. unfold off in *. destruct (Z.ltb_spec offset 0); [lia|]. done.
Qed.

Lemma unpack_from_ok size raw offset :
  0 ≤ offset → 0 ≤ size → offset + size ≤ len raw →
  unpack_from size raw offset = Ok (take (Z.to_nat size) (drop (Z.to_nat offset) raw)).
Proof.
  intros Ho Hs Hl. unfold unpack_from.
  destruct (Z.ltb_spec offset 0); [lia|].
  destruct (Z.leb_spec 0 offset); [|lia].
  destruct (Z.leb_spec (offset + size) (len raw)); [|lia]. done.
Qed.

Lemma unpack_from_short size raw offset :
  0 ≤ offset → len raw < offset + size → unpack_from size raw offset = Raise StructError.
Proof.
  intros Ho Hl. unfold unpack_from.
  destruct (Z.ltb_spec offset 0); [lia|].
  destruct (Z.leb_spec (offset + size) (len raw)); [lia|]. by rewrite andb_false_r.
Qed.

Lemma decode_ascii_inv bs s :
  decode_ascii bs = Ok s →
  s = string_of_list_byte bs ∧ forallb (λ b, b2z b <? 128) bs = true.
Proof.
  unfold decode_ascii. destruct (forallb _ bs); [|discriminate]. by intros [= <-].
Qed.

Lemma length_string_of_list_byte (bs : bytes) :
  String.length (string_of_list_byte bs) = length bs.
Proof.
  unfold string_of_list_byte. induction bs as [|b bs IH]; simpl; [done|]. by rewrite IH.
Qed.

Lemma len_field w off n : 0 ≤ len (field w off n) ≤ Z.of_nat n.
Proof. unfold field, len. rewrite length_take. lia. Qed.

Lemma to_signed_range bits u :
  0 < bits → 0 ≤ u < 2 ^ bits →
  - 2 ^ (bits - 1) ≤ to_signed bits u < 2 ^ (bits - 1).
Proof.
  intros Hb Hu. unfold to_signed.
  assert (E : 2 ^ bits = 2 * 2 ^ (bits - 1)).
  { replace bits with (1 + (bits - 1)) at 1 by lia. rewrite Z.pow_add_r by lia. done. }
  destruct (Z.ltb_spec u (2 ^ (bits - 1))); lia.
Qed.

Lemma pow256_mono a b : 0 ≤ a ≤ b → 256 ^ a ≤ 256 ^ b.
Proof. intros H. apply Z.pow_le_mono_r; lia. Qed.

Lemma int_field_range w off n :
  0 ≤ int_from_bytes_little (field w off n) < 256 ^ Z.of_nat n.
Proof.
  pose proof (int_from_bytes_little_range (field w off n)) as Hr.
  pose proof (len_field w off n) as Hl.
  pose proof (pow256_mono _ _ Hl). lia.
Qed.

Lemma fmt_b_range w off : -128 ≤ fmt_b w off < 128.
Proof.
  unfold fmt_b, fmt_B. pose proof (int_field_range w off 1) as H.
  change (256 ^ Z.of_nat 1) with (2 ^ 8) in H.
  apply (to_signed_range 8) in H; [|lia]. exact H.
Qed.

Lemma fmt_h_range w off : -32768 ≤ fmt_h w off < 32768.
Proof.
  unfold fmt_h, fmt_H. pose proof (int_field_range w off 2) as H.
  change (256 ^ Z.of_nat 2) with (2 ^ 16) in H.
  apply (to_signed_range 16) in H; [|lia]. exact H.
Qed.

Lemma fmt_i_range w off : - 2 ^ 31 ≤ fmt_i w off < 2 ^ 31.
Proof.
  unfold fmt_i, fmt_I. pose proof (int_field_range w off 4) as H.
  change (256 ^ Z.of_nat 4) with (2 ^ 32) in H.
  apply (to_signed_range 32) in H; [|lia]. exact H.
Qed.

Lemma fmt_H_range w off : 0 ≤ fmt_H w off < 2 ^ 16.
Proof. unfold fmt_H. apply (int_field_range w off 2). Qed.

Lemma fmt_I_range w off : 0 ≤ fmt_I w off < 2 ^ 32.
Proof. unfold fmt_I. apply (int_field_range w off 4). Qed.

(** The parts of [DirEntry.__init__]. *)
Lemma DirEntry_init_inv raw offset e :
  DirEntry_init raw offset = Ok e →
  ∃ header raw_name,
    unpack_from 33 raw offset = Ok header
    ∧ 0 ≤ fmt_b header 32
    ∧ unpack_from (fmt_b header 32) raw (offset + 0x21) = Ok raw_name
    ∧ decode_ascii raw_name = Ok (name e)
    ∧ length_ e = fmt_b header 0 ∧ ext_length e = fmt_b header 1
    ∧ extent e = fmt_i header 2 ∧ data_length e = fmt_i header 10
    ∧ datetime e = field header 18 7 ∧ flags e = fmt_b header 25
    ∧ unit_size e = fmt_b header 26 ∧ interleave_size e = fmt_b header 27
    ∧ seqnum e = fmt_h header 28 ∧ name_len e = fmt_b header 32.
Proof.
  unfold DirEntry_init. intros H.
  destruct (unpack_from 33 raw offset) as [header|] eqn:Hh; [|discriminate].
  cbn [bind] in H.
  destruct (Z.ltb_spec (fmt_b header 32) 0); [discriminate|].
  destruct (unpack_from (fmt_b header 32) raw (offset + 33)) as [raw_name|] eqn:Hn;
    [|discriminate].
  cbn [bind] in H. destruct (decode_ascii raw_name) as [nm|] eqn:Ha; [|discriminate].
  cbn [bind] in H. injection H as <-. exists header, raw_name.
  split_conj; done.
Qed.

(** A field of a window is a run of bytes of the buffer. *)
(** A header that does not fit in the buffer is refused. *)
Lemma DirEntry_init_short raw offset :
  0 ≤ offset → len raw < offset + 33 → DirEntry_init raw offset = Raise StructError.
Proof.
  intros Ho Hs. unfold DirEntry_init. by rewrite unpack_from_short by lia.
Qed.

(** A record that is decoded lies in the buffer. *)
Lemma DirEntry_init_fits raw offset e :
  DirEntry_init raw offset = Ok e → 0 ≤ offset →
  offset + 33 + name_len e ≤ len raw.
Proof.
  intros H Ho.
  apply DirEntry_init_inv in H
    as (header & raw_name & Hh & Hn0 & Hn & Ha & _ & _ & _ & _ & _ & _ & _ & _ & _ & ->).
  apply unpack_from_inv in Hn as [_ Hn2]; [|lia].
  destruct Hn2 as [Hfit _]; lia.
Qed.

Lemma field_window (raw : bytes) (off n k m : nat) :
  (k + m ≤ n)%nat →
  field (take n (drop off raw)) k m = take m (drop (off + k) raw).
Proof.
  intros H. unfold field. rewrite skipn_firstn_comm, drop_drop, take_take.
  f_equal. lia.
Qed.

Lemma take_1_drop (raw : bytes) (j : nat) :
  (j < length raw)%nat → take 1 (drop j raw) = [nth j raw x00].
Proof.
  revert j. induction raw as [|x raw IH]; intros j H; simpl in H; [lia|].
  destruct j as [|j]; [reflexivity|]. simpl. apply IH. lia.
Qed.

Lemma getitem_inside raw i :
  0 ≤ i < len raw → getitem raw i = Ok (b2z (nth (Z.to_nat i) raw x00)).
Proof.
  intros H. unfold getitem. destruct (Z.ltb_spec i 0); [lia|].
  destruct (Z.leb_spec 0 i); [|lia]. destruct (Z.ltb_spec i (len raw)); [|lia]. done.
Qed.

(** An unsigned byte of a window is the byte of the buffer at the same
    place. *)
Lemma fmt_B_window (raw : bytes) (off n k : nat) b :
  (k < n)%nat → getitem raw (Z.of_nat (off + k)) = Ok b →
  fmt_B (take n (drop off raw)) k = b.
Proof.
  intros Hk Hg. unfold fmt_B. rewrite field_window by lia.
  unfold getitem in Hg. destruct (Z.ltb_spec (Z.of_nat (off + k)) 0); [lia|].
  destruct (Z.leb_spec 0 (Z.of_nat (off + k))); [|lia].
  destruct (Z.ltb_spec (Z.of_nat (off + k)) (len raw)); [|discriminate].
  simpl in Hg. injection Hg as <-. rewrite Nat2Z.id.
  rewrite take_1_drop by (unfold len in *; lia). simpl. lia.
Qed.

Lemma PathTableEntry_init_inv raw offset e :
  PathTableEntry_init raw offset = Ok e →
  ∃ w, unpack_from 8 raw offset = Ok w ∧ pt_len e = fmt_b w 0.
Proof.
  unfold PathTableEntry_init. intros H.
  destruct (unpack_from 8 raw offset) as [w|] eqn:Hw; [|discriminate]. cbn [bind] in H.
  destruct (decode_ascii _); [|discriminate]. cbn [bind] in H. injection H as <-.
  by exists w.
Qed.

Lemma unpack_from_getitem size raw offset w :
  0 < size → unpack_from size raw offset = Ok w → ∃ b, getitem raw offset = Ok b.
Proof.
  unfold unpack_from, getitem. intros Hs.
  set (off := if offset <? 0 then offset + len raw else offset). clearbody off.
  destruct (Z.leb_spec 0 off); [|discriminate].
  destruct (Z.leb_spec (off + size) (len raw)); [|discriminate]. intros _.
  destruct (Z.ltb_spec off (len raw)); [|lia]. eauto.
Qed.

Lemma getitem_forallb (p : byte → bool) raw i b :
  forallb p raw = true → getitem raw i = Ok b → ∃ x, b = b2z x ∧ p x = true.
Proof.
  intros Hall. unfold getitem.
  set (j := if i <? 0 then i + len raw else i). clearbody j.
  destruct (Z.leb_spec 0 j); [|discriminate].
  destruct (Z.ltb_spec j (len raw)); [|discriminate]. simpl. intros [= <-].
  eexists. split; [reflexivity|].
  rewrite forallb_forall in Hall. apply Hall, nth_In. unfold len in *. lia.
Qed.

(** In a table with no byte of 0x80 or more, an entry that decodes has a
    name length that is not negative. *)
Lemma pt_len_nonneg data idx e :
  forallb (λ b, b2z b <? 128) data = true →
  PathTableEntry_init data idx = Ok e → 0 ≤ pt_len e < 128.
Proof.
  intros Hall He. apply PathTableEntry_init_inv in He as (w & Hw & ->).
  destruct (unpack_from_getitem 8 _ _ _ ltac:(lia) Hw) as [b Hb].
  unfold fmt_b. rewrite (getitem_unpack_from data idx b 7 w Hb Hw).
  destruct (getitem_forallb _ _ _ _ Hall Hb) as (x & -> & Hx).
  apply Z.ltb_lt in Hx. pose proof (b2z_range x). rewrite to_signed_8_small; lia.
Qed.

Lemma decode_ascii_forallb (p := λ b, b2z b <? 128) data a b :
  forallb p data = true → ∃ s, decode_ascii (slice data a b) = Ok s.
Proof.
  intros Hall. unfold decode_ascii.
  assert (H : forallb p (slice data a b) = true).
  { rewrite forallb_forall in *. intros x Hx. apply Hall. unfold slice in Hx.
    apply list_elem_of_In in Hx. apply list_elem_of_In.
    by apply subseteq_take, subseteq_drop in Hx. }
  unfold p in H. rewrite H. eauto.
Qed.

Lemma read_content f n data f' : read f n = Ok (data, f') → content f' = content f.
Proof. unfold read. destruct (n <? -1); [discriminate|]. by intros [= _ <-]. Qed.

Lemma seek_content f n f' : seek f n = Ok f' → content f' = content f.
Proof. unfold seek. destruct (n <? 0); [discriminate|]. by intros [= <-]. Qed.

(** The scan leaves the content of the file as it is. *)
Lemma pvd_scan_content {A : Type} (on_pvd : bytes → result A) f a f' :
  pvd_scan on_pvd f = Some (Ok (a, f')) → content f' = content f.
Proof.
  unfold pvd_scan. rewrite pvd_scan_enter. unfold lift.
  destruct (read _ 2048) as [[raw f1]|] eqn:Hr; [|discriminate]. cbn [bindF].
  apply read_content in Hr. simpl in Hr.
  generalize (S (S (length (content f)))). intros fuel. revert raw f1 Hr.
  induction fuel as [|fuel IH]; intros raw f1 Hc; [discriminate|].
  rewrite pvd_scan_loop_eq. unfold lift.
  destruct (getitem raw 0) as [t|]; [|discriminate]. cbn [bindF].
  destruct (negb (t =? 255)); [|discriminate].
  destruct (t =? 1).
  - destruct (on_pvd raw); [|discriminate]. cbn [bindF]. by intros [= _ <-].
  - destruct (read f1 2048) as [[raw' f2]|] eqn:Hr; [|discriminate]. cbn [bindF].
    apply read_content in Hr. apply IH. congruence.
Qed.

(** A call of [walk_dirs] returns the list it works on with entries added
    at its end, and leaves the content of the file as it is. *)
Lemma get_pvd_header_content f header f' :
  get_pvd_header f = Some (Ok (header, f')) → content f' = content f.
Proof. unfold get_pvd_header. apply pvd_scan_content. Qed.

Lemma walk_extends fuel :
  (∀ s d out r s',
      walk_dirs fuel s d out = Some (Ok (r, s')) →
      content s' = content s ∧ ∃ l, r = norm_out out ++ l)
  ∧ (∀ s data idx i out r s',
       walk_dirs_loop fuel s data idx i out = Some (Ok (r, s')) →
       content s' = content s ∧ ∃ l, r = out ++ l).
Proof.
  induction fuel as [|fuel [IHw IHl]]; [split; intros; discriminate|].
  split.
  - intros s d out r s'. rewrite walk_dirs_eq. cbn zeta. unfold lift.
    destruct (seek s (extent d * 2048)) as [s1|] eqn:Hs; [|discriminate]. cbn [bindF].
    destruct (read s1 2048) as [[data s2]|] eqn:Hr; [|discriminate]. cbn [bindF].
    intros H. apply IHl in H as [Hc Hl]. apply seek_content in Hs.
    apply read_content in Hr. split; [congruence|done].
  - intros s data idx i out r s'. rewrite walk_dirs_loop_eq. unfold lift.
    destruct (getitem data idx) as [b|]; [|discriminate]. cbn [bindF].
    destruct (b =? 0).
    { intros [= <- <-]. split; [done|]. exists []. by rewrite app_nil_r. }
    destruct (DirEntry_init data idx) as [entry|]; [|discriminate]. cbn [bindF].
    destruct (negb (Z.land (flags entry) 2 =? 0) && (2 <=? i)).
    + cbn zeta.
      destruct (walk_dirs fuel s entry (Some (out ++ [entry]))) as [[[cr s1]|]|] eqn:Hw;
        [|discriminate..].
      cbn [bindF].
      assert (Hne : match out ++ [entry] with [] => out ++ [entry] | _ => cr end = cr)
        by (by destruct out).
      rewrite Hne. intros H. apply IHw in Hw as [Hc1 [l1 Hl1]].
      apply IHl in H as [Hc2 [l2 Hl2]]. split; [congruence|].
      assert (Hn : norm_out (Some (out ++ [entry])) = out ++ [entry]) by (by destruct out).
      rewrite Hn in Hl1. exists ([entry] ++ l1 ++ l2). rewrite Hl2, Hl1.
      by rewrite <- !app_assoc.
    + apply IHl.
Qed.

Section ForRangeIndexed.

Context {St : Type} (body : nat → St → result St).

(** An invariant of a loop that may depend on the index. *)
Lemma for_range_invariant_indexed (P : nat → St → Prop) :
  (∀ i s s', body i s = Ok s' → P i s → P (S i) s') →
  ∀ n i s s', for_range n i body s = Ok s' → P i s → P (i + n)%nat s'.
Proof.
  intros Hstep. induction n as [|n IH]; intros i s s'; simpl.
  - intros [= <-]. by rewrite Nat.add_0_r.
  - destruct (body i s) as [s1|] eqn:Hb; [|discriminate]. cbn [bind].
    intros H Hs. replace (i + S n)%nat with (S i + n)%nat by lia.
    eapply IH; eauto.
Qed.

(** A loop whose passes succeed up to the pass [k], which raises, raises
    the same exception. *)
Lemma for_range_raises (k : nat) e :
  ∀ n i s,
    (k < n)%nat →
    (∀ j s1, (j < k)%nat → ∃ s2, body (i + j)%nat s1 = Ok s2) →
    (∀ s1, body (i + k)%nat s1 = Raise e) →
    for_range n i body s = Raise e.
Proof.
  induction k as [|k IH]; intros n i s Hn Hok Hbad;
    (destruct n as [|n]; [lia|]); simpl.
  - specialize (Hbad s). rewrite Nat.add_0_r in Hbad. by rewrite Hbad.
  - destruct (Hok 0%nat s) as [s2 H2]; [lia|]. rewrite Nat.add_0_r in H2.
    rewrite H2. cbn [bind]. apply IH; [lia| |].
    + intros j s1 Hj. replace (S i + j)%nat with (i + S j)%nat by lia.
      apply Hok. lia.
    + intros s1. replace (S i + k)%nat with (i + S k)%nat by lia. apply Hbad.
Qed.

End ForRangeIndexed.

Lemma SFOIndexTableEntry_init_inv raw offset e :
  SFOIndexTableEntry_init raw offset = Ok e →
  ∃ fields,
    unpack 0x10 (slice raw offset (offset + 0x10)) = Ok fields
    ∧ SFODataFormat_of (fmt_H fields 2) = Ok (data_fmt e)
    ∧ key_offset e = fmt_H fields 0 ∧ data_len e = fmt_I fields 4
    ∧ data_max_len e = fmt_I fields 8 ∧ data_offset e = fmt_I fields 12.
Proof.
  unfold SFOIndexTableEntry_init. intros H.
  destruct (unpack 16 _) as [fields|] eqn:Hu; [|discriminate]. cbn [bind] in H.
  destruct (SFODataFormat_of _) as [fmt|] eqn:Hf; [|discriminate]. cbn [bind] in H.
  injection H as <-. by exists fields.
Qed.

Lemma unpack_ok size buf : len buf = size → unpack size buf = Ok buf.
Proof. intros H. unfold unpack. by rewrite H, Z.eqb_refl. Qed.

Lemma unpack_short size buf : len buf ≠ size → unpack size buf = Raise StructError.
Proof. intros H. unfold unpack. by destruct (Z.eqb_spec (len buf) size). Qed.

(** A field of a slice that lies in the buffer is a slice. *)
Lemma field_slice raw a b (k m : nat) :
  0 ≤ a → a ≤ b → b ≤ len raw → a + Z.of_nat (k + m) ≤ b →
  field (slice raw a b) k m = slice raw (a + Z.of_nat k) (a + Z.of_nat (k + m)).
Proof.
  intros Ha Hab Hb Hk. rewrite !slice_inside by lia.
  rewrite field_window by lia. f_equal; [lia|]. f_equal. lia.
Qed.

(** *** The spans of [_read_entry] *)

(** A slice with bounds that are not negative is the bytes of the buffer
    between them. *)
Lemma slice_between raw a b : 0 ≤ a → 0 ≤ b → slice raw a b = bytes_between raw a b.
Proof. intros Ha Hb. by rewrite slice_clipped. Qed.

Lemma len_bytes_between raw a n :
  0 ≤ a → 0 ≤ n →
  len (bytes_between raw a (a + n)) = Z.max 0 (Z.min n (len raw - a)).
Proof.
  intros Ha Hn. unfold bytes_between, len. rewrite length_take, length_drop. lia.
Qed.

Lemma bytes_between_outside raw a b : len raw ≤ a → bytes_between raw a b = [].
Proof.
  intros H. unfold bytes_between. pose proof (len_nonneg raw).
  rewrite (Z.min_r a) by lia.
  replace (Z.to_nat (Z.min b (len raw) - len raw)) with 0%nat by lia. done.
Qed.

Lemma bytes_between_inside raw a n :
  0 ≤ a → 0 ≤ n → a + n ≤ len raw →
  bytes_between raw a (a + n) = take (Z.to_nat n) (drop (Z.to_nat a) raw).
Proof.
  intros Ha Hn H. unfold bytes_between. rewrite !Z.min_l by lia. f_equal. lia.
Qed.

Lemma bytes_between_cut raw a b :
  0 ≤ a → len raw ≤ b → bytes_between raw a b = drop (Z.to_nat a) raw.
Proof.
  intros Ha H. unfold bytes_between. rewrite (Z.min_r b) by lia.
  destruct (Z.le_gt_cases a (len raw)).
  - rewrite Z.min_l by lia. apply take_ge. rewrite length_drop. unfold len in *. lia.
  - rewrite Z.min_r by lia. rewrite Z.sub_diag. simpl.
    symmetry. apply drop_ge. unfold len in *. lia.
Qed.

Lemma unsigned_fields_entry self idx entry :
  unsigned_fields self → idx_table self !! idx = Some entry →
  0 ≤ key_offset entry ∧ 0 ≤ data_len entry ∧ 0 ≤ data_offset entry.
Proof.
  intros (_ & _ & H) He. rewrite Forall_forall in H. apply H.
  by eapply list_elem_of_lookup_2.
Qed.

Lemma key_span_end_nonneg self idx : unsigned_fields self → 0 ≤ key_span_end self idx.
Proof.
  intros H. unfold key_span_end.
  destruct (idx_table self !! (idx + 1)%nat) as [next|] eqn:Hn.
  - destruct (unsigned_fields_entry _ _ _ H Hn) as (? & _). destruct H as (? & _). lia.
  - by destruct H as (_ & ? & _).
Qed.

(** A pass of the data loop, on an entry of the table: the two spans are
    the bytes of the buffer between their bounds, and nothing fails but
    the codec. *)
Lemma read_entry_outcome self raw idx entry :
  idx_table self !! idx = Some entry → unsigned_fields self →
  _read_entry self raw idx =
  (let k_start := key_table_start self + key_offset entry in
   let d_start := data_table_start self + data_offset entry in
   let* key_text := decode_utf8 (bytes_between raw k_start (key_span_end self idx)) in
   let* value :=
     (match data_fmt entry with
      | INT32 => Ok (VInt (int_from_bytes_little
                             (bytes_between raw d_start (d_start + data_len entry))))
      | _ => let* text := decode_utf8 (bytes_between raw d_start (d_start + data_len entry)) in
             Ok (VStr (rstrip_nul text))
      end) in
   Ok {| version := version self;
         key_table_start := key_table_start self;
         data_table_start := data_table_start self;
         table_entries := table_entries self;
         idx_table := idx_table self;
         data := <[rstrip_nul key_text := value]> (data self) |}).
Proof.
  intros He Hu. pose proof (lookup_lt_Some _ _ _ He) as Hlt.
  destruct (unsigned_fields_entry _ _ _ Hu He) as (Hk & Hl & Ho).
  pose proof (key_span_end_nonneg self idx Hu) as Hke.
  destruct Hu as (Hks & Hds & _).
  unfold _read_entry. rewrite (proj2 (list_getitem_inv _ _ _) He). cbn [bind].
  assert (Hend : (if Z.of_nat idx =? Z.of_nat (length (idx_table self)) - 1
                  then Ok (data_table_start self)
                  else let* next := list_getitem (idx_table self) (idx + 1) in
                       Ok (key_table_start self + key_offset next))
                 = Ok (key_span_end self idx)).
  { unfold key_span_end.
    destruct (Z.eqb_spec (Z.of_nat idx) (Z.of_nat (length (idx_table self)) - 1)).
    - rewrite lookup_ge_None_2 by lia. done.
    - destruct (lookup_lt_is_Some_2 (idx_table self) (idx + 1)) as [next Hn]; [lia|].
      rewrite (proj2 (list_getitem_inv _ _ _) Hn), Hn. done. }
  rewrite Hend. cbn [bind]. cbn zeta.
  rewrite !slice_between by lia. reflexivity.
Qed.

Lemma SFO_init_unsigned raw sfo : SFO_init raw = Ok sfo → unsigned_fields sfo.
Proof.
  intros H. apply SFO_init_inv in H
    as (minor & major & header & _ & _ & _ & _ & _ & Hk & Hd & _ & Htbl).
  unfold unsigned_fields. rewrite Hk, Hd.
  split; [apply int_from_bytes_little_range|].
  split; [apply int_from_bytes_little_range|].
  revert Htbl. generalize (idx_table sfo). intros tbl Htbl.
  refine (for_range_invariant _
            (Forall (λ e, 0 ≤ key_offset e ∧ 0 ≤ data_len e ∧ 0 ≤ data_offset e))
            _ _ _ _ _ Htbl (Forall_nil_2 _)).
  intros i s s' Hb Hs.
  destruct (SFOIndexTableEntry_init raw _) as [e|] eqn:He; [|discriminate].
  cbn [bind] in Hb. injection Hb as <-.
  apply Forall_app. split; [done|]. apply Forall_singleton.
  apply SFOIndexTableEntry_init_inv in He as (fields & _ & _ & -> & -> & _ & ->).
  pose proof (fmt_H_range fields 0). pose proof (fmt_I_range fields 4).
  pose proof (fmt_I_range fields 12). lia.
Qed.

End RecordFacts.

(** ** Facts about the report of umdb_gen_submission.py *)

Module ReportFacts.

Import IsoParser Submission Spec Fixtures PyFacts IsoFacts SubmissionFacts RecordFacts.

Section ForRangeRaise.

Context {St : Type} (body : nat → St → result St).

(** A loop that raises does so in one of its passes, from a state that
    an invariant of the passes before holds of. *)
Lemma for_range_raise_inv (P : nat → St → Prop) e :
  (∀ i s s', body i s = Ok s' → P i s → P (S i) s') →
  ∀ n i s, for_range n i body s = Raise e → P i s →
           ∃ j s1, (j < n)%nat ∧ P (i + j)%nat s1 ∧ body (i + j)%nat s1 = Raise e.
Proof.
  intros Hstep. induction n as [|n IH]; intros i s; simpl; [discriminate|].
  destruct (body i s) as [s1|e1] eqn:Hb; cbn [bind].
  - intros H Hs. destruct (IH (S i) s1 H (Hstep _ _ _ Hb Hs)) as (j & s2 & Hj & HP & Hr).
    exists (S j), s2. replace (i + S j)%nat with (S i + j)%nat by lia.
    split; [lia|done].
  - intros [= ->] Hs. exists 0%nat, s. rewrite Nat.add_0_r. split; [lia|done].
Qed.

End ForRangeRaise.

Lemma SFODataFormat_of_cases v :
  (v = 0x0004 ∧ SFODataFormat_of v = Ok UTF8_NOTERM)
  ∨ (v = 0x0204 ∧ SFODataFormat_of v = Ok UTF8)
  ∨ (v = 0x0404 ∧ SFODataFormat_of v = Ok INT32)
  ∨ (v ≠ 0x0004 ∧ v ≠ 0x0204 ∧ v ≠ 0x0404 ∧ SFODataFormat_of v = Raise ValueError).
Proof.
  unfold SFODataFormat_of.
  destruct (Z.eqb_spec v 4); [by left|].
  destruct (Z.eqb_spec v 516); [by right; left|].
  destruct (Z.eqb_spec v 1028); [by right; right; left|].
  by right; right; right.
Qed.

(** [SFOIndexTableEntry.__init__] raises nothing but the two errors of
    its two steps. *)
Lemma SFOIndexTableEntry_init_raises raw offset e :
  SFOIndexTableEntry_init raw offset = Raise e → e = StructError ∨ e = ValueError.
Proof.
  unfold SFOIndexTableEntry_init, unpack.
  destruct (_ =? _); cbn [bind]; [|intros [= <-]; by left].
  destruct (SFODataFormat_of_cases (fmt_H (slice raw offset (offset + 16)) 2))
    as [[_ ->]|[[_ ->]|[[_ ->]|(_ & _ & _ & ->)]]]; cbn [bind]; try discriminate.
  intros [= <-]. by right.
Qed.

(** The table loop of [SFO.__init__] appends one entry each pass. *)
Lemma idx_table_length raw n tbl :
  for_range n 0
    (λ idx tbl,
       let* e := SFOIndexTableEntry_init raw (0x14 + Z.of_nat idx * 0x10) in
       Ok (tbl ++ [e]))
    [] = Ok tbl →
  length tbl = n.
Proof.
  intros H.
  refine (for_range_invariant_indexed _ (λ i t, length t = i) _ _ _ _ _ H eq_refl).
  intros i s s' Hb Hs. destruct (SFOIndexTableEntry_init _ _); [|discriminate].
  cbn [bind] in Hb. injection Hb as <-. rewrite length_app. simpl. lia.
Qed.

(** The two loops of [SFO.__init__]. *)
Lemma SFO_init_loops raw sfo :
  SFO_init raw = Ok sfo →
  ∃ self0,
    data self0 = ∅ ∧ idx_table self0 = idx_table sfo
    ∧ Z.of_nat (length (idx_table sfo)) = table_entries sfo
    ∧ for_range (length (idx_table sfo)) 0 (λ i self, _read_entry self raw i) self0
      = Ok sfo.
Proof.
  intros H. pose proof (SFO_init_inv _ _ H)
    as (minor & major & header & _ & Hminor & Hmajor & Hheader & _ & _ & _ & Hn & Htbl).
  unfold SFO_init in H.
  destruct (decide _); [|discriminate]. cbn [bind] in H.
  rewrite Hminor, Hmajor, Hheader in H. cbn [bind] in H.
  rewrite Htbl in H. cbn [bind] in H.
  eexists. split; [|split; [|split; [|exact H]]]; [done|done|].
  rewrite Hn. apply idx_table_length in Htbl. rewrite Htbl.
  pose proof (int_from_bytes_little_range (field header 8 4)). unfold fmt_I. lia.
Qed.

Lemma last_char_rstrip_nul text c :
  last_char (rstrip_nul text) = Some c → is_nul c = false.
Proof.
  destruct (rstrip_with_spec is_nul text) as (trail & _ & _ & H). apply H.
Qed.

(** What a pass of the data loop stores. *)
Lemma read_entry_stores self raw idx self' :
  _read_entry self raw idx = Ok self' →
  (idx < length (idx_table self))%nat
  ∧ idx_table self' = idx_table self
  ∧ ∃ key v,
      data self' = <[key := v]> (data self)
      ∧ (∀ c, last_char key = Some c → is_nul c = false)
      ∧ match v with
        | VInt n => 0 ≤ n
        | VStr s => ∀ c, last_char s = Some c → is_nul c = false
        end.
Proof.
  intros H. pose proof (read_entry_fields _ _ _ _ H) as (_ & _ & _ & _ & Ht).
  assert (∃ entry, idx_table self !! idx = Some entry) as [entry He].
  { unfold _read_entry in H.
    destruct (list_getitem (idx_table self) idx) as [entry|] eqn:He; [|discriminate].
    apply list_getitem_inv in He. by exists entry. }
  pose proof (lookup_lt_Some _ _ _ He) as Hlt.
  split; [done|]. split; [done|].
  destruct (read_entry_inv _ _ _ _ _ H He) as (key & v & Hd & (k_end & text & _ & ->) & Hi & Hs).
  exists (rstrip_nul text), v. split; [done|]. split; [apply last_char_rstrip_nul|].
  destruct (data_fmt entry) eqn:Hf.
  - destruct Hs as (t & _ & ->); [done|]. apply last_char_rstrip_nul.
  - destruct Hs as (t & _ & ->); [done|]. apply last_char_rstrip_nul.
  - rewrite Hi by done. apply int_from_bytes_little_range.
Qed.

(** A pass of the data loop with an index inside the table raises
    nothing but the error of the codec. *)
Lemma read_entry_raises self raw idx e :
  (idx < length (idx_table self))%nat →
  _read_entry self raw idx = Raise e → e = UnicodeDecodeError.
Proof.
  intros Hlt. unfold _read_entry.
  destruct (lookup_lt_is_Some_2 _ _ Hlt) as [entry He].
  rewrite (proj2 (list_getitem_inv _ _ _) He). cbn [bind].
  assert (Hk : ∃ k_end,
            (if Z.of_nat idx =? Z.of_nat (length (idx_table self)) - 1
             then Ok (data_table_start self)
             else let* next := list_getitem (idx_table self) (idx + 1) in
                  Ok (key_table_start self + key_offset next)) = Ok k_end).
  { destruct (Z.eqb_spec (Z.of_nat idx) (Z.of_nat (length (idx_table self)) - 1));
      [by eexists|].
    destruct (lookup_lt_is_Some_2 (idx_table self) (idx + 1)) as [next Hn]; [lia|].
    rewrite (proj2 (list_getitem_inv _ _ _) Hn). by eexists. }
  destruct Hk as [k_end ->]. cbn [bind].
  unfold decode_utf8.
  destruct (utf8_valid (slice raw _ k_end)); cbn [bind]; [|by intros [= <-]].
  destruct (data_fmt entry); cbn [bind]; try discriminate;
    (destruct (utf8_valid _); cbn [bind]; [discriminate|by intros [= <-]]).
Qed.

Lemma length_append (a b : string) :
  String.length (a +:+ b) = (String.length a + String.length b)%nat.
Proof. induction a as [|c a IH]; [done|]. rewrite append_cons. simpl. by rewrite IH. Qed.

(** Stripping does not make a text longer. *)
Lemma strip_length s : (String.length (strip s) ≤ String.length s)%nat.
Proof.
  destruct (strip_spec s) as (lead & trail & Hs & _).
  rewrite Hs at 2. rewrite !length_append. lia.
Qed.

(** A slice is the two slices on the sides of a point between its
    bounds. *)
Lemma slice_split raw a b c :
  0 ≤ a → a ≤ b → b ≤ c → c ≤ len raw →
  slice raw a c = slice raw a b ++ slice raw b c.
Proof.
  intros Ha Hab Hbc Hc. rewrite !slice_inside by lia.
  replace (Z.to_nat (c - a)) with (Z.to_nat (b - a) + Z.to_nat (c - b))%nat by lia.
  rewrite <- take_take_drop. f_equal. rewrite drop_drop. do 2 f_equal. lia.
Qed.

Lemma is_ascii_app a b : is_ascii (a ++ b) = is_ascii a && is_ascii b.
Proof. apply forallb_app. Qed.

Lemma decode_ascii_eq bs :
  decode_ascii bs
  = if is_ascii bs then Ok (string_of_list_byte bs) else Raise UnicodeDecodeError.
Proof. reflexivity. Qed.

Lemma decode_ascii_ok bs :
  is_ascii bs = true → decode_ascii bs = Ok (string_of_list_byte bs).
Proof. unfold decode_ascii, is_ascii. by intros ->. Qed.

Lemma decode_ascii_bad bs :
  is_ascii bs = false → decode_ascii bs = Raise UnicodeDecodeError.
Proof. unfold decode_ascii, is_ascii. by intros ->. Qed.

(** The window of [unpack_from] at an offset that is not negative is a
    slice. *)
Lemma unpack_from_slice size raw offset :
  0 ≤ offset → 0 ≤ size → offset + size ≤ len raw →
  unpack_from size raw offset = Ok (slice raw offset (offset + size)).
Proof.
  intros Ho Hs Hl. rewrite unpack_from_ok by lia. rewrite slice_inside by lia.
  do 3 f_equal. lia.
Qed.

(** [decode_string] on a window in the buffer. *)
Lemma decode_string_inside raw offset size :
  0 ≤ offset → 0 ≤ size → offset + size ≤ len raw →
  decode_string raw offset size
  = if is_ascii (slice raw offset (offset + size))
    then Ok (strip (string_of_list_byte (slice raw offset (offset + size))))
    else Raise UnicodeDecodeError.
Proof.
  intros Ho Hs Hl. unfold decode_string. destruct (Z.ltb_spec size 0); [lia|].
  rewrite unpack_from_slice by lia. cbn [bind].
  destruct (is_ascii _) eqn:E.
  - by rewrite decode_ascii_ok.
  - by rewrite decode_ascii_bad.
Qed.

Lemma decode_string_short raw offset size :
  0 ≤ offset → size < 0 ∨ len raw < offset + size →
  decode_string raw offset size = Raise StructError.
Proof.
  intros Ho Hs. unfold decode_string. destruct (Z.ltb_spec size 0); [done|].
  rewrite unpack_from_short by lia. done.
Qed.

(** A text that [decode_string] returns: the window is in the buffer and
    is ASCII, and the text is trimmed and no longer than the window. *)
Lemma decode_string_ok_inv raw offset size s :
  0 ≤ offset → decode_string raw offset size = Ok s →
  0 ≤ size ∧ offset + size ≤ len raw
  ∧ is_ascii (slice raw offset (offset + size)) = true
  ∧ s = strip (string_of_list_byte (slice raw offset (offset + size)))
  ∧ trimmed isspace s ∧ Z.of_nat (String.length s) ≤ size.
Proof.
  intros Ho H.
  destruct (Z.lt_ge_cases size 0) as [Hs|Hs];
    [by rewrite decode_string_short in H by lia|].
  destruct (Z.lt_ge_cases (len raw) (offset + size)) as [Hl|Hl];
    [by rewrite decode_string_short in H by lia|].
  rewrite decode_string_inside in H by lia.
  destruct (is_ascii _) eqn:E; [|discriminate]. injection H as <-.
  split; [done|]. split; [done|]. split; [done|]. split; [done|].
  destruct (strip_spec (string_of_list_byte (slice raw offset (offset + size))))
    as (lead & trail & _ & _ & _ & Htr).
  split; [done|].
  pose proof (strip_length (string_of_list_byte (slice raw offset (offset + size)))) as Hn.
  rewrite length_string_of_list_byte in Hn.
  pose proof (len_slice raw offset (offset + size) ltac:(lia) ltac:(lia)) as Hw.
  unfold len in *. lia.
Qed.

(** [decdatetime_to_str] on a window in the buffer: the seven texts are
    slices, and the zone is the signed byte after them. *)
Lemma decdatetime_to_str_inside raw offset :
  0 ≤ offset → offset + 17 ≤ len raw →
  decdatetime_to_str raw offset
  = let* year := decode_ascii (slice raw offset (offset + 4)) in
    let* month := decode_ascii (slice raw (offset + 4) (offset + 6)) in
    let* day := decode_ascii (slice raw (offset + 6) (offset + 8)) in
    let* hour := decode_ascii (slice raw (offset + 8) (offset + 10)) in
    let* minute := decode_ascii (slice raw (offset + 10) (offset + 12)) in
    let* second := decode_ascii (slice raw (offset + 12) (offset + 14)) in
    let* csec := decode_ascii (slice raw (offset + 14) (offset + 16)) in
    let zone := to_signed 8 (int_from_bytes_little (slice raw (offset + 16) (offset + 17))) in
    Ok (year +:+ "-" +:+ month +:+ "-" +:+ day +:+ " " +:+ hour +:+ ":" +:+ minute
        +:+ ":" +:+ second +:+ "." +:+ csec +:+ " (" +:+ str_of_int zone +:+ ")")%string.
Proof.
  intros Ho Hl. unfold decdatetime_to_str. rewrite unpack_from_slice by lia.
  cbn [bind]. unfold fmt_b, fmt_B.
  rewrite (field_slice raw offset (offset + 17) 0 4) by lia.
  rewrite (field_slice raw offset (offset + 17) 4 2) by lia.
  rewrite (field_slice raw offset (offset + 17) 6 2) by lia.
  rewrite (field_slice raw offset (offset + 17) 8 2) by lia.
  rewrite (field_slice raw offset (offset + 17) 10 2) by lia.
  rewrite (field_slice raw offset (offset + 17) 12 2) by lia.
  rewrite (field_slice raw offset (offset + 17) 14 2) by lia.
  rewrite (field_slice raw offset (offset + 17) 16 1) by lia.
  replace (offset + Z.of_nat 0) with offset by lia.
  reflexivity.
Qed.

(** The sixteen bytes of the texts of a date, in their seven parts. *)
Lemma date_window_parts raw offset :
  0 ≤ offset → offset + 16 ≤ len raw →
  is_ascii (slice raw offset (offset + 16))
  = is_ascii (slice raw offset (offset + 4))
    && (is_ascii (slice raw (offset + 4) (offset + 6))
    && (is_ascii (slice raw (offset + 6) (offset + 8))
    && (is_ascii (slice raw (offset + 8) (offset + 10))
    && (is_ascii (slice raw (offset + 10) (offset + 12))
    && (is_ascii (slice raw (offset + 12) (offset + 14))
    && is_ascii (slice raw (offset + 14) (offset + 16))))))).
Proof.
  intros Ho Hl.
  rewrite (slice_split raw offset (offset + 4) (offset + 16)) by lia.
  rewrite (slice_split raw (offset + 4) (offset + 6) (offset + 16)) by lia.
  rewrite (slice_split raw (offset + 6) (offset + 8) (offset + 16)) by lia.
  rewrite (slice_split raw (offset + 8) (offset + 10) (offset + 16)) by lia.
  rewrite (slice_split raw (offset + 10) (offset + 12) (offset + 16)) by lia.
  rewrite (slice_split raw (offset + 12) (offset + 14) (offset + 16)) by lia.
  by rewrite !is_ascii_app.
Qed.

Lemma decdatetime_to_str_short raw offset :
  0 ≤ offset → len raw < offset + 17 → decdatetime_to_str raw offset = Raise StructError.
Proof.
  intros Ho Hl. unfold decdatetime_to_str. by rewrite unpack_from_short by lia.
Qed.

(** [decdatetime_to_str] returns exactly on a window in the buffer whose
    first sixteen bytes are ASCII. *)
Lemma decdatetime_to_str_ok raw offset :
  0 ≤ offset → offset + 17 ≤ len raw →
  is_ascii (slice raw offset (offset + 16)) = true →
  ∃ s, decdatetime_to_str raw offset = Ok s.
Proof.
  intros Ho Hl Ha. rewrite decdatetime_to_str_inside by lia.
  rewrite date_window_parts in Ha by lia.
  repeat (apply andb_true_iff in Ha as [?%decode_ascii_ok Ha]).
  apply decode_ascii_ok in Ha.
  repeat match goal with H : decode_ascii _ = Ok _ |- _ => rewrite H; clear H end.
  cbn [bind]. by eexists.
Qed.

Lemma decdatetime_to_str_ok_inv raw offset s :
  0 ≤ offset → decdatetime_to_str raw offset = Ok s →
  offset + 17 ≤ len raw ∧ is_ascii (slice raw offset (offset + 16)) = true.
Proof.
  intros Ho H.
  destruct (Z.lt_ge_cases (len raw) (offset + 17)) as [Hl|Hl];
    [by rewrite decdatetime_to_str_short in H by lia|].
  split; [done|]. rewrite decdatetime_to_str_inside in H by lia.
  rewrite date_window_parts by lia. rewrite !decode_ascii_eq in H.
  repeat (destruct (is_ascii _); [cbn [bind] in H|discriminate]). done.
Qed.

(** The text that [decdatetime_to_str] returns on a window in the buffer
    whose first sixteen bytes are ASCII. *)
Lemma decdatetime_to_str_value raw offset :
  0 ≤ offset → offset + 17 ≤ len raw →
  is_ascii (slice raw offset (offset + 16)) = true →
  let text a b := string_of_list_byte (slice raw (offset + a) (offset + b)) in
  ∃ zone,
    -128 ≤ zone < 128
    ∧ (∃ b, getitem raw (offset + 16) = Ok b ∧ zone = to_signed 8 b)
    ∧ decdatetime_to_str raw offset
      = Ok (text 0 4 +:+ "-" +:+ text 4 6 +:+ "-" +:+ text 6 8 +:+ " "
            +:+ text 8 10 +:+ ":" +:+ text 10 12 +:+ ":" +:+ text 12 14
            +:+ "." +:+ text 14 16 +:+ " (" +:+ str_of_int zone +:+ ")")%string.
Proof.
  intros Ho Hl Ha. rewrite decdatetime_to_str_inside by lia.
  rewrite date_window_parts in Ha by lia.
  repeat (apply andb_true_iff in Ha as [?%decode_ascii_ok Ha]).
  apply decode_ascii_ok in Ha.
  repeat match goal with H : decode_ascii _ = Ok _ |- _ => rewrite H; clear H end.
  cbn [bind]. cbn zeta.
  exists (to_signed 8 (int_from_bytes_little (slice raw (offset + 16) (offset + 17)))).
  assert (Hb : slice raw (offset + 16) (offset + 17)
               = [nth (Z.to_nat (offset + 16)) raw x00]).
  { rewrite slice_inside by lia.
    replace (Z.to_nat (offset + 17 - (offset + 16))) with 1%nat by lia.
    apply take_1_drop. unfold len in Hl. lia. }
  split; [|split].
  - apply (to_signed_range 8); [lia|].
    pose proof (int_from_bytes_little_range (slice raw (offset + 16) (offset + 17))) as Hr.
    rewrite Hb in Hr |- *. change (256 ^ len [_]) with 256 in Hr.
    change (2 ^ 8) with 256. lia.
  - eexists. split; [apply getitem_inside; lia|]. rewrite Hb. simpl. f_equal. lia.
  - replace (offset + 0) with offset by lia. reflexivity.
Qed.

(** The decimal text of a signed byte has from one to four characters. *)
Lemma str_of_int_length_byte z :
  -128 ≤ z < 128 → (1 ≤ String.length (str_of_int z) ≤ 4)%nat.
Proof.
  intros Hz.
  assert (H : forallb (λ n, let k := String.length (str_of_int (Z.of_nat n - 128)) in
                            (1 <=? k)%nat && (k <=? 4)%nat) (seq 0 256) = true)
    by (vm_compute; reflexivity).
  rewrite forallb_forall in H. specialize (H (Z.to_nat (z + 128))).
  replace (Z.of_nat (Z.to_nat (z + 128)) - 128) with z in H by lia.
  cbn zeta in H. rewrite andb_true_iff, Nat.leb_le, Nat.leb_le in H.
  apply H. apply in_seq. lia.
Qed.

(** The text of a date has from 26 to 29 characters. *)
Lemma decdatetime_to_str_length raw offset s :
  0 ≤ offset → decdatetime_to_str raw offset = Ok s →
  (26 ≤ String.length s ≤ 29)%nat.
Proof.
  intros Ho H. destruct (decdatetime_to_str_ok_inv _ _ _ Ho H) as [Hl Ha].
  destruct (decdatetime_to_str_value raw offset Ho Hl Ha) as (zone & Hz & _ & Hs).
  rewrite Hs in H. injection H as <-.
  pose proof (str_of_int_length_byte zone Hz) as Hn.
  rewrite !length_append, !length_string_of_list_byte.
  assert (L : ∀ a b, 0 ≤ a → a ≤ b → b ≤ 17 →
              length (slice raw (offset + a) (offset + b)) = Z.to_nat (b - a)).
  { intros a b H1 H2 H3. pose proof (len_slice raw (offset + a) (offset + b)) as E.
    unfold len in *. lia. }
  rewrite !L by lia. simpl. lia.
Qed.

(** The eight values of the dictionary of [get_pvd_dump]. *)
Lemma pvd_fields_inv raw pvd :
  pvd_fields raw = Ok pvd →
  ∃ v1 v2 v3 v4 d1 d2 d3 d4,
    decode_string raw 0xbe 0x80 = Ok v1 ∧ decode_string raw 0x13e 0x80 = Ok v2
    ∧ decode_string raw 0x1be 0x80 = Ok v3 ∧ decode_string raw 0x23e 0x80 = Ok v4
    ∧ decdatetime_to_str raw 0x32d = Ok d1 ∧ decdatetime_to_str raw 0x33e = Ok d2
    ∧ decdatetime_to_str raw 0x34f = Ok d3 ∧ decdatetime_to_str raw 0x360 = Ok d4
    ∧ pvd = <["effective_date" := d4]> (<["expiration_date" := d3]>
            (<["modification_date" := d2]> (<["creation_date" := d1]>
            (<["application_id" := v4]> (<["preparer" := v3]>
            (<["publisher" := v2]> (<["volume_set_id" := v1]> ∅))))))).
Proof.
  unfold pvd_fields. intros H.
  destruct (decode_string raw 190 128) as [v1|]; [|discriminate]. cbn [bind] in H.
  destruct (decode_string raw 318 128) as [v2|]; [|discriminate]. cbn [bind] in H.
  destruct (decode_string raw 446 128) as [v3|]; [|discriminate]. cbn [bind] in H.
  destruct (decode_string raw 574 128) as [v4|]; [|discriminate]. cbn [bind] in H.
  destruct (decdatetime_to_str raw 813) as [d1|]; [|discriminate]. cbn [bind] in H.
  destruct (decdatetime_to_str raw 830) as [d2|]; [|discriminate]. cbn [bind] in H.
  destruct (decdatetime_to_str raw 847) as [d3|]; [|discriminate]. cbn [bind] in H.
  destruct (decdatetime_to_str raw 864) as [d4|]; [|discriminate]. cbn [bind] in H.
  injection H as <-. by exists v1, v2, v3, v4, d1, d2, d3, d4.
Qed.

Lemma decode_string_raises raw offset size e :
  decode_string raw offset size = Raise e → e = StructError ∨ e = UnicodeDecodeError.
Proof.
  unfold decode_string, unpack_from.
  destruct (size <? 0); cbn [bind]; [intros [= <-]; by left|].
  destruct (_ && _); cbn [bind]; [|intros [= <-]; by left].
  rewrite decode_ascii_eq. destruct (is_ascii _); cbn [bind]; [done|].
  intros [= <-]. by right.
Qed.

Lemma decdatetime_to_str_raises raw offset e :
  decdatetime_to_str raw offset = Raise e → e = StructError ∨ e = UnicodeDecodeError.
Proof.
  unfold decdatetime_to_str, unpack_from.
  destruct (_ && _); cbn [bind]; [|intros [= <-]; by left].
  rewrite !decode_ascii_eq.
  repeat (destruct (is_ascii _); cbn [bind]; [|intros [= <-]; by right]). done.
Qed.

Section SplitOn.

Context (sep : ascii).

Lemma split_on_nonempty s : split_on sep s ≠ [].
Proof. destruct s as [|c s]; simpl; [done|]. destruct (Ascii.eqb c sep); [done|]. by destruct (split_on sep s). Qed.

(** Joining the pieces of a split with the separator gives the text
    back. *)
Lemma split_on_join s : join_with sep (split_on sep s) = s.
Proof.
  induction s as [|c s IH]; [done|]. cbn [split_on].
  destruct (Ascii.eqb_spec c sep) as [->|Hc].
  - pose proof (split_on_nonempty s) as Hn. cbn [join_with].
    destruct (split_on sep s) as [|p l]; [done|]. by rewrite IH.
  - pose proof (split_on_nonempty s) as Hn.
    destruct (split_on sep s) as [|p l]; [done|].
    cbn [join_with] in *. destruct l as [|q l]; [by rewrite IH|].
    rewrite append_cons. by rewrite IH.
Qed.

(** A split gives one piece more than the text has separators. *)
Lemma split_on_length s : length (split_on sep s) = S (count_char sep s).
Proof.
  induction s as [|c s IH]; [done|]. cbn [split_on count_char].
  destruct (Ascii.eqb c sep); [simpl; by rewrite IH|].
  destruct (split_on sep s) as [|p l]; simpl in *; lia.
Qed.

(** No piece of a split holds the separator. *)
Lemma split_on_free s : Forall (free_of sep) (split_on sep s).
Proof.
  induction s as [|c s IH]; [by repeat constructor|]. cbn [split_on].
  destruct (Ascii.eqb c sep) eqn:Hc; [by constructor|].
  destruct (split_on sep s) as [|p l]; [repeat constructor; unfold free_of; simpl;
                                        by rewrite Hc|].
  inversion IH as [|? ? Hp Hl]; subst. constructor; [|done].
  unfold free_of in *. simpl. by rewrite Hc.
Qed.

End SplitOn.

(** Stripping the two ends leaves a text that neither begins nor ends
    with a stripped character. *)
Lemma strip_with_trimmed p s : trimmed p (strip_with p s).
Proof.
  unfold strip_with.
  destruct (lstrip_with_spec p s) as (lead & _ & _ & Hf).
  destruct (rstrip_with_spec p (lstrip_with p s)) as (trail & _ & _ & Hlast).
  split; [|done]. intros c Hc.
  destruct (first_char (lstrip_with p s)) as [c0|] eqn:E.
  - pose proof (Hf c0 eq_refl) as Hc0.
    rewrite (rstrip_with_first _ _ _ E Hc0) in Hc. by injection Hc as <-.
  - by rewrite (rstrip_with_empty _ _ E) in Hc.
Qed.

(** *** The loop of [gen_hashes] *)

Lemma read_at f n :
  0 ≤ n → 0 ≤ pos f →
  read f n = Ok (take (Z.to_nat n) (drop (Z.to_nat (pos f)) (content f)),
                 mkStream (content f)
                   (pos f + len (take (Z.to_nat n) (drop (Z.to_nat (pos f)) (content f))))).
Proof.
  intros Hn Hp. unfold read. destruct (Z.ltb_spec n (-1)); [lia|].
  destruct (Z.eqb_spec n (-1)); [lia|]. done.
Qed.

Lemma take_then_drop {A : Type} (n : nat) (l : list A) :
  take n l ++ drop (length (take n l)) l = l.
Proof.
  destruct (le_lt_dec n (length l)).
  - rewrite length_take_le by lia. apply take_drop.
  - rewrite take_ge by lia. by rewrite drop_all, app_nil_r.
Qed.

Section GenHashesFacts.

Context (crc32 : bytes → Z → Z) (sha1 md5 sha256 : hasher).

Local Abbreviation hash_piece := (hash_piece crc32 sha1 md5 sha256).
Local Abbreviation read_in_chunks_loop := (read_in_chunks_loop crc32 sha1 md5 sha256).
Local Abbreviation gen_hashes := (gen_hashes crc32 sha1 md5 sha256).

(** The loop feeds the rest of the file to the hashes in pieces that are
    not empty and have [chunk_size] bytes at most, and leaves the file
    object at the end of the file. *)
Lemma read_in_chunks_loop_pieces chunk_size fuel :
  0 < chunk_size →
  ∀ f st,
    0 ≤ pos f ≤ len (content f) →
    (Z.to_nat (len (content f) - pos f) < fuel)%nat →
    ∃ pieces,
      concat pieces = drop (Z.to_nat (pos f)) (content f)
      ∧ Forall (λ p, p ≠ [] ∧ len p ≤ chunk_size) pieces
      ∧ read_in_chunks_loop fuel f chunk_size st
        = Some (Ok (fold_left hash_piece pieces st,
                    mkStream (content f) (len (content f)))).
Proof.
  intros Hc. induction fuel as [|fuel IH]; intros f st Hp Hf; [lia|].
  cbn [Submission.read_in_chunks_loop]. rewrite read_at by lia. unfold lift. cbn [bindF].
  set (rest := drop (Z.to_nat (pos f)) (content f)).
  assert (Hrest : len rest = len (content f) - pos f).
  { unfold rest, len. rewrite length_drop. unfold len in Hp. lia. }
  destruct (take (Z.to_nat chunk_size) rest) as [|b data] eqn:Hd.
  - exists []. assert (rest = []) as Hnil.
    { destruct rest as [|x rest']; [done|].
      replace (Z.to_nat chunk_size) with (S (Z.to_nat chunk_size - 1)) in Hd by lia.
      discriminate. }
    split; [done|]. split; [done|]. simpl. do 4 f_equal.
    rewrite Hnil in Hrest. unfold len in *. simpl in *. lia.
  - assert (Hpl : len (b :: data) ≤ chunk_size ∧ len (b :: data) ≤ len rest
                  ∧ 0 < len (b :: data)).
    { split; [|split]; [rewrite <- Hd|rewrite <- Hd|]; unfold len;
        rewrite ?length_take; simpl; lia. }
    remember (b :: data) as piece eqn:Hpiece.
    destruct (IH (mkStream (content f) (pos f + len piece)) (hash_piece st piece))
      as (pieces & Hcat & Hall & Hrun).
    { simpl. lia. }
    { simpl. lia. }
    exists (piece :: pieces). simpl in Hcat, Hrun. split; [|split].
    + simpl. rewrite Hcat.
      replace (Z.to_nat (pos f + len piece))
        with (Z.to_nat (pos f) + length piece)%nat by (unfold len; lia).
      rewrite <- drop_drop. fold rest. rewrite <- Hd.
      apply take_then_drop.
    + constructor; [|done]. split; [by rewrite Hpiece|lia].
    + exact Hrun.
Qed.

(** [gen_hashes] returns on every file object. *)
Lemma gen_hashes_pieces f :
  ∃ pieces,
    concat pieces = content f
    ∧ Forall (λ p, p ≠ [] ∧ len p ≤ 0x10000) pieces
    ∧ gen_hashes f
      = Some (Ok (hashes_of sha1 md5 sha256
                    (fold_left hash_piece pieces
                       {| st_crc32 := 0; st_sha1 := hnew sha1; st_md5 := hnew md5;
                          st_sha256 := hnew sha256 |}),
                  mkStream (content f) (len (content f)))).
Proof.
  unfold gen_hashes, Submission.gen_hashes. unfold seek, lift.
  change (0 <? 0) with false. cbn [bindF]. cbn [content].
  destruct (read_in_chunks_loop_pieces 0x10000 (S (length (content f))) ltac:(lia)
              (mkStream (content f) 0)
              {| st_crc32 := 0; st_sha1 := hnew sha1; st_md5 := hnew md5;
                 st_sha256 := hnew sha256 |})
    as (pieces & Hcat & Hall & Hrun).
  { cbn [content pos]. unfold len. lia. }
  { cbn [content pos]. unfold len. lia. }
  cbn [content pos] in Hcat, Hrun.
  change (drop (Z.to_nat 0) (content f)) with (content f) in Hcat.
  exists pieces. split; [done|]. split; [done|].
  rewrite Hrun. reflexivity.
Qed.

(** With a checksum and hash objects that stream, feeding the pieces is
    feeding their concatenation. *)
Lemma hash_pieces_concat :
  (∀ a b c, crc32 b (crc32 a c) = crc32 (a ++ b) c) →
  (∀ c, crc32 [] c = c) →
  (∀ h, h = sha1 ∨ h = md5 ∨ h = sha256 →
        (∀ st a b, hupdate h (hupdate h st a) b = hupdate h st (a ++ b))
        ∧ (∀ st, hupdate h st [] = st)) →
  ∀ pieces st, fold_left hash_piece pieces st = hash_piece st (concat pieces).
Proof.
  intros Hcrc Hcrc0 Hh.
  destruct (Hh sha1) as [S1 S0]; [by left|].
  destruct (Hh md5) as [M1 M0]; [by right; left|].
  destruct (Hh sha256) as [T1 T0]; [by right; right|].
  induction pieces as [|p pieces IH]; intros st.
  - simpl. destruct st. unfold Submission.hash_piece. simpl.
    by rewrite Hcrc0, S0, M0, T0.
  - simpl. rewrite IH. unfold Submission.hash_piece. simpl.
    by rewrite Hcrc, S1, M1, T1.
Qed.

End GenHashesFacts.

Lemma sum_crc32_streams :
  (∀ a b c, sum_crc32 b (sum_crc32 a c) = sum_crc32 (a ++ b) c)
  ∧ (∀ c, sum_crc32 [] c = c).
Proof. split; [|done]. intros a b c. unfold sum_crc32. by rewrite fold_left_app. Qed.

Lemma xor_hasher_streams h :
  h = xor_hasher ∨ h = xor_hasher ∨ h = xor_hasher →
  (∀ st a b, hupdate h (hupdate h st a) b = hupdate h st (a ++ b))
  ∧ (∀ st, hupdate h st [] = st).
Proof.
  intros Hh. assert (h = xor_hasher) as -> by (by destruct Hh as [?|[?|?]]).
  split; [|done]. intros st a b. simpl. by rewrite fold_left_app.
Qed.

(** *** The text of the checksum *)

Lemma hex_digit_value_hex_digit d :
  0 ≤ d < 16 → hex_digit_value (hex_digit d) = Some d.
Proof.
  intros Hd.
  assert (H : forallb (λ n, match hex_digit_value (hex_digit (Z.of_nat n)) with
                            | Some v => v =? Z.of_nat n
                            | None => false
                            end) (seq 0 16) = true) by (vm_compute; reflexivity).
  rewrite forallb_forall in H. specialize (H (Z.to_nat d)).
  rewrite Z2Nat.id in H by lia.
  destruct (hex_digit_value (hex_digit d)) as [v|].
  - f_equal. apply Z.eqb_eq. apply H. apply in_seq. lia.
  - discriminate H. apply in_seq. lia.
Qed.

Lemma append_assoc (a b c : string) : ((a +:+ b) +:+ c = a +:+ (b +:+ c))%string.
Proof. induction a as [|x a IH]; [done|]. rewrite !append_cons. by rewrite IH. Qed.

Lemma all_chars_app p (a b : string) :
  all_chars p (a +:+ b) = all_chars p a && all_chars p b.
Proof.
  induction a as [|x a IH]; [done|]. rewrite append_cons. simpl. rewrite IH.
  by rewrite andb_assoc.
Qed.

Lemma hex_value_from_app acc (a b : string) :
  hex_value_from acc (a +:+ b) = hex_value_from (hex_value_from acc a) b.
Proof.
  revert acc. induction a as [|x a IH]; intros acc; [done|].
  rewrite append_cons. simpl. by rewrite IH.
Qed.

(** The digits that [format] writes for a number that is not negative:
    as many as the number needs, and they write the number. *)
Lemma hex_digits_spec fuel :
  ∀ n acc,
    0 ≤ n < 16 ^ Z.of_nat (S fuel) →
    ∃ d, hex_digits (S fuel) n acc = (d +:+ acc)%string
         ∧ (1 ≤ String.length d)%nat
         ∧ (∀ k, (1 ≤ k)%nat → n < 16 ^ Z.of_nat k → (String.length d ≤ k)%nat)
         ∧ all_chars is_lower_hex d = true
         ∧ ∀ a, hex_value_from a d = a * 16 ^ Z.of_nat (String.length d) + n.
Proof.
  assert (Hone : ∀ n acc, 0 ≤ n < 16 →
            ∃ d, (String (hex_digit (n mod 16)) acc = d +:+ acc)%string
                 ∧ (1 ≤ String.length d)%nat
                 ∧ (∀ k, (1 ≤ k)%nat → n < 16 ^ Z.of_nat k → (String.length d ≤ k)%nat)
                 ∧ all_chars is_lower_hex d = true
                 ∧ ∀ a, hex_value_from a d = a * 16 ^ Z.of_nat (String.length d) + n).
  { intros n acc Hn. exists (String (hex_digit n) EmptyString).
    rewrite Z.mod_small by lia. split; [done|]. split; [simpl; lia|].
    split; [simpl; lia|]. unfold is_lower_hex. simpl.
    rewrite hex_digit_value_hex_digit by lia. split; [done|]. intros a. simpl. lia. }
  induction fuel as [|fuel IH]; intros n acc Hn.
  - cbn [hex_digits]. change (16 ^ Z.of_nat 1) with 16 in Hn.
    destruct (Hone n acc Hn) as (d & Hd & H). exists d. split; [|done].
    by destruct (n / 16 =? 0).
  - change (hex_digits (S (S fuel)) n acc)
      with (let acc' := String (hex_digit (n mod 16)) acc in
            if n / 16 =? 0 then acc' else hex_digits (S fuel) (n / 16) acc').
    cbn zeta. destruct (Z.eqb_spec (n / 16) 0) as [Hz|Hz].
    + apply Hone. apply Z.div_small_iff in Hz; lia.
    + assert (Hq : 0 ≤ n / 16 < 16 ^ Z.of_nat (S fuel)).
      { split; [apply Z.div_pos; lia|]. apply Z.div_lt_upper_bound; [lia|].
        replace (Z.of_nat (S (S fuel))) with (1 + Z.of_nat (S fuel)) in Hn by lia.
        rewrite Z.pow_add_r in Hn by lia. lia. }
      destruct (IH (n / 16) (String (hex_digit (n mod 16)) acc) Hq)
        as (d & Hd & Hlen & Hk & Hall & Hval).
      exists (d +:+ String (hex_digit (n mod 16)) EmptyString)%string.
      rewrite Hd. split; [by rewrite append_assoc|].
      rewrite length_append. simpl String.length.
      split; [lia|]. split; [|split].
      * intros k Hk1 Hnk. destruct k as [|[|k]]; [lia| |].
        { change (16 ^ Z.of_nat 1) with 16 in Hnk.
          assert (n / 16 = 0) by (apply Z.div_small; lia). done. }
        assert (String.length d ≤ S k)%nat; [|lia].
        apply Hk; [lia|]. apply Z.div_lt_upper_bound; [lia|].
        replace (Z.of_nat (S (S k))) with (1 + Z.of_nat (S k)) in Hnk by lia.
        rewrite Z.pow_add_r in Hnk by lia. lia.
      * rewrite all_chars_app, Hall. unfold is_lower_hex. simpl.
        rewrite hex_digit_value_hex_digit by (apply Z.mod_pos_bound; lia). done.
      * intros a. rewrite hex_value_from_app, Hval. simpl.
        rewrite hex_digit_value_hex_digit by (apply Z.mod_pos_bound; lia). simpl.
        replace (Z.of_nat (String.length d + 1)) with (Z.of_nat (String.length d) + 1) by lia.
        rewrite Z.pow_add_r by lia. pose proof (Z.div_mod n 16 ltac:(lia)). lia.
Qed.

(** [format(n, 'x')] of a number that is not negative. *)
Lemma format_x_spec n :
  0 ≤ n →
  (1 ≤ String.length (format_x n))%nat
  ∧ (∀ k, (1 ≤ k)%nat → n < 16 ^ Z.of_nat k → (String.length (format_x n) ≤ k)%nat)
  ∧ all_chars is_lower_hex (format_x n) = true
  ∧ hex_value (format_x n) = n.
Proof.
  intros Hn. unfold format_x. destruct (Z.ltb_spec n 0); [lia|].
  destruct (hex_digits_spec (Z.to_nat (Z.log2 n)) n EmptyString)
    as (d & Hd & Hlen & Hk & Hall & Hval).
  { split; [done|]. rewrite Nat2Z.inj_succ, Z2Nat.id by apply Z.log2_nonneg.
    destruct (Z.eq_dec n 0) as [->|Hz]; [done|].
    pose proof (Z.log2_spec n ltac:(lia)) as [_ Hlt].
    assert (2 ^ Z.succ (Z.log2 n) ≤ 16 ^ Z.succ (Z.log2 n)); [|lia].
    apply Z.pow_le_mono_l. lia. }
  assert (E : (d +:+ EmptyString)%string = d).
  { clear. induction d as [|c d IH]; [done|]. rewrite append_cons. by rewrite IH. }
  rewrite E in Hd. rewrite Hd. split; [done|]. split; [done|]. split; [done|].
  unfold hex_value. rewrite Hval. lia.
Qed.

Lemma hex_value_from_zeros k acc :
  hex_value_from acc (string_of_list_ascii (repeat "0"%char k)) = acc * 16 ^ Z.of_nat k.
Proof.
  revert acc. induction k as [|k IH]; intros acc; [simpl; lia|].
  cbn [repeat string_of_list_ascii hex_value_from]. rewrite IH.
  change (default 0 (hex_digit_value "0")) with 0.
  replace (Z.of_nat (S k)) with (1 + Z.of_nat k) by lia. rewrite Z.pow_add_r by lia. lia.
Qed.

Lemma all_chars_zeros k :
  all_chars is_lower_hex (string_of_list_ascii (repeat "0"%char k)) = true.
Proof. induction k as [|k IH]; [done|]. simpl. exact IH. Qed.

Lemma length_zeros k : String.length (string_of_list_ascii (repeat "0"%char k)) = k.
Proof. induction k as [|k IH]; [done|]. simpl. by rewrite IH. Qed.

(** [zfill] of a text of hexadecimal digits pads it with zeros, which
    leave the number it writes as it is. *)
Lemma zfill_hex width s :
  all_chars is_lower_hex s = true →
  String.length (zfill width s) = Nat.max width (String.length s)
  ∧ all_chars is_lower_hex (zfill width s) = true
  ∧ hex_value (zfill width s) = hex_value s.
Proof.
  intros Hs.
  assert (E : zfill width s
              = (string_of_list_ascii (repeat "0"%char (width - String.length s)) +:+ s)%string).
  { unfold zfill. destruct s as [|c s]; [|].
    - clear. generalize (string_of_list_ascii (repeat "0"%char (width - String.length ""))).
      intros d. induction d as [|c d IH]; [done|]. rewrite append_cons. by rewrite <- IH.
    - simpl in Hs. apply andb_true_iff in Hs as [Hc _].
      destruct (Ascii.eqb_spec c "+") as [->|_]; [discriminate|].
      destruct (Ascii.eqb_spec c "-") as [->|_]; [discriminate|]. done. }
  rewrite E. rewrite length_append, length_zeros, all_chars_app, all_chars_zeros, Hs.
  split; [lia|]. split; [done|]. unfold hex_value.
  rewrite hex_value_from_app, hex_value_from_zeros. done.
Qed.

Lemma zfill_length width s :
  String.length (zfill width s) = Nat.max width (String.length s).
Proof.
  unfold zfill. destruct s as [|c s].
  - rewrite length_zeros. simpl. lia.
  - destruct (Ascii.eqb c "+" || Ascii.eqb c "-"); simpl;
      rewrite ?append_cons, length_append, length_zeros; simpl; lia.
Qed.

(** The scan looks at the content of the file object only, not at where
    it stands. *)
Lemma pvd_scan_from_anywhere {A : Type} (on_pvd : bytes → result A) f g :
  content f = content g → pvd_scan on_pvd f = pvd_scan on_pvd g.
Proof. intros H. unfold pvd_scan. rewrite !pvd_scan_enter. by rewrite H. Qed.

(** *** The walk over the files of the volume *)

Section ForEach.

Context {A St : Type} (body : A → St → result St).

(** An invariant of a loop over a list, which may depend on the elements
    behind the loop. *)
Lemma for_each_invariant (P : list A → St → Prop) :
  (∀ seen x s s', body x s = Ok s' → P seen s → P (seen ++ [x]) s') →
  ∀ l seen s s', for_each l body s = Ok s' → P seen s → P (seen ++ l) s'.
Proof.
  intros Hstep. induction l as [|x l IH]; intros seen s s'; simpl.
  - intros [= <-]. by rewrite app_nil_r.
  - destruct (body x s) as [s1|] eqn:Hb; [|discriminate]. cbn [bind]. intros H Hs.
    replace (seen ++ x :: l) with ((seen ++ [x]) ++ l) by (by rewrite <- app_assoc).
    eapply IH; eauto.
Qed.

Lemma for_each_app l1 l2 s :
  for_each (l1 ++ l2) body s = let* s1 := for_each l1 body s in for_each l2 body s1.
Proof.
  revert s. induction l1 as [|x l1 IH]; intros s; simpl; [done|].
  destruct (body x s); cbn [bind]; [apply IH|done].
Qed.

End ForEach.

Section IsoWalkFacts.

Context (walk : list (string * list string * list string))
        (get_file_from_iso_fp : string → result bytes)
        (sha1 : hasher).

Local Abbreviation iso_walk_file := (iso_walk_file get_file_from_iso_fp sha1).

(** The two loops of [iso_walk] are one loop over the files walked. *)
Lemma iso_walk_flat (w : list (string * list string * list string)) out :
  for_each w (λ entry out, for_each entry.2 (iso_walk_file entry.1.1) out) out
  = for_each (walked_files w) (λ p out, iso_walk_file p.1 p.2 out) out.
Proof.
  revert out. induction w as [|[[d ds] fs] w IH]; intros out; [done|].
  cbn [for_each]. unfold walked_files. cbn [flat_map]. rewrite for_each_app.
  fold (walked_files w). cbn [fst snd].
  assert (E : ∀ o, for_each fs (iso_walk_file d) o
                   = for_each ((λ file, (d, file)) <$> fs)
                       (λ p out, iso_walk_file p.1 p.2 out) o).
  { clear. induction fs as [|f fs IH]; intros o; [done|]. simpl.
    destruct (iso_walk_file d f o); cbn [bind]; [apply IH|done]. }
  rewrite E. destruct (for_each _ _ out); cbn [bind]; [apply IH|done].
Qed.

(** What the body of the loop does for one file. *)
Lemma iso_walk_file_inv d f out out' :
  iso_walk_file d f out = Ok out' →
  ∃ raw,
    get_file_from_iso_fp (sfo_file_of d f) = Ok raw
    ∧ out_tree out' = <[full_name_of d f := sha1_text sha1 raw]> (out_tree out)
    ∧ (if String.eqb f "UMD_DATA.BIN"
       then ∃ umd, parse_umd_data raw = Ok umd ∧ out_umd_data out' = Some umd
       else out_umd_data out' = out_umd_data out)
    ∧ (if endswith f ".SFO"
       then ∃ info, sfo_info raw = Ok info
                    ∧ out_sfo_info out' = <[sfo_file_of d f := info]> (out_sfo_info out)
       else out_sfo_info out' = out_sfo_info out).
Proof.
  unfold Submission.iso_walk_file. cbn zeta.
  destruct (get_file_from_iso_fp (sfo_file_of d f)) as [raw|]; [|discriminate].
  cbn [bind]. intros H. exists raw. split; [done|].
  destruct (String.eqb f "UMD_DATA.BIN").
  - destruct (parse_umd_data raw) as [umd|]; [|discriminate]. cbn [bind] in H.
    destruct (endswith f ".SFO").
    + destruct (sfo_info raw) as [info|]; [|discriminate]. cbn [bind] in H.
      injection H as <-. simpl. split; [done|]. split; by eexists.
    + injection H as <-. simpl. split; [done|]. split; [by eexists|done].
  - cbn [bind] in H. destruct (endswith f ".SFO").
    + destruct (sfo_info raw) as [info|]; [|discriminate]. cbn [bind] in H.
      injection H as <-. simpl. split; [done|]. split; [done|by eexists].
    + injection H as <-. simpl. done.
Qed.

(** What the walk has stored once it returns: something for every file
    walked, and nothing that does not come from a file walked. *)
Lemma iso_walk_spec out :
  iso_walk walk get_file_from_iso_fp sha1 = Ok out →
  (∀ d f, In (d, f) (walked_files walk) →
          ∃ raw, get_file_from_iso_fp (sfo_file_of d f) = Ok raw
                 ∧ is_Some (out_tree out !! full_name_of d f)
                 ∧ (f = "UMD_DATA.BIN"%string →
                    (∃ umd, parse_umd_data raw = Ok umd) ∧ is_Some (out_umd_data out))
                 ∧ (endswith f ".SFO" = true →
                    (∃ info, sfo_info raw = Ok info)
                    ∧ is_Some (out_sfo_info out !! sfo_file_of d f)))
  ∧ (∀ k v, out_tree out !! k = Some v →
            ∃ d f raw, In (d, f) (walked_files walk) ∧ k = full_name_of d f
                       ∧ get_file_from_iso_fp (sfo_file_of d f) = Ok raw
                       ∧ v = sha1_text sha1 raw)
  ∧ (∀ k v, out_sfo_info out !! k = Some v →
            ∃ d f raw, In (d, f) (walked_files walk) ∧ endswith f ".SFO" = true
                       ∧ k = sfo_file_of d f
                       ∧ get_file_from_iso_fp k = Ok raw ∧ sfo_info raw = Ok v)
  ∧ (∀ umd, out_umd_data out = Some umd →
            ∃ d raw, In (d, "UMD_DATA.BIN"%string) (walked_files walk)
                     ∧ get_file_from_iso_fp (sfo_file_of d "UMD_DATA.BIN") = Ok raw
                     ∧ parse_umd_data raw = Ok umd).
Proof.
  unfold Submission.iso_walk. rewrite iso_walk_flat. intros H.
  set (P := λ (seen : list (string * string)) (out : walk_report),
    (∀ d f, In (d, f) seen →
            ∃ raw, get_file_from_iso_fp (sfo_file_of d f) = Ok raw
                   ∧ is_Some (out_tree out !! full_name_of d f)
                   ∧ (f = "UMD_DATA.BIN"%string →
                      (∃ umd, parse_umd_data raw = Ok umd) ∧ is_Some (out_umd_data out))
                   ∧ (endswith f ".SFO" = true →
                      (∃ info, sfo_info raw = Ok info)
                      ∧ is_Some (out_sfo_info out !! sfo_file_of d f)))
    ∧ (∀ k v, out_tree out !! k = Some v →
              ∃ d f raw, In (d, f) seen ∧ k = full_name_of d f
                         ∧ get_file_from_iso_fp (sfo_file_of d f) = Ok raw
                         ∧ v = sha1_text sha1 raw)
    ∧ (∀ k v, out_sfo_info out !! k = Some v →
              ∃ d f raw, In (d, f) seen ∧ endswith f ".SFO" = true
                         ∧ k = sfo_file_of d f
                         ∧ get_file_from_iso_fp k = Ok raw ∧ sfo_info raw = Ok v)
    ∧ (∀ umd, out_umd_data out = Some umd →
              ∃ d raw, In (d, "UMD_DATA.BIN"%string) seen
                       ∧ get_file_from_iso_fp (sfo_file_of d "UMD_DATA.BIN") = Ok raw
                       ∧ parse_umd_data raw = Ok umd)).
  change (P ([] ++ walked_files walk) out).
  refine (for_each_invariant _ P _ _ _ _ _ H _).
  - intros seen [d f] s s' Hb (P1 & P2 & P3 & P4). cbn [fst snd] in Hb.
    destruct (iso_walk_file_inv _ _ _ _ Hb) as (raw & Hraw & Htree & Humd & Hsfo).
    unfold P. split; [|split; [|split]].
    + intros d' f' Hin. apply in_app_or in Hin as [Hin|[[= <- <-]|[]]].
      * destruct (P1 d' f' Hin) as (raw' & G & T & U & S). exists raw'.
        split; [done|]. split; [|split].
        -- rewrite Htree. apply lookup_insert_is_Some'. by right.
        -- intros E. destruct (U E) as [U1 U2]. split; [done|].
           destruct (String.eqb f "UMD_DATA.BIN").
           ++ destruct Humd as (umd & _ & ->). done.
           ++ by rewrite Humd.
        -- intros E. destruct (S E) as [S1 S2]. split; [done|].
           destruct (endswith f ".SFO").
           ++ destruct Hsfo as (info & _ & ->). apply lookup_insert_is_Some'. by right.
           ++ by rewrite Hsfo.
      * exists raw. split; [done|]. split; [|split].
        -- rewrite Htree. apply lookup_insert_is_Some'. by left.
        -- intros ->. cbn in Humd. destruct Humd as (umd & Hu & ->). split; by eexists.
        -- intros E. rewrite E in Hsfo. destruct Hsfo as (info & Hi & ->).
           split; [by eexists|]. apply lookup_insert_is_Some'. by left.
    + intros k v. rewrite Htree. intros Hk.
      destruct (decide (full_name_of d f = k)) as [<-|Hne].
      * rewrite lookup_insert_eq in Hk. injection Hk as <-.
        exists d, f, raw. split; [apply in_or_app; right; by left|done].
      * rewrite lookup_insert_ne in Hk by done.
        destruct (P2 k v Hk) as (d' & f' & raw' & Hin & R). exists d', f', raw'.
        split; [apply in_or_app; by left|done].
    + intros k v Hk. destruct (endswith f ".SFO") eqn:E.
      * destruct Hsfo as (info & Hi & Ho). rewrite Ho in Hk.
        destruct (decide (sfo_file_of d f = k)) as [<-|Hne].
        -- rewrite lookup_insert_eq in Hk. injection Hk as <-.
           exists d, f, raw. split; [apply in_or_app; right; by left|done].
        -- rewrite lookup_insert_ne in Hk by done.
           destruct (P3 k v Hk) as (d' & f' & raw' & Hin & R). exists d', f', raw'.
           split; [apply in_or_app; by left|done].
      * rewrite Hsfo in Hk.
        destruct (P3 k v Hk) as (d' & f' & raw' & Hin & R). exists d', f', raw'.
        split; [apply in_or_app; by left|done].
    + intros umd Hu. destruct (String.eqb_spec f "UMD_DATA.BIN") as [->|Hne].
      * destruct Humd as (umd' & Hp & Ho). rewrite Ho in Hu. injection Hu as <-.
        exists d, raw. split; [apply in_or_app; right; by left|done].
      * rewrite Humd in Hu. destruct (P4 umd Hu) as (d' & raw' & Hin & R).
        exists d', raw'. split; [apply in_or_app; by left|done].
  - unfold P. simpl. split; [by intros|]. split; [by intros|]. split; [by intros|].
    by intros.
Qed.

End IsoWalkFacts.

(** *** Where the scan stops *)

Lemma passed_over_dec sector :
  passed_over sector
  ∨ (getitem sector 0 = Ok 0x01 ∨ getitem sector 0 = Ok 0xFF ∨ sector = []).
Proof.
  destruct sector as [|b sector]; [by right; right; right|].
  rewrite getitem_first.
  destruct (Z.eq_dec (b2z b) 1) as [->|H1]; [by right; left|].
  destruct (Z.eq_dec (b2z b) 255) as [->|H2]; [by right; right; left|].
  left. exists (b2z b). rewrite getitem_first. done.
Qed.

(** Among the first sectors of a file, either all are passed over or
    there is a first one that is not. *)
Lemma first_stop_below file n :
  (∀ j, (j < n)%nat → passed_over (sector_k file j))
  ∨ ∃ k, (k < n)%nat
         ∧ (∀ j, (j < k)%nat → passed_over (sector_k file j))
         ∧ (getitem (sector_k file k) 0 = Ok 0x01
            ∨ getitem (sector_k file k) 0 = Ok 0xFF ∨ sector_k file k = []).
Proof.
  induction n as [|n [IH|(k & Hk & Hj & Hs)]].
  - left. intros j Hj. lia.
  - destruct (passed_over_dec (sector_k file n)) as [Hp|Hs].
    + left. intros j Hj. destruct (decide (j = n)) as [->|]; [done|]. apply IH. lia.
    + right. exists n. split; [lia|]. done.
  - right. exists k. split; [lia|]. done.
Qed.

(** Every file has a first sector, from 0x8000, that the scan does not
    pass over: at the latest the empty one after its end. *)
Lemma first_stop file :
  ∃ k, (∀ j, (j < k)%nat → passed_over (sector_k file j))
       ∧ (getitem (sector_k file k) 0 = Ok 0x01
          ∨ getitem (sector_k file k) 0 = Ok 0xFF ∨ sector_k file k = []).
Proof.
  destruct (first_stop_below file (S (length file))) as [Hall|(k & _ & Hj & Hs)].
  - exfalso. destruct (Hall (length file)) as (t & Hg & _); [lia|].
    unfold sector_k in Hg. rewrite drop_ge in Hg by lia. by rewrite getitem_nil in Hg.
  - by exists k.
Qed.

(** *** The entries of a path table and the loop of [parse_iso] *)







(** *** The data loop of [SFO.__init__] *)

Lemma read_entry_keeps_unsigned self raw i self' :
  _read_entry self raw i = Ok self' → unsigned_fields self → unsigned_fields self'.
Proof.
  intros H. apply read_entry_fields in H as (_ & Hk & Hd & _ & Ht).
  unfold unsigned_fields. by rewrite Hk, Hd, Ht.
Qed.

(** The table loop gives entries with unsigned fields. *)
Lemma idx_table_unsigned raw n tbl :
  for_range n 0
    (λ idx tbl,
       let* e := SFOIndexTableEntry_init raw (0x14 + Z.of_nat idx * 0x10) in
       Ok (tbl ++ [e]))
    [] = Ok tbl →
  Forall (λ e, 0 ≤ key_offset e ∧ 0 ≤ data_len e ∧ 0 ≤ data_offset e) tbl.
Proof.
  intros Htbl.
  refine (for_range_invariant _
            (Forall (λ e, 0 ≤ key_offset e ∧ 0 ≤ data_len e ∧ 0 ≤ data_offset e))
            _ _ _ _ _ Htbl (Forall_nil_2 _)).
  intros i s s' Hb Hs.
  destruct (SFOIndexTableEntry_init raw _) as [e|] eqn:He; [|discriminate].
  cbn [bind] in Hb. injection Hb as <-.
  apply Forall_app. split; [done|]. apply Forall_singleton.
  apply SFOIndexTableEntry_init_inv in He as (fields & _ & _ & -> & -> & _ & ->).
  pose proof (fmt_H_range fields 0). pose proof (fmt_I_range fields 4).
  pose proof (fmt_I_range fields 12). lia.
Qed.

(** [SFO.__init__] fails on its header or on its index table, or it is
    the data loop, from a decoder with unsigned fields and an empty
    dictionary. *)
Lemma SFO_init_data_loop raw :
  (∃ e, SFO_init raw = Raise e
        ∧ (e = AssertionError ∨ e = StructError ∨ e = ValueError))
  ∨ ∃ self0,
      unsigned_fields self0 ∧ data self0 = ∅
      ∧ SFO_init raw
        = for_range (length (idx_table self0)) 0 (λ i self, _read_entry self raw i) self0.
Proof.
  unfold SFO_init. destruct (decide _); cbn [bind]; [|left; eexists; split; [done|by left]].
  destruct (unpack 4 _) as [minor|e1] eqn:Hm; cbn [bind].
  2: { unfold unpack in Hm. destruct (_ =? _); [done|]. injection Hm as <-.
       left. eexists. split; [done|]. by right; left. }
  apply unpack_inv in Hm as [_ Hl].
  assert (H8 : 8 ≤ len raw).
  { pose proof (len_slice raw 5 8 ltac:(lia) ltac:(lia)) as Hs.
    unfold len in *. rewrite length_app in Hl. simpl in Hl. lia. }
  rewrite (getitem_inside raw 4) by lia. cbn [bind].
  destruct (unpack 12 _) as [header|e1] eqn:Hh; cbn [bind].
  2: { unfold unpack in Hh. destruct (_ =? _); [done|]. injection Hh as <-.
       left. eexists. split; [done|]. by right; left. }
  destruct (for_range _ 0 _ []) as [tbl|e1] eqn:Htbl; cbn [bind].
  - right.
    match goal with |- context [for_range (length tbl) 0 _ ?s] => exists s end.
    split; [|split; [|reflexivity]]; [|done].
    split; [apply int_from_bytes_little_range|].
    split; [apply int_from_bytes_little_range|]. cbn [idx_table].
    by eapply idx_table_unsigned.
  - left. exists e1. split; [done|].
    destruct (for_range_raise_inv _ (λ _ _, True) e1 (λ _ _ _ _ _, I) _ _ _ Htbl I)
      as (j & s1 & _ & _ & Hr).
    destruct (SFOIndexTableEntry_init raw _) as [x|e2] eqn:Hi; [discriminate|].
    cbn [bind] in Hr. injection Hr as <-.
    destruct (SFOIndexTableEntry_init_raises _ _ _ Hi) as [->| ->]; auto.
Qed.

End ReportFacts.

(** ** Properties of isoparser.py *)

Module IsoTheorems.

Import IsoParser Submission Spec Fixtures PyFacts IsoFacts SubmissionFacts RecordFacts ReportFacts.

(** C1 (amended): the list that [walk_dirs] returns holds directory
    records only, a leaf file record is never added.  Where every record
    in the sector of the root and of each returned directory is shorter
    than 128 bytes, the list holds exactly the directory records
    reachable from the root: those with flag bit 0x02 at record index 2
    or more of the sector of the root or of a reachable directory, the
    records of a sector lying [record_length] bytes apart.  For the image
    of scenario A, whose root holds the single file TEST.BIN, the walk
    returns the empty list, with any fuel that lets it return. *)
Theorem walk_dirs_returns_reachable_directories fuel s root out :
  returned (walk_dirs fuel s root None) = Some (Ok out) →
  (∀ e, In e out → is_dir e = true)
  ∧ ((∀ d data, d = root ∨ In d out → sector_of (content s) d = Some data →
                short_records data) →
     ∀ e, In e out ↔ reach (content s) root e)
  ∧ (∀ fuel', (5 ≤ fuel')%nat →
       returned (walk_dirs fuel' (open scenario_a_image) root_entry None) = Some (Ok [])).
Proof.
  intros H. apply returned_inv in H as [s' H].
  split; [|split].
  - destruct (walk_spec fuel) as [Hw _]. apply Hw in H as [_ H].
    intros e He. apply H in He as [[]|He]. eauto using scan_reach_is_dir.
  - intros Hshort. by apply (walk_dirs_reach fuel s root out s').
  - intros fuel'. apply returned_walk_dirs_fuel_mono. vm_compute. reflexivity.
Qed.

Lemma walk_dirs_returns_reachable_directories_witness :
  returned (walk_dirs 20 (open tree_image) root_entry None)
  = Some (Ok [psp_game_entry; sysdir_entry])
  ∧ (∀ d data, d = root_entry ∨ In d [psp_game_entry; sysdir_entry] →
               sector_of tree_image d = Some data → short_records data)
  ∧ (∀ e, In e [psp_game_entry; sysdir_entry] ↔ reach tree_image root_entry e)
  ∧ (∀ e, In e [psp_game_entry; sysdir_entry] → is_dir e = true).
Proof.
  assert (H : returned (walk_dirs 20 (open tree_image) root_entry None)
              = Some (Ok [psp_game_entry; sysdir_entry])) by (vm_compute; reflexivity).
  assert (Hshort : ∀ d data, d = root_entry ∨ In d [psp_game_entry; sysdir_entry] →
                             sector_of tree_image d = Some data → short_records data).
  { intros d data [->|[<-|[<-|[]]]] Hs;
      apply (short_sector_checked _ _ _ 30 Hs); vm_compute; reflexivity. }
  split; [exact H|]. split; [exact Hshort|].
  pose proof (walk_dirs_returns_reachable_directories 20 (open tree_image) root_entry _ H)
    as (H1 & H2 & _).
  split; [exact (H2 Hshort) | exact H1].
Defined.

(** The claim C1 fails on scenario A: the records of the root sector are
    shorter than 128 bytes, record 2 is the file TEST.BIN, 1024 bytes at
    block 100, and the walk returns no entry. *)
Lemma scenario_a_walk_returns_no_entry :
  sector_of scenario_a_image root_entry = Some scenario_a_sector
  ∧ short_records_check 30 scenario_a_sector 0 = true
  ∧ nth_record scenario_a_sector 2 = Some test_bin_entry
  ∧ name test_bin_entry = "TEST.BIN"%string
  ∧ data_length test_bin_entry = 1024 ∧ extent test_bin_entry = 100
  ∧ parse_iso 10 scenario_a_image = Some (Ok []).
Proof. by_compute. Qed.

(** C2 (the code at the failing input): [DirEntry] decodes the record
    length as a signed byte, so a pseudo-record whose length byte [b] is
    0x80 or more moves the cursor by [b - 256], not by its record length.
    In the sector [long_self_sector] the self record is 136 bytes long
    (length byte 0x88), the parent record lies at 136 and the directory
    SUB at 170, record 2 of the sector: the cursor of the walk goes from
    0 to -120, finds a zero byte there, and the walk returns the empty
    list, although SUB is reachable from the root.  With a self record
    of 34 bytes the walk returns SUB. *)
Theorem walk_dirs_long_pseudo_record_moves_back :
  (∀ fuel s data idx i out b e,
     i < 2 → getitem data idx = Ok b → 0x80 ≤ b → DirEntry_init data idx = Ok e →
     walk_dirs_loop (S fuel) s data idx i out
     = walk_dirs_loop fuel s data (idx + b - 256) (i + 1) out)
  ∧ sector_of long_self_image root_entry = Some long_self_sector
  ∧ getitem long_self_sector 0 = Ok 0x88
  ∧ nth_record long_self_sector 0 = Some long_self_entry
  ∧ is_self long_self_entry = true
  ∧ record_offset_from long_self_sector 0 1 = Some 136
  ∧ record_offset_from long_self_sector 0 2 = Some 170
  ∧ nth_record long_self_sector 2 = Some sub_entry
  ∧ reach long_self_image root_entry sub_entry
  ∧ cursor_from long_self_sector 0 1 = Some (-120)
  ∧ getitem long_self_sector (-120) = Ok 0
  ∧ (∀ fuel, (5 ≤ fuel)%nat →
       returned (walk_dirs fuel (open long_self_image) root_entry None) = Some (Ok []))
  ∧ (∀ fuel, (10 ≤ fuel)%nat →
       returned (walk_dirs fuel (open short_self_image) root_entry None)
       = Some (Ok [sub_entry])).
Proof.
  split.
  { intros fuel s data idx i out b e Hi Hg Hb Hd.
    assert (Hrec : record_at data idx = Some e).
    { unfold record_at. rewrite Hg, Hd. destruct (Z.eqb_spec b 0); [lia|done]. }
    rewrite (walk_dirs_loop_skip _ _ _ _ _ _ e Hrec).
    - rewrite (DirEntry_length _ _ _ _ Hd Hg).
      pose proof (getitem_range _ _ _ Hg).
      rewrite to_signed_8_large by lia. f_equal. lia.
    - destruct (Z.leb_spec 2 i); [lia|]. apply andb_false_r. }
  assert (Hs : sector_of long_self_image root_entry = Some long_self_sector)
    by (vm_compute; reflexivity).
  assert (H2 : nth_record long_self_sector 2 = Some sub_entry)
    by (vm_compute; reflexivity).
  split; [exact Hs|].
  split; [vm_compute; reflexivity|].
  split; [vm_compute; reflexivity|].
  split; [vm_compute; reflexivity|].
  split; [vm_compute; reflexivity|].
  split; [vm_compute; reflexivity|].
  split; [exact H2|].
  split.
  { eapply reach_child; [exact Hs|]. exists 2%nat. split; [lia|]. split; [exact H2|].
    reflexivity. }
  split; [vm_compute; reflexivity|].
  split; [vm_compute; reflexivity|].
  split.
  - intros fuel. apply returned_walk_dirs_fuel_mono. vm_compute. reflexivity.
  - intros fuel. apply returned_walk_dirs_fuel_mono. vm_compute. reflexivity.
Qed.

Lemma walk_dirs_long_pseudo_record_moves_back_witness :
  getitem long_self_sector 0 = Ok 0x88
  ∧ DirEntry_init long_self_sector 0 = Ok long_self_entry
  ∧ ∀ fuel s out,
      walk_dirs_loop (S fuel) s long_self_sector 0 0 out
      = walk_dirs_loop fuel s long_self_sector (0 + 0x88 - 256) (0 + 1) out.
Proof.
  assert (Hg : getitem long_self_sector 0 = Ok 0x88) by (vm_compute; reflexivity).
  assert (Hd : DirEntry_init long_self_sector 0 = Ok long_self_entry)
    by (vm_compute; reflexivity).
  split; [exact Hg|]. split; [exact Hd|].
  intros fuel s out.
  destruct walk_dirs_long_pseudo_record_moves_back as (H & _).
  apply (H fuel s long_self_sector 0 0 out 0x88 long_self_entry).
  - lia.
  - exact Hg.
  - lia.
  - exact Hd.
Defined.

(** C5 (the code at the failing input): [DirEntry] decodes the record
    length as a signed byte, so a length byte [b] of 0x80 or more moves
    the cursor back by [256 - b] and the loop goes on.  In the sector
    [backward_sector] the record at 0 has length 100 and the record at 100
    has the length byte 0x9c, which is -100: the cursor goes from 0 to 100
    and back for ever, and the walk returns for no amount of fuel. *)
Theorem walk_dirs_cursor_moves_backward :
  (∀ fuel s data idx i out b e,
     getitem data idx = Ok b → 0x80 ≤ b → DirEntry_init data idx = Ok e →
     is_dir e && (2 <=? i) = false →
     walk_dirs_loop (S fuel) s data idx i out
     = walk_dirs_loop fuel s data (idx - (256 - b)) (i + 1) out)
  ∧ getitem backward_sector 100 = Ok 0x9c
  ∧ cursor_from backward_sector 0 1 = Some 100
  ∧ cursor_from backward_sector 0 2 = Some 0
  ∧ (∀ fuel, walk_dirs fuel (open backward_image) root_entry None = None).
Proof.
  split; [|split; [|split; [|split]]].
  - intros fuel s data idx i out b e Hg Hb Hd Hc.
    assert (Hrec : record_at data idx = Some e).
    { unfold record_at. rewrite Hg, Hd. destruct (Z.eqb_spec b 0); [lia|done]. }
    rewrite (walk_dirs_loop_skip _ _ _ _ _ _ e Hrec Hc).
    rewrite (DirEntry_length _ _ _ _ Hd Hg).
    pose proof (getitem_range _ _ _ Hg).
    rewrite to_signed_8_large by lia. f_equal. lia.
  - vm_compute. reflexivity.
  - vm_compute. reflexivity.
  - vm_compute. reflexivity.
  - intros [|fuel]; [done|].
    rewrite (walk_dirs_sector _ _ _ _ backward_sector) by (vm_compute; reflexivity).
    apply backward_sector_cycle.
Qed.

Lemma walk_dirs_cursor_moves_backward_witness :
  getitem backward_sector 100 = Ok 0x9c
  ∧ DirEntry_init backward_sector 100 = Ok backward_record
  ∧ ∀ fuel s out,
      walk_dirs_loop (S fuel) s backward_sector 100 1 out
      = walk_dirs_loop fuel s backward_sector (100 - (256 - 0x9c)) (1 + 1) out.
Proof.
  assert (Hg : getitem backward_sector 100 = Ok 0x9c) by (vm_compute; reflexivity).
  assert (Hd : DirEntry_init backward_sector 100 = Ok backward_record)
    by (vm_compute; reflexivity).
  split; [exact Hg|]. split; [exact Hd|].
  intros fuel s out.
  destruct walk_dirs_cursor_moves_backward as (H & _).
  apply (H fuel s backward_sector 100 1 out 0x9c backward_record Hg).
  - lia.
  - exact Hd.
  - reflexivity.
Defined.

(** C6 (amended): the scan of a sector stops cleanly in one case only,
    a zero byte under the cursor: it then returns what it has gathered,
    so a sector that begins with a zero byte yields no entry.  A scan that
    returns has always come to such a byte.  A cursor at or beyond the end
    of the sector does not stop the scan: the read of the byte under it
    raises IndexError. *)
Theorem walk_dirs_loop_stops_at_zero_byte_only :
  (∀ fuel s data idx i out,
     getitem data idx = Ok 0 →
     walk_dirs_loop (S fuel) s data idx i out = Some (Ok (out, s)))
  ∧ (∀ fuel s d data,
       sector_of (content s) d = Some data → getitem data 0 = Ok 0 →
       returned (walk_dirs (S (S fuel)) s d None) = Some (Ok []))
  ∧ (∀ fuel s data idx i out r,
       walk_dirs_loop fuel s data idx i out = Some (Ok r) →
       ∃ n c, cursor_from data idx n = Some c ∧ getitem data c = Ok 0)
  ∧ (∀ fuel s data idx i out,
       len data ≤ idx →
       walk_dirs_loop (S fuel) s data idx i out = Some (Raise IndexError)).
Proof.
  assert (Hzero : ∀ fuel s data idx i out,
     getitem data idx = Ok 0 →
     walk_dirs_loop (S fuel) s data idx i out = Some (Ok (out, s))).
  { intros fuel s data idx i out H. rewrite walk_dirs_loop_eq, H. reflexivity. }
  split; [exact Hzero|]. split; [|split].
  - intros fuel s d data Hs H0. rewrite (walk_dirs_sector _ _ _ _ _ Hs).
    rewrite (Hzero _ _ _ _ _ _ H0). reflexivity.
  - intros fuel. apply walk_dirs_loop_ends_at_zero.
  - intros fuel s data idx i out H. rewrite walk_dirs_loop_eq.
    rewrite (getitem_past_end _ _ H). reflexivity.
Qed.

Lemma walk_dirs_loop_stops_at_zero_byte_only_witness :
  returned (walk_dirs 2 (open (image_of (zeros 2048))) root_entry None) = Some (Ok [])
  ∧ walk_dirs_loop 1 (open full_image) full_sector 2048 47 [] = Some (Raise IndexError).
Proof.
  destruct walk_dirs_loop_stops_at_zero_byte_only as (_ & H1 & _ & H3).
  split.
  - apply (H1 0%nat (open (image_of (zeros 2048))) root_entry (zeros 2048)).
    + vm_compute. reflexivity.
    + vm_compute. reflexivity.
  - apply H3. vm_compute. discriminate.
Defined.

(** The claim C6 fails on a sector that its records fill to the last
    byte: after the 47 records the cursor is at 2048, the size of the
    sector, no zero byte was met, and the walk does not stop there but
    raises IndexError. *)
Lemma full_sector_walk_raises :
  len full_sector = 2048
  ∧ sector_of full_image root_entry = Some full_sector
  ∧ cursor_from full_sector 0 47 = Some 2048
  ∧ returned (walk_dirs 60 (open full_image) root_entry None) = Some (Raise IndexError)
  ∧ parse_iso 60 full_image = Some (Raise IndexError).
Proof. by_compute. Qed.




(** C9 (amended): on every byte source the scan from 0x8000 returns: it
    passes over the sectors whose type byte is neither 0x01 nor 0xFF, one
    read each, whatever their number; at the first other sector, number
    [k], it decodes the descriptor when the type byte is 0x01, raises
    "Could not find PVD" when it is 0xFF, and raises IndexError on the
    empty read when the source ends there.  The number of sectors read is
    bounded by the length of the source and by nothing else. *)
Theorem pvd_scan_is_bounded_by_the_source_only (f : stream) (k : nat) :
  (∀ j, (j < k)%nat → passed_over (sector_k (content f) j)) →
  get_pvd_header f ≠ None ∧ get_pvd_dump f ≠ None
  ∧ 0x800 * Z.of_nat k < Z.max 0 (len (content f) - 0x8000) + 0x800
  ∧ (getitem (sector_k (content f) k) 0 = Ok 0x01 →
     returned (get_pvd_header f) = Some (IsoHeader_init (sector_k (content f) k))
     ∧ returned (get_pvd_dump f) = Some (pvd_fields (sector_k (content f) k)))
  ∧ (getitem (sector_k (content f) k) 0 = Ok 0xFF →
     get_pvd_header f = Some (Raise (Exception "Could not find PVD"))
     ∧ get_pvd_dump f = Some (Raise (Exception "Could not find PVD")))
  ∧ (sector_k (content f) k = [] →
     get_pvd_header f = Some (Raise IndexError)
     ∧ get_pvd_dump f = Some (Raise IndexError)).
Proof.
  intros Hj. unfold get_pvd_header, get_pvd_dump.
  destruct (pvd_scan_outcome IsoHeader_init f k Hj) as (H1 & H2 & H3).
  destruct (pvd_scan_outcome pvd_fields f k Hj) as (D1 & D2 & D3).
  split; [apply pvd_scan_total|]. split; [apply pvd_scan_total|].
  split.
  { destruct k as [|k]; [lia|].
    pose proof (passed_over_nonempty _ k (Hj k ltac:(lia))). lia. }
  repeat split; auto.
Qed.

Lemma pvd_scan_is_bounded_by_the_source_only_witness :
  (∀ j, (j < 1)%nat → passed_over (sector_k (zeros 0x8800 ++ terminator_sector) j))
  ∧ get_pvd_header (open (zeros 0x8800 ++ terminator_sector))
    = Some (Raise (Exception "Could not find PVD"))
  ∧ get_pvd_dump (open (zeros 0x8800 ++ terminator_sector))
    = Some (Raise (Exception "Could not find PVD")).
Proof.
  assert (H : ∀ j, (j < 1)%nat →
                passed_over (sector_k (content (open (zeros 0x8800 ++ terminator_sector))) j)).
  { intros j Hlt. assert (j = 0%nat) as -> by lia. exists 0.
    split; [vm_compute; reflexivity|]. split; discriminate. }
  split; [exact H|].
  destruct (pvd_scan_is_bounded_by_the_source_only _ 1 H) as (_ & _ & _ & _ & H2 & _).
  apply H2. vm_compute. reflexivity.
Defined.

(** The claim C9 fails: a primary volume descriptor that is sector 200
    from 0x8000, after 200 sectors that begin with a zero, is found and
    decoded, so the scan read 201 sectors and did not fail; and on a
    source that ends after one sector of zeros the scan ends with the
    fault of an index out of range. *)
Lemma pvd_scan_reads_201_sectors :
  sector_k late_pvd_image 200 = pvd_sector 20 10 18 19
  ∧ (∀ j, (j < 200)%nat → getitem (sector_k late_pvd_image j) 0 = Ok 0)
  ∧ returned (get_pvd_header (open late_pvd_image)) = Some (Ok header_20_10)
  ∧ get_pvd_header (open truncated_image) = Some (Raise IndexError)
  ∧ get_pvd_dump (open truncated_image) = Some (Raise IndexError).
Proof.
  assert (E : late_pvd_image
              = zeros (0x8000 + 0x800 * Z.of_nat 200) ++ pvd_sector 20 10 18 19
                ++ terminator_sector) by reflexivity.
  split; [|split; [|split; [|split]]].
  - rewrite E. apply sector_k_after_zeros. vm_compute. reflexivity.
  - intros j Hj. rewrite E. apply sector_k_zeros. lia.
  - rewrite E. apply late_pvd_is_found.
  - vm_compute. reflexivity.
  - vm_compute. reflexivity.
Qed.

End IsoTheorems.

(** ** Properties of umdb_gen_submission.py *)

Module SubmissionTheorems.

Import IsoParser Submission Spec Fixtures PyFacts IsoFacts SubmissionFacts RecordFacts ReportFacts.

(** C3 (amended): a buffer that [SFO] decodes holds its whole index
    table, for an entry that does not fit makes [struct.unpack] fail; but
    the key and data spans are not checked, and there is no error for a
    span that leaves the buffer: each span is cut to the bytes of the
    buffer that lie in it, none when it begins at or after the end, and
    the entry is decoded from them.  The decoding of an entry of the
    table fails, with UnicodeDecodeError, exactly when the bytes left of
    its key span, or of its data span when the format is not Int32, are
    not valid UTF-8, as when the end of the buffer cuts a character of two
    bytes; otherwise the key and the value are made from the bytes left:
    the empty key, the integer 0 or the empty text when there is none.
    The decoder comes to its entries in a loop over the table, from a
    state whose offsets and lengths are unsigned fields, none negative,
    and every pass keeps them. *)
Theorem SFO_spans_are_clipped raw self idx entry :
  idx_table self !! idx = Some entry → unsigned_fields self →
  let k_start := key_table_start self + key_offset entry in
  let d_start := data_table_start self + data_offset entry in
  let key_bytes := bytes_between raw k_start (key_span_end self idx) in
  let data_bytes := bytes_between raw d_start (d_start + data_len entry) in
  (utf8_valid key_bytes = true →
   data_fmt entry = INT32 ∨ utf8_valid data_bytes = true →
   ∃ self', _read_entry self raw idx = Ok self'
            ∧ data self' = <[rstrip_nul (string_of_list_byte key_bytes)
                             := value_of_span (data_fmt entry) data_bytes]> (data self))
  ∧ (utf8_valid key_bytes = false
     ∨ (data_fmt entry ≠ INT32 ∧ utf8_valid data_bytes = false) →
     _read_entry self raw idx = Raise UnicodeDecodeError)
  ∧ (len raw ≤ k_start → key_bytes = [])
  ∧ (len raw ≤ d_start →
     data_bytes = []
     ∧ value_of_span (data_fmt entry) data_bytes
       = match data_fmt entry with INT32 => VInt 0 | _ => VStr "" end)
  ∧ (len raw ≤ d_start + data_len entry → data_bytes = drop (Z.to_nat d_start) raw)
  ∧ (∀ sfo, SFO_init raw = Ok sfo →
            0 ≤ table_entries sfo ∧ 0x14 + 0x10 * table_entries sfo ≤ len raw
            ∧ unsigned_fields sfo)
  ∧ ((∃ e, SFO_init raw = Raise e
           ∧ (e = AssertionError ∨ e = StructError ∨ e = ValueError))
     ∨ ∃ self0,
         unsigned_fields self0 ∧ data self0 = ∅
         ∧ SFO_init raw
           = for_range (length (idx_table self0)) 0
               (λ i self, _read_entry self raw i) self0)
  ∧ (∀ s i s', _read_entry s raw i = Ok s' → unsigned_fields s →
               unsigned_fields s' ∧ idx_table s' = idx_table s)
  ∧ sfo_info no_index_sfo = Raise StructError
  ∧ sfo_info outside_sfo = Ok ("1.1"%string, {[ "TITLE"%string := VStr "" ]})
  ∧ sfo_info overlong_sfo = Ok ("1.1"%string, {[ "TITLE"%string := VStr "ME" ]})
  ∧ sfo_info whole_utf8_sfo
    = Ok ("1.1"%string,
          {[ "TITLE"%string := VStr (string_of_list_byte [x50; x6f; x6b; xc3; xa9]) ]})
  ∧ sfo_info cut_utf8_sfo = Raise UnicodeDecodeError.
Proof.
  intros He Hu. cbn zeta.
  destruct (unsigned_fields_entry _ _ _ Hu He) as (Hk & Hl & Ho).
  pose proof Hu as (Hks & Hds & _).
  pose proof (read_entry_outcome self raw idx entry He Hu) as Hr. cbn zeta in Hr.
  unfold decode_utf8 in Hr.
  split; [|split; [|split; [|split; [|split; [|split; [|split; [|split]]]]]]].
  - intros Hkey Hdata. rewrite Hkey in Hr. cbn [bind] in Hr.
    destruct (data_fmt entry) eqn:Hf.
    + destruct Hdata as [|Hdata]; [done|]. rewrite Hdata in Hr. cbn [bind] in Hr.
      eexists. split; [exact Hr|]. reflexivity.
    + destruct Hdata as [|Hdata]; [done|]. rewrite Hdata in Hr. cbn [bind] in Hr.
      eexists. split; [exact Hr|]. reflexivity.
    + cbn [bind] in Hr. eexists. split; [exact Hr|]. reflexivity.
  - intros [Hkey|[Hf Hdata]].
    + by rewrite Hkey in Hr.
    + destruct (utf8_valid (bytes_between raw _ (key_span_end self idx)));
        cbn [bind] in Hr; [|done].
      rewrite Hdata in Hr. destruct (data_fmt entry); done.
  - apply bytes_between_outside.
  - intros Hout. rewrite bytes_between_outside by done.
    split; [done|]. by destruct (data_fmt entry).
  - intros Hcut. apply bytes_between_cut; lia.
  - intros sfo H. split; [|split; [|by eapply SFO_init_unsigned]].
    + apply SFO_init_inv in H
        as (minor & major & header & _ & _ & _ & _ & _ & _ & _ & -> & _).
      apply int_from_bytes_little_range.
    + apply SFO_init_inv in H
        as (minor & major & header & _ & _ & _ & Hh & _ & _ & _ & -> & Htbl).
      pose proof (int_from_bytes_little_range (field header 8 4)) as [Hn _].
      fold (fmt_I header 8) in Hn.
      apply unpack_inv in Hh as [_ Hlen]. rewrite len_slice in Hlen by lia.
      destruct (Z.to_nat (fmt_I header 8)) as [|m] eqn:Hm.
      * assert (fmt_I header 8 = 0) as -> by lia. lia.
      * apply for_range_last in Htbl as (s1 & s2 & Hb). simpl in Hb.
        destruct (SFOIndexTableEntry_init raw (20 + Z.of_nat m * 16)) as [e|] eqn:Hi;
          [|discriminate].
        apply entry_init_inside in Hi; lia.
  - apply SFO_init_data_loop.
  - intros s i s' H Hs. split; [by eapply read_entry_keeps_unsigned|].
    by apply read_entry_fields in H as (_ & _ & _ & _ & ?).
  - by_compute.
Qed.

Lemma SFO_spans_are_clipped_witness :
  idx_table utf8_before !! 0%nat = Some utf8_entry
  ∧ unsigned_fields utf8_before
  ∧ bytes_between cut_utf8_sfo (0x2c + 0) (0x2c + 0 + 5) = [x50; x6f; x6b; xc3]
  ∧ _read_entry utf8_before cut_utf8_sfo 0 = Raise UnicodeDecodeError
  ∧ ∃ self', _read_entry utf8_before whole_utf8_sfo 0 = Ok self'
             ∧ data self'
               = <[rstrip_nul
                     (string_of_list_byte
                        (bytes_between whole_utf8_sfo (0x24 + 0) (key_span_end utf8_before 0)))
                   := value_of_span UTF8
                        (bytes_between whole_utf8_sfo (0x2c + 0) (0x2c + 0 + 5))]> ∅.
Proof.
  assert (He : idx_table utf8_before !! 0%nat = Some utf8_entry) by reflexivity.
  assert (Hu : unsigned_fields utf8_before).
  { split; [vm_compute; discriminate|]. split; [vm_compute; discriminate|].
    apply Forall_singleton. vm_compute. repeat split; discriminate. }
  split; [exact He|]. split; [exact Hu|]. split; [vm_compute; reflexivity|].
  split.
  - destruct (SFO_spans_are_clipped cut_utf8_sfo utf8_before 0 utf8_entry He Hu)
      as (_ & H & _).
    apply H. right. split; [discriminate|vm_compute; reflexivity].
  - destruct (SFO_spans_are_clipped whole_utf8_sfo utf8_before 0 utf8_entry He Hu)
      as (H & _).
    apply H; [vm_compute; reflexivity|right; vm_compute; reflexivity].
Defined.

(** The claim C3 fails on the buffer of scenario B with the data offset
    0x1000, far outside its 52 bytes, and with the data length 100, which
    runs beyond its end: both decode, to the empty text and to the text of
    the bytes that are left. *)
Lemma sfo_span_outside_buffer_is_decoded :
  len outside_sfo = 52
  ∧ sfo_info outside_sfo = Ok ("1.1"%string, {[ "TITLE"%string := VStr "" ]})
  ∧ len overlong_sfo = 52
  ∧ sfo_info overlong_sfo = Ok ("1.1"%string, {[ "TITLE"%string := VStr "ME" ]}).
Proof. by_compute. Qed.

(** C7 (amended): [decode_string] returns the ASCII text of the window
    with the ASCII whitespace removed from its two ends and nothing else.
    Leading whitespace is removed as trailing whitespace is, and a NUL is
    not whitespace: NUL bytes stay where they are, at the end too. *)
Theorem decode_string_strips_whitespace raw offset size s :
  decode_string raw offset size = Ok s →
  (∃ w lead trail,
     unpack_from size raw offset = Ok w
     ∧ string_of_list_byte w = (lead +:+ s +:+ trail)%string
     ∧ all_chars isspace lead = true ∧ all_chars isspace trail = true
     ∧ trimmed isspace s)
  ∧ (∀ c, is_nul c = true → isspace c = false).
Proof.
  unfold decode_string. intros H. split.
  - destruct (size <? 0); [discriminate|].
    destruct (unpack_from size raw offset) as [w|]; [|discriminate]. cbn [bind] in H.
    unfold decode_ascii in H. destruct (forallb _ w); [|discriminate]. cbn [bind] in H.
    injection H as <-.
    destruct (strip_spec (string_of_list_byte w)) as (lead & trail & Hs & Hl & Ht & Htr).
    exists w, lead, trail. done.
  - intros c Hc. unfold is_nul in Hc. unfold isspace.
    apply N.eqb_eq in Hc as ->. reflexivity.
Qed.

Lemma decode_string_strips_whitespace_witness :
  decode_string (list_byte_of_string " UMD  ") 0 6 = Ok "UMD"%string
  ∧ ∃ w lead trail,
      unpack_from 6 (list_byte_of_string " UMD  ") 0 = Ok w
      ∧ string_of_list_byte w = (lead +:+ "UMD" +:+ trail)%string
      ∧ all_chars isspace lead = true ∧ all_chars isspace trail = true
      ∧ trimmed isspace "UMD".
Proof.
  assert (H : decode_string (list_byte_of_string " UMD  ") 0 6 = Ok "UMD"%string)
    by (vm_compute; reflexivity).
  split; [exact H|].
  exact (proj1 (decode_string_strips_whitespace _ _ _ _ H)).
Defined.

(** The claim C7 fails on the window of two spaces, [AB] and two NUL
    bytes: the leading spaces are removed and the trailing NUL bytes are
    kept. *)
Lemma decode_string_keeps_nul_and_drops_leading_space :
  decode_string (list_byte_of_string "  AB" ++ [x00; x00]) 0 6
  = Ok (String "A" (String "B" (String "000" (String "000" EmptyString)))).
Proof. vm_compute. reflexivity. Qed.



(** C10 (amended): for an entry of format Int32, [_read_entry] stores the
    little-endian unsigned integer of the bytes of the buffer that lie in
    the data span, as many as there are and not four: the [data_len]
    bytes at the data offset when the span lies in the buffer, the bytes
    that are left when the buffer ends before the span does, and none
    when the span begins at or after the end of the buffer.  No byte
    gives 0, and more than four bytes can give 2^32 or more, as the five
    bytes 00 00 00 00 01 do. *)
Theorem read_entry_int32_takes_data_len_bytes raw self idx entry :
  idx_table self !! idx = Some entry → data_fmt entry = INT32 → unsigned_fields self →
  utf8_valid (bytes_between raw (key_table_start self + key_offset entry)
                (key_span_end self idx)) = true →
  let d_start := data_table_start self + data_offset entry in
  let bs := bytes_between raw d_start (d_start + data_len entry) in
  (∃ self' key, _read_entry self raw idx = Ok self'
                ∧ data self' = <[key := VInt (int_from_bytes_little bs)]> (data self))
  ∧ len bs = Z.max 0 (Z.min (data_len entry) (len raw - d_start))
  ∧ 0 ≤ int_from_bytes_little bs < 256 ^ len bs
  ∧ (d_start + data_len entry ≤ len raw →
     bs = take (Z.to_nat (data_len entry)) (drop (Z.to_nat d_start) raw)
     ∧ len bs = data_len entry)
  ∧ (len raw ≤ d_start + data_len entry →
     bs = drop (Z.to_nat d_start) raw ∧ len bs = Z.max 0 (len raw - d_start))
  ∧ (data_len entry = 0 → int_from_bytes_little bs = 0)
  ∧ sfo_info empty_int_sfo = Ok ("1.1"%string, {[ "TITLE"%string := VInt 0 ]})
  ∧ sfo_info wide_int_sfo = Ok ("1.1"%string, {[ "TITLE"%string := VInt (2 ^ 32) ]}).
Proof.
  intros He Hf Hu Hkey. cbn zeta.
  destruct (unsigned_fields_entry _ _ _ Hu He) as (Hk & Hl & Ho).
  pose proof Hu as (Hks & Hds & _).
  pose proof (read_entry_outcome self raw idx entry He Hu) as Hr. cbn zeta in Hr.
  unfold decode_utf8 in Hr. rewrite Hkey, Hf in Hr. cbn [bind] in Hr.
  set (d_start := data_table_start self + data_offset entry) in *.
  assert (Hd : 0 ≤ d_start) by (unfold d_start; lia). clearbody d_start.
  pose proof (len_bytes_between raw d_start (data_len entry) Hd Hl) as Hlen.
  pose proof (int_from_bytes_little_range
                (bytes_between raw d_start (d_start + data_len entry))) as Hrange.
  split; [|split; [|split; [|split; [|split; [|split]]]]].
  - eexists _, _. split; [exact Hr|]. reflexivity.
  - exact Hlen.
  - exact Hrange.
  - intros Hin. split; [by apply bytes_between_inside|]. rewrite Hlen. lia.
  - intros Hcut. split; [apply bytes_between_cut; lia|]. rewrite Hlen. lia.
  - intros H0. rewrite Hlen in Hrange. rewrite H0 in Hrange |- *.
    pose proof (len_nonneg raw).
    assert (H1 : Z.max 0 (Z.min 0 (len raw - d_start)) = 0) by lia.
    rewrite H1 in Hrange. change (256 ^ 0) with 1 in Hrange. lia.
  - by_compute.
Qed.

Lemma read_entry_int32_takes_data_len_bytes_witness :
  idx_table short_int_before !! 0%nat = Some short_int_entry
  ∧ unsigned_fields short_int_before
  ∧ (∃ self' key,
       _read_entry short_int_before short_int_sfo 0 = Ok self'
       ∧ data self'
         = <[key := VInt (int_from_bytes_little
                            (bytes_between short_int_sfo (0x2c + 0) (0x2c + 0 + 8)))]> ∅)
  ∧ len (bytes_between short_int_sfo (0x2c + 0) (0x2c + 0 + 8))
    = Z.max 0 (Z.min 8 (len short_int_sfo - (0x2c + 0))).
Proof.
  assert (He : idx_table short_int_before !! 0%nat = Some short_int_entry) by reflexivity.
  assert (Hu : unsigned_fields short_int_before).
  { split; [vm_compute; discriminate|]. split; [vm_compute; discriminate|].
    apply Forall_singleton. vm_compute. repeat split; discriminate. }
  split; [exact He|]. split; [exact Hu|].
  destruct (read_entry_int32_takes_data_len_bytes
              short_int_sfo short_int_before 0 short_int_entry He eq_refl Hu)
    as (H1 & H2 & _).
  - vm_compute. reflexivity.
  - split; [exact H1 | exact H2].
Defined.

(** The claim C10 fails on an entry of format Int32 with the data length
    8 in a buffer that ends 4 bytes after the data offset: the value is
    the integer of the 4 bytes 05 06 07 08 that are left, the one that the
    same entry gives with the data length 4, and not an integer of 8
    bytes. *)
Lemma int32_span_cut_by_the_buffer :
  len short_int_sfo = 48
  ∧ SFO_init short_int_sfo = Ok short_int_decoded
  ∧ idx_table short_int_decoded = [short_int_entry]
  ∧ data_fmt short_int_entry = INT32 ∧ data_len short_int_entry = 8
  ∧ data_table_start short_int_decoded + data_offset short_int_entry = 44
  ∧ take 8 (drop 44 short_int_sfo) = [x05; x06; x07; x08]
  ∧ sfo_info short_int_sfo = Ok ("1.1"%string, {[ "TITLE"%string := VInt 134678021 ]})
  ∧ sfo_info four_int_sfo = Ok ("1.1"%string, {[ "TITLE"%string := VInt 134678021 ]})
  ∧ int_from_bytes_little [x05; x06; x07; x08] = 134678021.
Proof. by_compute. Qed.

End SubmissionTheorems.

(** ** Decoding, failures and composition in isoparser.py *)

Module IsoProperties.

Import IsoParser Submission Spec Fixtures PyFacts IsoFacts SubmissionFacts RecordFacts.

(** X1: a directory record that [DirEntry] decodes at an offset that is
    not negative lies in the buffer, header and name: nothing is read past
    the end.  Its name has the [name_len] bytes that follow the header, at
    most 127, and every integer field has the range of its signed
    format: the eight fields of one byte, the two of four bytes and the
    one of two bytes. *)
Theorem DirEntry_init_in_bounds raw offset e :
  DirEntry_init raw offset = Ok e → 0 ≤ offset →
  offset + 33 + name_len e ≤ len raw
  ∧ 0 ≤ name_len e < 128
  ∧ Z.of_nat (String.length (name e)) = name_len e
  ∧ name e = string_of_list_byte (slice raw (offset + 33) (offset + 33 + name_len e))
  ∧ -128 ≤ length_ e < 128 ∧ -128 ≤ flags e < 128
  ∧ - 2 ^ 31 ≤ extent e < 2 ^ 31 ∧ - 2 ^ 31 ≤ data_length e < 2 ^ 31
  ∧ -32768 ≤ seqnum e < 32768
  ∧ -128 ≤ ext_length e < 128
  ∧ -128 ≤ unit_size e < 128 ∧ -128 ≤ interleave_size e < 128
  ∧ len (datetime e) = 7.
Proof.
  intros H Ho.
  apply DirEntry_init_inv in H
    as (header & raw_name & Hh & Hn0 & Hn & Ha & -> & -> & -> & -> & -> & -> & -> & -> & -> & ->).
  pose proof (fmt_b_range header 32) as Hr.
  apply unpack_from_inv in Hh as [Hlh _]; [|lia].
  apply unpack_from_inv in Hn as [Hln Hn2]; [|lia].
  destruct Hn2 as [Hfit Hnw]; [lia|].
  apply decode_ascii_inv in Ha as [-> _].
  split; [lia|]. split; [lia|]. split.
  { rewrite length_string_of_list_byte. unfold len in Hln. lia. }
  split.
  { f_equal. rewrite slice_inside by lia. rewrite Hnw. f_equal. lia. }
  split; [apply fmt_b_range|]. split; [apply fmt_b_range|].
  split; [apply fmt_i_range|]. split; [apply fmt_i_range|].
  split; [apply fmt_h_range|].
  split; [apply fmt_b_range|]. split; [apply fmt_b_range|]. split; [apply fmt_b_range|].
  unfold field, len in *. rewrite length_take, length_drop. lia.
Qed.

Lemma DirEntry_init_in_bounds_witness :
  DirEntry_init scenario_a_sector 68 = Ok test_bin_entry
  ∧ 68 + 33 + name_len test_bin_entry ≤ len scenario_a_sector
  ∧ Z.of_nat (String.length (name test_bin_entry)) = name_len test_bin_entry.
Proof.
  assert (H : DirEntry_init scenario_a_sector 68 = Ok test_bin_entry)
    by (vm_compute; reflexivity).
  split; [exact H|].
  destruct (DirEntry_init_in_bounds _ _ _ H) as (H1 & _ & H2 & _); [lia|].
  split; [exact H1 | exact H2].
Defined.

(** X2: how [DirEntry] fails at an offset that is not negative.  A header
    of 33 bytes that does not fit, a name-length byte of 0x80 or more
    (a negative length) and a name that does not fit raise struct.error;
    a name with a byte of 0x80 or more raises UnicodeDecodeError; every
    other record decodes. *)
Theorem DirEntry_init_failures raw offset :
  0 ≤ offset →
  (len raw < offset + 33 → DirEntry_init raw offset = Raise StructError)
  ∧ (∀ n, offset + 33 ≤ len raw → getitem raw (offset + 32) = Ok n →
       (128 ≤ n → DirEntry_init raw offset = Raise StructError)
       ∧ (n < 128 → len raw < offset + 33 + n →
          DirEntry_init raw offset = Raise StructError)
       ∧ (n < 128 → offset + 33 + n ≤ len raw →
          forallb (λ b, b2z b <? 128) (slice raw (offset + 33) (offset + 33 + n)) = false →
          DirEntry_init raw offset = Raise UnicodeDecodeError)
       ∧ (n < 128 → offset + 33 + n ≤ len raw →
          forallb (λ b, b2z b <? 128) (slice raw (offset + 33) (offset + 33 + n)) = true →
          ∃ e, DirEntry_init raw offset = Ok e ∧ name_len e = n)).
Proof.
  intros Ho. split.
  { intros Hs. by apply DirEntry_init_short. }
  intros n Hfit Hg. unfold DirEntry_init.
  rewrite unpack_from_ok by lia. cbn [bind].
  pose proof (getitem_range _ _ _ Hg) as Hn.
  assert (Hb : fmt_b (take (Z.to_nat 33) (drop (Z.to_nat offset) raw)) 32
               = to_signed 8 n).
  { unfold fmt_b. f_equal. apply fmt_B_window; [lia|].
    rewrite <- Hg. f_equal. lia. }
  rewrite Hb. split; [|split; [|split]].
  - intros Hbig. rewrite to_signed_8_large by lia.
    destruct (Z.ltb_spec (n - 256) 0); [done|lia].
  - intros Hsmall Hshort. rewrite to_signed_8_small by lia.
    destruct (Z.ltb_spec n 0); [lia|]. by rewrite unpack_from_short by lia.
  - intros Hsmall Hin Hascii. rewrite to_signed_8_small by lia.
    destruct (Z.ltb_spec n 0); [lia|]. rewrite unpack_from_ok by lia. cbn [bind].
    rewrite slice_inside in Hascii by lia.
    replace (Z.to_nat (offset + 33 + n - (offset + 33))) with (Z.to_nat n) in Hascii by lia.
    unfold decode_ascii. by rewrite Hascii.
  - intros Hsmall Hin Hascii. rewrite to_signed_8_small by lia.
    destruct (Z.ltb_spec n 0); [lia|]. rewrite unpack_from_ok by lia. cbn [bind].
    rewrite slice_inside in Hascii by lia.
    replace (Z.to_nat (offset + 33 + n - (offset + 33))) with (Z.to_nat n) in Hascii by lia.
    unfold decode_ascii. rewrite Hascii. cbn [bind]. eexists. split; [reflexivity|].
    reflexivity.
Qed.

Lemma DirEntry_init_failures_witness :
  DirEntry_init (take 100 scenario_a_sector) 68 = Raise StructError
  ∧ DirEntry_init (take 105 scenario_a_sector) 68 = Raise StructError.
Proof.
  destruct (DirEntry_init_failures (take 100 scenario_a_sector) 68) as [H1 _]; [lia|].
  destruct (DirEntry_init_failures (take 105 scenario_a_sector) 68) as [_ H2]; [lia|].
  split.
  - apply H1. vm_compute. reflexivity.
  - destruct (H2 8) as (_ & H3 & _).
    + vm_compute. discriminate.
    + vm_compute. reflexivity.
    + apply H3; [lia|]. vm_compute. reflexivity.
Defined.

(** X3: [IsoHeader] needs the root directory record: a sector of fewer
    than 189 bytes raises struct.error, and a header that is decoded has
    as root directory the record decoded at 0x9c, which lies in the
    sector, with a block size in the range of a signed 16-bit integer. *)
Theorem IsoHeader_init_needs_root_record pvd :
  (len pvd < 189 → IsoHeader_init pvd = Raise StructError)
  ∧ (∀ h, IsoHeader_init pvd = Ok h →
          DirEntry_init pvd 0x9c = Ok (root_dir h)
          ∧ 189 + name_len (root_dir h) ≤ len pvd
          ∧ -32768 ≤ block_size h < 32768
          ∧ - 2 ^ 31 ≤ path_table_size h < 2 ^ 31
          ∧ - 2 ^ 31 ≤ l_table_off h < 2 ^ 31).
Proof.
  split.
  - intros Hs. unfold IsoHeader_init.
    destruct (Z.lt_ge_cases (len pvd) 136).
    { by rewrite unpack_from_short by lia. }
    rewrite (unpack_from_ok 56) by lia. cbn [bind].
    destruct (Z.lt_ge_cases (len pvd) 148).
    { by rewrite unpack_from_short by lia. }
    rewrite (unpack_from_ok 8) by lia. cbn [bind].
    by rewrite DirEntry_init_short by lia.
  - intros h H. unfold IsoHeader_init in H.
    destruct (unpack_from 56 pvd 80) as [vol_info|]; [|discriminate]. cbn [bind] in H.
    destruct (unpack_from 8 pvd 140) as [l_table|]; [|discriminate]. cbn [bind] in H.
    destruct (DirEntry_init pvd 156) as [root|] eqn:Hr; [|discriminate]. cbn [bind] in H.
    injection H as <-. cbn [root_dir block_size path_table_size l_table_off].
    split; [done|].
    pose proof (DirEntry_init_fits _ _ _ Hr ltac:(lia)) as Hb.
    split; [lia|]. split; [apply fmt_h_range|]. split; apply fmt_i_range.
Qed.

Lemma IsoHeader_init_needs_root_record_witness :
  IsoHeader_init (take 188 (pvd_sector 20 10 18 19)) = Raise StructError
  ∧ IsoHeader_init (pvd_sector 20 10 18 19) = Ok header_20_10
  ∧ 189 + name_len (root_dir header_20_10) ≤ len (pvd_sector 20 10 18 19).
Proof.
  destruct (IsoHeader_init_needs_root_record (take 188 (pvd_sector 20 10 18 19)))
    as [H1 _].
  destruct (IsoHeader_init_needs_root_record (pvd_sector 20 10 18 19)) as [_ H2].
  assert (H : IsoHeader_init (pvd_sector 20 10 18 19) = Ok header_20_10)
    by (vm_compute; reflexivity).
  split; [apply H1; vm_compute; reflexivity|]. split; [exact H|].
  exact (proj1 (proj2 (H2 _ H))).
Defined.

Lemma PathTableEntry_size_even e :
  PathTableEntry_size e mod 2 = 0
  ∧ 8 + pt_len e ≤ PathTableEntry_size e ≤ 9 + pt_len e.
Proof.
  unfold PathTableEntry_size. pose proof (Z.mod_pos_bound (8 + pt_len e) 2).
  destruct (Z.eqb_spec ((8 + pt_len e) mod 2) 0) as [E|E].
  - split; [done|lia].
  - split; [|lia]. rewrite <- Z.add_mod_idemp_l by lia.
    replace ((8 + pt_len e) mod 2) with 1 by lia. reflexivity.
Qed.

(** X4: every step of the path-table loop is even, so the cursor that
    the loop returns is even, and it is the declared size only if that is
    even too; a step is the name length plus 8 or 9. *)
Theorem path_table_cursor_is_even fuel data pts final :
  path_table_loop fuel data pts 0 = Some (Ok final) →
  final mod 2 = 0
  ∧ (pts mod 2 = 1 → final ≠ pts)
  ∧ (∀ e, PathTableEntry_size e mod 2 = 0
          ∧ 8 + pt_len e ≤ PathTableEntry_size e ≤ 9 + pt_len e).
Proof.
  intros H.
  assert (Heven : ∀ fuel idx final, idx mod 2 = 0 →
            path_table_loop fuel data pts idx = Some (Ok final) → final mod 2 = 0).
  { clear. induction fuel as [|fuel IH]; intros idx final Hi; [discriminate|].
    rewrite path_table_loop_eq. destruct (idx <? pts).
    - unfold lift. destruct (PathTableEntry_init data idx) as [e|]; [|discriminate].
      cbn [bindF]. apply IH. destruct (PathTableEntry_size_even e) as [He _].
      rewrite Z.add_mod, Hi, He by lia. reflexivity.
    - by intros [= <-]. }
  pose proof (Heven fuel 0 final eq_refl H) as Hf.
  split; [done|]. split; [|apply PathTableEntry_size_even].
  intros Hp ->. lia.
Qed.

Lemma path_table_cursor_is_even_witness :
  path_table_loop 2 (take 9 (root_path_table 19)) 9 0 = Some (Ok 10)
  ∧ 10 mod 2 = 0 ∧ (9 mod 2 = 1 → 10 ≠ 9).
Proof.
  assert (H : path_table_loop 2 (take 9 (root_path_table 19)) 9 0 = Some (Ok 10))
    by (vm_compute; reflexivity).
  split; [exact H|].
  destruct (path_table_cursor_is_even _ _ _ _ H) as (H1 & H2 & _).
  split; [exact H1 | exact H2].
Defined.

(** X5: an entry whose name-length byte is 0xf8 has the length -8 and
    the size 0: the cursor stays on it and the path-table loop never
    returns. *)
Theorem path_table_loop_stalls data pts idx e :
  PathTableEntry_init data idx = Ok e → pt_len e = -8 → idx < pts →
  ∀ fuel, path_table_loop fuel data pts idx = None.
Proof.
  intros He Hl Hi. induction fuel as [|fuel IH]; [done|].
  rewrite path_table_loop_eq. destruct (Z.ltb_spec idx pts); [|lia].
  rewrite He. unfold lift. cbn [bindF]. unfold PathTableEntry_size. rewrite Hl.
  change (8 + -8) with 0. change (0 mod 2 =? 0) with true. cbn iota.
  by rewrite Z.add_0_r.
Qed.

Lemma path_table_loop_stalls_witness :
  PathTableEntry_init (xf8 :: zeros 9) 0
  = Ok {| pt_len := -8; pt_ext_len := 0; pt_extent := 0; pt_dir_nb := 0;
          pt_name := "" |}
  ∧ ∀ fuel, path_table_loop fuel (xf8 :: zeros 9) 10 0 = None.
Proof.
  assert (He : PathTableEntry_init (xf8 :: zeros 9) 0
               = Ok {| pt_len := -8; pt_ext_len := 0; pt_extent := 0; pt_dir_nb := 0;
                       pt_name := "" |}) by (vm_compute; reflexivity).
  split; [exact He|].
  apply (path_table_loop_stalls _ 10 0 _ He); [reflexivity | lia].
Defined.

(** X6: on a path table with no byte of 0x80 or more the loop returns:
    every step moves the cursor forward by 8 or more, so a fuel above the
    declared size is enough, and the loop gives the final cursor or
    raises struct.error on an entry cut by the end of the table. *)
Theorem path_table_loop_terminates data pts fuel :
  forallb (λ b, b2z b <? 128) data = true →
  (Z.to_nat pts < fuel)%nat →
  (∃ final, path_table_loop fuel data pts 0 = Some (Ok final))
  ∨ path_table_loop fuel data pts 0 = Some (Raise StructError).
Proof.
  intros Hall.
  assert (Hgen : ∀ fuel idx, 0 ≤ idx → (Z.to_nat (pts - idx) < fuel)%nat →
            (∃ final, path_table_loop fuel data pts idx = Some (Ok final))
            ∨ path_table_loop fuel data pts idx = Some (Raise StructError)).
  { clear fuel. induction fuel as [|fuel IH]; intros idx Hi Hf; [lia|].
    rewrite path_table_loop_eq. destruct (Z.ltb_spec idx pts); [|eauto].
    destruct (PathTableEntry_init data idx) as [e|x] eqn:He.
    - unfold lift. cbn [bindF].
      pose proof (pt_len_nonneg _ _ _ Hall He).
      destruct (PathTableEntry_size_even e) as [_ Hs]. apply IH; lia.
    - right. unfold lift. cbn [bindF]. f_equal.
      unfold PathTableEntry_init in He.
      destruct (unpack_from 8 data idx) as [w|] eqn:Hw.
      + cbn [bind] in He.
        destruct (decode_ascii_forallb data (idx + 8) (idx + 8 + fmt_b w 0) Hall)
          as [s Hs].
        rewrite Hs in He. discriminate.
      + unfold unpack_from in Hw. destruct (_ && _); [discriminate|].
        cbn [bind] in He. congruence. }
  intros Hf. apply Hgen; lia.
Qed.

Lemma path_table_loop_terminates_witness :
  (∃ final, path_table_loop 11 (root_path_table 19) 10 0 = Some (Ok final))
  ∨ path_table_loop 11 (root_path_table 19) 10 0 = Some (Raise StructError).
Proof.
  apply path_table_loop_terminates.
  - vm_compute. reflexivity.
  - vm_compute. lia.
Defined.

(** X7: [walk_dirs] only adds to the end of the list it works on: what
    it returns begins with that list, entry for entry, so an entry is
    never removed or moved, and the bytes of the file are left as they
    are. *)
Theorem walk_dirs_extends_its_list fuel s d out r s' :
  walk_dirs fuel s d out = Some (Ok (r, s')) →
  content s' = content s
  ∧ (∃ l, r = norm_out out ++ l)
  ∧ (length (norm_out out) ≤ length r)%nat.
Proof.
  intros H. destruct (walk_extends fuel) as [Hw _].
  apply Hw in H as [Hc [l Hl]]. split; [done|]. split; [by exists l|].
  rewrite Hl, length_app. lia.
Qed.

Lemma walk_dirs_extends_its_list_witness :
  returned (walk_dirs 20 (open tree_image) psp_game_entry (Some [root_entry]))
  = Some (Ok [root_entry; sysdir_entry])
  ∧ ∃ s', walk_dirs 20 (open tree_image) psp_game_entry (Some [root_entry])
          = Some (Ok ([root_entry; sysdir_entry], s'))
          ∧ content s' = tree_image
          ∧ ∃ l, [root_entry; sysdir_entry] = [root_entry] ++ l.
Proof.
  assert (H : returned (walk_dirs 20 (open tree_image) psp_game_entry (Some [root_entry]))
              = Some (Ok [root_entry; sysdir_entry])) by (vm_compute; reflexivity).
  split; [exact H|].
  destruct (returned_inv _ _ H) as [s' Hs]. exists s'. split; [exact Hs|].
  destruct (walk_dirs_extends_its_list _ _ _ _ _ _ Hs) as (H1 & H2 & _).
  split; [exact H1 | exact H2].
Defined.

(** X8: how [walk_dirs] fails on a directory record that points outside
    the file or on a record cut by the end of the sector.  A negative
    extent raises OSError at the seek; an extent at or beyond the end of
    the file gives an empty read, and the first byte looked at raises
    IndexError; a record that begins with a byte that is not zero less
    than 33 bytes before the end of the sector raises struct.error. *)
Theorem walk_dirs_fails_outside_the_file fuel s d out :
  (extent d < 0 → walk_dirs (S fuel) s d out = Some (Raise OSError))
  ∧ (0 ≤ extent d → len (content s) ≤ extent d * 0x800 →
     walk_dirs (S (S fuel)) s d out = Some (Raise IndexError))
  ∧ (∀ data idx i acc b,
       0 ≤ idx → getitem data idx = Ok b → b ≠ 0 → len data < idx + 33 →
       walk_dirs_loop (S fuel) s data idx i acc = Some (Raise StructError)).
Proof.
  split; [|split].
  - intros He. rewrite walk_dirs_eq. cbn zeta. unfold lift, seek.
    destruct (Z.ltb_spec (extent d * 2048) 0); [done|lia].
  - intros He Hl. rewrite (walk_dirs_sector _ _ _ _ []).
    + rewrite walk_dirs_loop_eq. by rewrite getitem_nil.
    + unfold sector_of. destruct (Z.ltb_spec (extent d * 2048) 0); [lia|].
      rewrite drop_ge by (unfold len in *; lia). by rewrite take_nil.
  - intros data idx i acc b Hi Hg Hb Hshort. rewrite walk_dirs_loop_eq, Hg.
    unfold lift. cbn [bindF]. destruct (Z.eqb_spec b 0); [done|].
    by rewrite DirEntry_init_short.
Qed.

Lemma walk_dirs_fails_outside_the_file_witness :
  walk_dirs 2 (open scenario_a_image) (entry 34 25 2048 2 "GONE") None
  = Some (Raise IndexError)
  ∧ walk_dirs 1 (open scenario_a_image) (entry 34 (-1) 2048 2 "BACK") None
    = Some (Raise OSError).
Proof.
  destruct (walk_dirs_fails_outside_the_file 0 (open scenario_a_image)
              (entry 34 25 2048 2 "GONE") None) as (_ & H2 & _).
  destruct (walk_dirs_fails_outside_the_file 0 (open scenario_a_image)
              (entry 34 (-1) 2048 2 "BACK") None) as (H1 & _).
  split.
  - apply H2; vm_compute; discriminate.
  - apply H1. reflexivity.
Defined.

(** X9: [parse_iso] puts the scan and the walk together: the list it
    builds in [dirs] holds directory records only and, where the records
    in the sectors of the root and of the listed directories are shorter
    than 128 bytes, exactly the directory records reachable from the root
    record of the volume descriptor that the scan finds; the path table
    is parsed on the way but no entry of it reaches the list. *)
Theorem parse_iso_walks_from_the_root fuel file dirs :
  parse_iso fuel file = Some (Ok dirs) →
  ∃ header,
    returned (get_pvd_header (open file)) = Some (Ok header)
    ∧ 0 ≤ l_table_off header * block_size header
    ∧ -1 ≤ path_table_size header
    ∧ (∀ e, In e dirs → is_dir e = true)
    ∧ ((∀ d data, d = root_dir header ∨ In d dirs → sector_of file d = Some data →
                  short_records data) →
       ∀ e, In e dirs ↔ reach file (root_dir header) e).
Proof.
  unfold parse_iso. intros H.
  destruct (get_pvd_header (open file)) as [[[header f]|]|] eqn:Hh; [|discriminate..].
  cbn [bindF] in H. unfold lift in H.
  pose proof (get_pvd_header_content _ _ _ Hh) as Hc. simpl in Hc.
  destruct (seek f _) as [f1|] eqn:Hs; [|discriminate]. cbn [bindF] in H.
  destruct (read f1 _) as [[data f2]|] eqn:Hr; [|discriminate]. cbn [bindF] in H.
  destruct (path_table_loop fuel data _ 0) as [[z|]|]; [|discriminate..].
  cbn [bindF] in H.
  destruct (walk_dirs fuel f2 (root_dir header) None) as [[[ds f3]|]|] eqn:Hw;
    [|discriminate..].
  cbn [bindF] in H. injection H as <-.
  exists header. split; [reflexivity|].
  assert (Hc2 : content f2 = file).
  { apply read_content in Hr. apply seek_content in Hs. congruence. }
  split.
  { unfold seek in Hs. destruct (Z.ltb_spec (l_table_off header * block_size header) 0);
      [discriminate|lia]. }
  split.
  { unfold read in Hr. destruct (Z.ltb_spec (path_table_size header) (-1));
      [discriminate|lia]. }
  split.
  - destruct (walk_spec fuel) as [Hspec _]. apply Hspec in Hw as [_ Hin].
    intros e He. apply Hin in He as [[]|He]. eauto using scan_reach_is_dir.
  - intros Hshort. rewrite <- Hc2. apply (walk_dirs_reach fuel f2 _ ds f3 Hw).
    by rewrite Hc2.
Qed.

Lemma parse_iso_walks_from_the_root_witness :
  parse_iso 20 tree_image = Some (Ok [psp_game_entry; sysdir_entry])
  ∧ returned (get_pvd_header (open tree_image)) = Some (Ok tree_header)
  ∧ (∀ d data, d = root_dir tree_header ∨ In d [psp_game_entry; sysdir_entry] →
               sector_of tree_image d = Some data → short_records data)
  ∧ (∀ e, In e [psp_game_entry; sysdir_entry] ↔ reach tree_image (root_dir tree_header) e).
Proof.
  assert (H : parse_iso 20 tree_image = Some (Ok [psp_game_entry; sysdir_entry]))
    by (vm_compute; reflexivity).
  assert (Hh : returned (get_pvd_header (open tree_image)) = Some (Ok tree_header))
    by (vm_compute; reflexivity).
  assert (Hshort : ∀ d data,
             d = root_dir tree_header ∨ In d [psp_game_entry; sysdir_entry] →
             sector_of tree_image d = Some data → short_records data).
  { intros d data [->|[<-|[<-|[]]]] Hs;
      apply (short_sector_checked _ _ _ 30 Hs); vm_compute; reflexivity. }
  split; [exact H|]. split; [exact Hh|]. split; [exact Hshort|].
  destruct (parse_iso_walks_from_the_root _ _ _ H) as (header & H1 & _ & _ & _ & H2).
  rewrite Hh in H1. injection H1 as <-. exact (H2 Hshort).
Defined.

(** X25: [PathTableEntry] at an offset that is not negative wants the 8
    bytes of its header in the buffer, else struct.error; the name is a
    slice, so a name that runs beyond the buffer does not fail as the
    name of a directory record does: the entry is decoded with the bytes
    that are left, fewer than its length says. *)
Theorem PathTableEntry_init_clips_the_name raw offset :
  0 ≤ offset →
  (len raw < offset + 8 → PathTableEntry_init raw offset = Raise StructError)
  ∧ (∀ e, PathTableEntry_init raw offset = Ok e →
          offset + 8 ≤ len raw
          ∧ -128 ≤ pt_len e < 128
          ∧ pt_name e
            = string_of_list_byte (slice raw (offset + 8) (offset + 8 + pt_len e))
          ∧ (0 ≤ pt_len e →
             Z.of_nat (String.length (pt_name e))
             = Z.min (pt_len e) (len raw - (offset + 8)))).
Proof.
  intros Ho. split.
  - intros Hs. unfold PathTableEntry_init. by rewrite unpack_from_short by lia.
  - intros e H. unfold PathTableEntry_init in H.
    destruct (unpack_from 8 raw offset) as [data|] eqn:Hd; [|discriminate].
    cbn [bind] in H.
    destruct (decode_ascii _) as [nm|] eqn:Hn; [|discriminate]. cbn [bind] in H.
    injection H as <-. cbn [pt_len pt_name].
    apply unpack_from_inv in Hd as [_ Hd]; [|lia]. destruct Hd as [Hfit _]; [lia|].
    apply decode_ascii_inv in Hn as [-> _].
    split; [lia|]. split; [apply fmt_b_range|]. split; [done|].
    intros Hlen. rewrite length_string_of_list_byte.
    pose proof (len_slice raw (offset + 8) (offset + 8 + fmt_b data 0)
                  ltac:(lia) ltac:(lia)) as Hl.
    unfold len in *. lia.
Qed.

Lemma PathTableEntry_init_clips_the_name_witness :
  PathTableEntry_init (take 7 (root_path_table 19)) 0 = Raise StructError
  ∧ ∃ e, PathTableEntry_init (take 8 (root_path_table 19)) 0 = Ok e
         ∧ pt_len e = 1 ∧ Z.of_nat (String.length (pt_name e)) = 0.
Proof.
  destruct (PathTableEntry_init_clips_the_name (take 7 (root_path_table 19)) 0)
    as [H1 _]; [lia|].
  destruct (PathTableEntry_init_clips_the_name (take 8 (root_path_table 19)) 0)
    as [_ H2]; [lia|].
  split; [apply H1; vm_compute; reflexivity|].
  destruct (PathTableEntry_init (take 8 (root_path_table 19)) 0) as [e|] eqn:He.
  - exists e. split; [reflexivity|].
    destruct (H2 e eq_refl) as (_ & _ & _ & Hn).
    assert (Hl : pt_len e = 1) by (vm_compute in He; by injection He as <-).
    split; [exact Hl|]. rewrite Hn by lia. rewrite Hl. vm_compute. reflexivity.
  - exfalso. vm_compute in He. discriminate.
Defined.

(** X26: a file that ends at 0x8000 or before has no sector to scan:
    [get_pvd_header] raises IndexError on the empty read, not the error
    of a descriptor that is not found, and [parse_iso] fails with it
    whatever the fuel, before it looks at a path table or a
    directory. *)
Theorem parse_iso_fails_on_a_short_file fuel file :
  len file ≤ 0x8000 →
  get_pvd_header (open file) = Some (Raise IndexError)
  ∧ parse_iso fuel file = Some (Raise IndexError).
Proof.
  intros Hl.
  assert (H : get_pvd_header (open file) = Some (Raise IndexError)).
  { unfold get_pvd_header.
    destruct (pvd_scan_outcome IsoHeader_init (open file) 0) as (_ & _ & H); [intros; lia|].
    apply H. unfold sector_k. cbn [content open].
    rewrite drop_ge by (unfold len in Hl; lia). done. }
  split; [done|]. unfold parse_iso. cbn zeta. by rewrite H.
Qed.

Lemma parse_iso_fails_on_a_short_file_witness :
  parse_iso 0 (zeros 0x8000) = Some (Raise IndexError).
Proof.
  apply (parse_iso_fails_on_a_short_file 0 (zeros 0x8000)).
  unfold len, zeros. rewrite repeat_length. lia.
Defined.

End IsoProperties.

(** ** Decoding, failures and composition in umdb_gen_submission.py *)

Module SubmissionProperties.

Import IsoParser Submission Spec Fixtures PyFacts IsoFacts SubmissionFacts RecordFacts ReportFacts.

(** X10: [SFOIndexTableEntry.__init__] at an offset that is not negative
    wants the 16 bytes of the entry in the buffer and one of the three
    listed formats in its second field: a cut entry raises struct.error,
    another format raises ValueError, and otherwise the entry holds the
    little-endian unsigned fields, so none of them is negative. *)
Theorem SFOIndexTableEntry_init_outcome raw offset :
  0 ≤ offset →
  (len raw < offset + 0x10 → SFOIndexTableEntry_init raw offset = Raise StructError)
  ∧ (offset + 0x10 ≤ len raw →
     let fmt := int_from_bytes_little (slice raw (offset + 2) (offset + 4)) in
     (fmt ≠ 0x0004 → fmt ≠ 0x0204 → fmt ≠ 0x0404 →
      SFOIndexTableEntry_init raw offset = Raise ValueError)
     ∧ (fmt = 0x0004 ∨ fmt = 0x0204 ∨ fmt = 0x0404 →
        ∃ e, SFOIndexTableEntry_init raw offset = Ok e
             ∧ key_offset e = int_from_bytes_little (slice raw offset (offset + 2))
             ∧ data_len e = int_from_bytes_little (slice raw (offset + 4) (offset + 8))
             ∧ data_max_len e = int_from_bytes_little (slice raw (offset + 8) (offset + 12))
             ∧ data_offset e = int_from_bytes_little (slice raw (offset + 12) (offset + 16))
             ∧ 0 ≤ key_offset e < 2 ^ 16 ∧ 0 ≤ data_len e < 2 ^ 32
             ∧ 0 ≤ data_max_len e < 2 ^ 32 ∧ 0 ≤ data_offset e < 2 ^ 32)).
Proof.
  intros Ho. split.
  - intros Hs. unfold SFOIndexTableEntry_init. rewrite unpack_short; [done|].
    rewrite len_slice by lia. lia.
  - intros Hs. cbn zeta. unfold SFOIndexTableEntry_init.
    rewrite unpack_ok by (rewrite len_slice by lia; lia). cbn [bind].
    unfold fmt_H, fmt_I.
    rewrite (field_slice raw offset (offset + 16) 2 2) by lia.
    rewrite (field_slice raw offset (offset + 16) 0 2) by lia.
    rewrite (field_slice raw offset (offset + 16) 4 4) by lia.
    rewrite (field_slice raw offset (offset + 16) 8 4) by lia.
    rewrite (field_slice raw offset (offset + 16) 12 4) by lia.
    replace (offset + Z.of_nat 0) with offset by lia.
    change (Z.of_nat (0 + 2)) with 2. change (Z.of_nat (2 + 2)) with 4.
    change (Z.of_nat 2) with 2. change (Z.of_nat 4) with 4. change (Z.of_nat (4 + 4)) with 8.
    change (Z.of_nat 8) with 8. change (Z.of_nat (8 + 4)) with 12.
    change (Z.of_nat 12) with 12. change (Z.of_nat (12 + 4)) with 16.
    set (fmt := int_from_bytes_little (slice raw (offset + 2) (offset + 4))).
    destruct (SFODataFormat_of_cases fmt) as [[E ->]|[[E ->]|[[E ->]|(E1 & E2 & E3 & ->)]]];
      cbn [bind].
    4: { split; [done|]. intros [?|[?|?]]; done. }
    all: split; [intros; done|]; intros _; eexists; split; [reflexivity|]; simpl;
      split; [done|]; split; [done|]; split; [done|]; split; [done|].
    all: pose proof (int_from_bytes_little_range (slice raw offset (offset + 2))) as R1;
      pose proof (int_from_bytes_little_range (slice raw (offset + 4) (offset + 8))) as R2;
      pose proof (int_from_bytes_little_range (slice raw (offset + 8) (offset + 12))) as R3;
      pose proof (int_from_bytes_little_range (slice raw (offset + 12) (offset + 16))) as R4;
      rewrite len_slice in R1, R2, R3, R4 by lia;
      rewrite !Z.min_l in R1, R2, R3, R4 by lia;
      replace (offset + 2 - offset) with 2 in R1 by lia;
      replace (offset + 8 - (offset + 4)) with 4 in R2 by lia;
      replace (offset + 12 - (offset + 8)) with 4 in R3 by lia;
      replace (offset + 16 - (offset + 12)) with 4 in R4 by lia;
      change (256 ^ 2) with (2 ^ 16) in R1; change (256 ^ 4) with (2 ^ 32) in R2, R3, R4;
      done.
Qed.

Lemma SFOIndexTableEntry_init_outcome_witness :
  SFOIndexTableEntry_init (take 30 scenario_b_sfo) 0x14 = Raise StructError
  ∧ ∃ e, SFOIndexTableEntry_init scenario_b_sfo 0x14 = Ok e ∧ 0 ≤ data_offset e < 2 ^ 32.
Proof.
  destruct (SFOIndexTableEntry_init_outcome (take 30 scenario_b_sfo) 0x14) as [H1 _]; [lia|].
  destruct (SFOIndexTableEntry_init_outcome scenario_b_sfo 0x14) as [_ H2]; [lia|].
  split; [apply H1; vm_compute; reflexivity|].
  destruct H2 as [_ H2]; [vm_compute; discriminate|].
  destruct H2 as (e & He & _ & _ & _ & _ & _ & _ & _ & Hr).
  - right. left. vm_compute. reflexivity.
  - exists e. split; [exact He | exact Hr].
Defined.

(** X11: [SFO.__init__] fails on every buffer of less than 20 bytes and
    on every buffer that does not begin with the four bytes 00 50 53 46:
    the assertion fails without the signature, and with the signature a
    header that is cut raises struct.error. *)
Theorem SFO_init_header_errors raw :
  (b2z <$> slice raw 0 0x4 ≠ [0x00; 0x50; 0x53; 0x46] →
   SFO_init raw = Raise AssertionError)
  ∧ (b2z <$> slice raw 0 0x4 = [0x00; 0x50; 0x53; 0x46] → len raw < 0x14 →
     SFO_init raw = Raise StructError).
Proof.
  unfold SFO_init. split.
  - intros H. by destruct (decide _).
  - intros H Hs. destruct (decide _); [|done]. cbn [bind].
    assert (H4 : 4 ≤ len raw).
    { assert (Hl : length (b2z <$> slice raw 0 4) = 4%nat) by (by rewrite H).
      rewrite length_fmap in Hl. pose proof (len_slice raw 0 4 ltac:(lia) ltac:(lia)) as Hl'.
      unfold len in *. lia. }
    destruct (Z.lt_ge_cases (len raw) 8) as [H8|H8].
    + rewrite unpack_short; [done|]. unfold len. rewrite length_app. simpl.
      pose proof (len_slice raw 5 8 ltac:(lia) ltac:(lia)) as Hl. unfold len in *. lia.
    + rewrite unpack_ok.
      2: { unfold len. rewrite length_app. simpl.
           pose proof (len_slice raw 5 8 ltac:(lia) ltac:(lia)) as Hl. unfold len in *. lia. }
      cbn [bind]. rewrite (getitem_inside raw 4) by lia. cbn [bind].
      rewrite unpack_short; [done|]. rewrite len_slice by lia. lia.
Qed.

Lemma SFO_init_header_errors_witness :
  SFO_init (take 19 scenario_b_sfo) = Raise StructError
  ∧ SFO_init (x01 :: scenario_b_sfo) = Raise AssertionError.
Proof.
  split.
  - apply (proj2 (SFO_init_header_errors (take 19 scenario_b_sfo))).
    + vm_compute. reflexivity.
    + vm_compute. reflexivity.
  - apply (proj1 (SFO_init_header_errors (x01 :: scenario_b_sfo))).
    vm_compute. discriminate.
Defined.

(** X12: what [SFO.__init__] leaves when it returns: the index table has
    as many entries as the header counts, the dictionary has at most as
    many keys (equal keys share one), no key and no text value ends with
    a NUL, and no integer value is negative. *)
Theorem SFO_init_invariants raw sfo :
  SFO_init raw = Ok sfo →
  Z.of_nat (length (idx_table sfo)) = table_entries sfo
  ∧ (size (data sfo) ≤ length (idx_table sfo))%nat
  ∧ ∀ key v, data sfo !! key = Some v →
      (∀ c, last_char key = Some c → is_nul c = false)
      ∧ match v with
        | VInt n => 0 ≤ n
        | VStr s => ∀ c, last_char s = Some c → is_nul c = false
        end.
Proof.
  intros H. destruct (SFO_init_loops _ _ H) as (self0 & Hd0 & Ht0 & Hlen & Hloop).
  split; [lia|].
  set (Q := λ (key : string) (v : sfo_value),
         (∀ c, last_char key = Some c → is_nul c = false)
         ∧ match v with
           | VInt n => 0 ≤ n
           | VStr s => ∀ c, last_char s = Some c → is_nul c = false
           end).
  set (P := λ (i : nat) (s : SFO), (size (data s) ≤ i)%nat ∧ map_Forall Q (data s)).
  assert (Hstep : ∀ i s s', _read_entry s raw i = Ok s' → P i s → P (S i) s').
  { intros i s s' Hb [Hsz HQ].
    destruct (read_entry_stores _ _ _ _ Hb) as (_ & _ & key & v & Hd & Hk & Hv).
    unfold P. rewrite Hd. split.
    - pose proof (map_size_insert key v (data s)) as Hi.
      destruct (data s !! key); unfold id in Hi; lia.
    - apply map_Forall_insert_2; [by split|done]. }
  assert (H0 : P 0%nat self0).
  { unfold P. rewrite Hd0. split; [by rewrite map_size_empty|apply map_Forall_empty]. }
  destruct (for_range_invariant_indexed _ P Hstep _ _ _ _ Hloop H0) as [Hsize HQ].
  split; [simpl in Hsize; lia|]. intros key v Hkv. exact (HQ key v Hkv).
Qed.

Lemma SFO_init_invariants_witness :
  SFO_init scenario_b_sfo = Ok scenario_b_decoded
  ∧ Z.of_nat (length (idx_table scenario_b_decoded)) = table_entries scenario_b_decoded
  ∧ (size (data scenario_b_decoded) ≤ length (idx_table scenario_b_decoded))%nat.
Proof.
  assert (H : SFO_init scenario_b_sfo = Ok scenario_b_decoded) by (vm_compute; reflexivity).
  split; [exact H|].
  destruct (SFO_init_invariants _ _ H) as (H1 & H2 & _). split; [exact H1 | exact H2].
Defined.

(** X13: [SFO.__init__] raises nothing but the failed assertion,
    struct.error, ValueError and the error of the UTF-8 codec: the
    indices of the data loop are all inside the index table, so no
    IndexError leaves it. *)
Theorem SFO_init_raises_only raw e :
  SFO_init raw = Raise e →
  e = AssertionError ∨ e = StructError ∨ e = ValueError ∨ e = UnicodeDecodeError.
Proof.
  unfold SFO_init. destruct (decide _); cbn [bind]; [|intros [= <-]; by left].
  destruct (unpack 4 _) as [minor|e1] eqn:Hm; cbn [bind].
  2: { unfold unpack in Hm. destruct (_ =? _); [done|]. injection Hm as <-.
       intros [= <-]. by right; left. }
  apply unpack_inv in Hm as [_ Hl].
  assert (H8 : 8 ≤ len raw).
  { pose proof (len_slice raw 5 8 ltac:(lia) ltac:(lia)) as Hs.
    unfold len in *. rewrite length_app in Hl. simpl in Hl. lia. }
  rewrite (getitem_inside raw 4) by lia. cbn [bind].
  unfold unpack at 1. destruct (_ =? 12); cbn [bind]; [|intros [= <-]; by right; left].
  destruct (for_range _ 0 _ []) as [tbl|e1] eqn:Htbl; cbn [bind].
  - intros H.
    set (self0 := {| version := _; idx_table := tbl |}) in H.
    destruct (for_range_raise_inv _ (λ _ s, idx_table s = tbl) e
                (λ i s s' Hb Hs, eq_trans (proj1 (proj2 (read_entry_stores _ _ _ _ Hb))) Hs)
                _ _ _ H eq_refl) as (j & s1 & Hj & Hs1 & Hr).
    right. right. right. eapply read_entry_raises; [|exact Hr]. rewrite Hs1. simpl. lia.
  - intros [= <-].
    destruct (for_range_raise_inv _ (λ _ _, True) e1 (λ _ _ _ _ _, I) _ _ _ Htbl I)
      as (j & s1 & _ & _ & Hr).
    destruct (SFOIndexTableEntry_init raw _) as [x|e2] eqn:Hi; [discriminate|].
    cbn [bind] in Hr. injection Hr as <-.
    destruct (SFOIndexTableEntry_init_raises _ _ _ Hi) as [->| ->]; auto.
Qed.

Lemma SFO_init_raises_only_witness :
  SFO_init no_index_sfo = Raise StructError
  ∧ (StructError = AssertionError ∨ StructError = StructError
     ∨ StructError = ValueError ∨ StructError = UnicodeDecodeError).
Proof.
  assert (H : SFO_init no_index_sfo = Raise StructError) by (vm_compute; reflexivity).
  split; [exact H|]. exact (SFO_init_raises_only _ _ H).
Defined.

(** X14: [decode_string] at an offset that is not negative returns
    exactly when the window lies in the buffer and holds ASCII bytes
    only; a negative size or a window that runs beyond the buffer raises
    struct.error, a byte of 0x80 or more raises the error of the codec;
    and the text returned is no longer than the window. *)
Theorem decode_string_outcome raw offset size :
  0 ≤ offset →
  (size < 0 ∨ len raw < offset + size →
   decode_string raw offset size = Raise StructError)
  ∧ (0 ≤ size → offset + size ≤ len raw →
     (is_ascii (slice raw offset (offset + size)) = false →
      decode_string raw offset size = Raise UnicodeDecodeError)
     ∧ (is_ascii (slice raw offset (offset + size)) = true →
        ∃ s, decode_string raw offset size = Ok s
             ∧ Z.of_nat (String.length s) ≤ size)).
Proof.
  intros Ho. split; [by apply decode_string_short|].
  intros Hs Hl. rewrite decode_string_inside by lia.
  split; intros ->; [done|]. eexists. split; [reflexivity|].
  pose proof (strip_length (string_of_list_byte (slice raw offset (offset + size)))) as Hn.
  rewrite length_string_of_list_byte in Hn.
  pose proof (len_slice raw offset (offset + size) ltac:(lia) ltac:(lia)) as Hw.
  unfold len in *. lia.
Qed.

Lemma decode_string_outcome_witness :
  decode_string (list_byte_of_string " UMD  ") 0 7 = Raise StructError
  ∧ decode_string [x20; xe9; x20] 0 3 = Raise UnicodeDecodeError
  ∧ ∃ s, decode_string (list_byte_of_string " UMD  ") 0 6 = Ok s
         ∧ Z.of_nat (String.length s) ≤ 6.
Proof.
  destruct (decode_string_outcome (list_byte_of_string " UMD  ") 0 7) as [H1 _]; [lia|].
  destruct (decode_string_outcome [x20; xe9; x20] 0 3) as [_ H2]; [lia|].
  destruct (decode_string_outcome (list_byte_of_string " UMD  ") 0 6) as [_ H3]; [lia|].
  split; [apply H1; right; vm_compute; reflexivity|].
  split.
  - apply H2; [lia|vm_compute; discriminate|vm_compute; reflexivity].
  - apply H3; [lia|vm_compute; discriminate|vm_compute; reflexivity].
Defined.

(** X15: [decdatetime_to_str] at an offset that is not negative wants
    the 17 bytes of the date in the buffer, else struct.error, and ASCII
    bytes in the first sixteen, else the error of the codec.  It checks
    nothing more: whatever the sixteen characters are, digits or not,
    they go into the text between the marks of the format, and the last
    byte goes in as a signed number from -128 to 127. *)
Theorem decdatetime_to_str_outcome raw offset :
  0 ≤ offset →
  (len raw < offset + 17 → decdatetime_to_str raw offset = Raise StructError)
  ∧ (offset + 17 ≤ len raw →
     (is_ascii (slice raw offset (offset + 16)) = false →
      decdatetime_to_str raw offset = Raise UnicodeDecodeError)
     ∧ (is_ascii (slice raw offset (offset + 16)) = true →
        let text a b := string_of_list_byte (slice raw (offset + a) (offset + b)) in
        ∃ zone,
          -128 ≤ zone < 128
          ∧ (∃ b, getitem raw (offset + 16) = Ok b ∧ zone = to_signed 8 b)
          ∧ decdatetime_to_str raw offset
            = Ok (text 0 4 +:+ "-" +:+ text 4 6 +:+ "-" +:+ text 6 8 +:+ " "
                  +:+ text 8 10 +:+ ":" +:+ text 10 12 +:+ ":" +:+ text 12 14
                  +:+ "." +:+ text 14 16 +:+ " (" +:+ str_of_int zone +:+ ")")%string)).
Proof.
  intros Ho. split; [by apply decdatetime_to_str_short|].
  intros Hl. split.
  - intros Ha. rewrite decdatetime_to_str_inside by lia.
    rewrite date_window_parts in Ha by lia. rewrite !decode_ascii_eq.
    repeat (destruct (is_ascii _); cbn [bind]; [|done]). done.
  - intros Ha. by apply decdatetime_to_str_value.
Qed.

Lemma decdatetime_to_str_outcome_witness :
  decdatetime_to_str (list_byte_of_string "2005033112000000") 0 = Raise StructError
  ∧ ∃ zone,
      -128 ≤ zone < 128
      ∧ decdatetime_to_str (list_byte_of_string "20050331120000xy" ++ [xdc]) 0
        = Ok ("2005-03-31 12:00:00.xy (" +:+ str_of_int zone +:+ ")")%string.
Proof.
  destruct (decdatetime_to_str_outcome (list_byte_of_string "2005033112000000") 0)
    as [H1 _]; [lia|].
  destruct (decdatetime_to_str_outcome (list_byte_of_string "20050331120000xy" ++ [xdc]) 0)
    as [_ H2]; [lia|].
  split; [apply H1; vm_compute; reflexivity|].
  destruct H2 as [_ H2]; [vm_compute; discriminate|].
  destruct H2 as (zone & Hz & _ & Hs); [vm_compute; reflexivity|].
  exists zone. split; [exact Hz | exact Hs].
Defined.

(** X16: the dictionary of [get_pvd_dump] is built exactly from a sector
    of 881 bytes or more whose four texts, the 512 bytes from 0xbe, and
    whose four dates, sixteen bytes each from 0x32d, 0x33e, 0x34f and
    0x360, are ASCII; the zone bytes after the dates may be anything.
    On every other sector the decoding raises struct.error or the error
    of the codec. *)
Theorem pvd_fields_succeeds_iff raw :
  ((∃ pvd, pvd_fields raw = Ok pvd)
   ↔ 881 ≤ len raw
     ∧ is_ascii (slice raw 0xbe 0x2be) = true
     ∧ is_ascii (slice raw 0x32d 0x33d) = true ∧ is_ascii (slice raw 0x33e 0x34e) = true
     ∧ is_ascii (slice raw 0x34f 0x35f) = true ∧ is_ascii (slice raw 0x360 0x370) = true)
  ∧ ∀ e, pvd_fields raw = Raise e → e = StructError ∨ e = UnicodeDecodeError.
Proof.
  split; [split|].
  - intros [pvd H].
    apply pvd_fields_inv in H
      as (v1 & v2 & v3 & v4 & d1 & d2 & d3 & d4 & H1 & H2 & H3 & H4 & D1 & D2 & D3 & D4 & _).
    apply decode_string_ok_inv in H1 as (_ & _ & H1 & _); [|lia].
    apply decode_string_ok_inv in H2 as (_ & _ & H2 & _); [|lia].
    apply decode_string_ok_inv in H3 as (_ & _ & H3 & _); [|lia].
    apply decode_string_ok_inv in H4 as (_ & _ & H4 & _); [|lia].
    apply decdatetime_to_str_ok_inv in D1 as [_ D1]; [|lia].
    apply decdatetime_to_str_ok_inv in D2 as [_ D2]; [|lia].
    apply decdatetime_to_str_ok_inv in D3 as [_ D3]; [|lia].
    apply decdatetime_to_str_ok_inv in D4 as [L D4]; [|lia].
    split; [lia|]. split; [|done].
    rewrite (slice_split raw 0xbe 0x13e 0x2be) by lia.
    rewrite (slice_split raw 0x13e 0x1be 0x2be) by lia.
    rewrite (slice_split raw 0x1be 0x23e 0x2be) by lia.
    rewrite !is_ascii_app.
    change (190 + 128) with 318 in H1. change (318 + 128) with 446 in H2.
    change (446 + 128) with 574 in H3. change (574 + 128) with 702 in H4.
    by rewrite H1, H2, H3, H4.
  - intros (L & T & D1 & D2 & D3 & D4).
    rewrite (slice_split raw 0xbe 0x13e 0x2be) in T by lia.
    rewrite (slice_split raw 0x13e 0x1be 0x2be) in T by lia.
    rewrite (slice_split raw 0x1be 0x23e 0x2be) in T by lia.
    rewrite !is_ascii_app in T.
    apply andb_true_iff in T as [T1 T]. apply andb_true_iff in T as [T2 T].
    apply andb_true_iff in T as [T3 T4].
    unfold pvd_fields.
    rewrite !decode_string_inside by lia.
    change (190 + 128) with 318. change (318 + 128) with 446.
    change (446 + 128) with 574. change (574 + 128) with 702.
    rewrite T1, T2, T3, T4. cbn [bind].
    destruct (decdatetime_to_str_ok raw 0x32d) as [d1 ->]; [lia|lia|done|].
    destruct (decdatetime_to_str_ok raw 0x33e) as [d2 ->]; [lia|lia|done|].
    destruct (decdatetime_to_str_ok raw 0x34f) as [d3 ->]; [lia|lia|done|].
    destruct (decdatetime_to_str_ok raw 0x360) as [d4 ->]; [lia|lia|done|].
    cbn [bind]. by eexists.
  - intros e. unfold pvd_fields.
    repeat match goal with
           | |- context [bind (decode_string raw ?o ?n) _] =>
             destruct (decode_string raw o n) as [?|?] eqn:?; cbn [bind];
             [|intros [= <-]; by eapply decode_string_raises]
           | |- context [bind (decdatetime_to_str raw ?o) _] =>
             destruct (decdatetime_to_str raw o) as [?|?] eqn:?; cbn [bind];
             [|intros [= <-]; by eapply decdatetime_to_str_raises]
           end.
    done.
Qed.

(** X17: the dictionary of [get_pvd_dump] has the eight keys of the
    source and no other; its four texts are trimmed of whitespace and
    have 128 characters at most, and its four dates have from 26 to 29
    characters. *)
Theorem pvd_fields_shape raw pvd :
  pvd_fields raw = Ok pvd →
  dom pvd = list_to_set ["volume_set_id"; "publisher"; "preparer"; "application_id";
                         "creation_date"; "modification_date"; "expiration_date";
                         "effective_date"]
  ∧ (∀ k, k ∈ ["volume_set_id"; "publisher"; "preparer"; "application_id"] →
          ∃ v, pvd !! k = Some v ∧ trimmed isspace v ∧ (String.length v ≤ 128)%nat)
  ∧ (∀ k, k ∈ ["creation_date"; "modification_date"; "expiration_date";
                "effective_date"] →
          ∃ v, pvd !! k = Some v ∧ (26 ≤ String.length v ≤ 29)%nat).
Proof.
  intros H.
  apply pvd_fields_inv in H
    as (v1 & v2 & v3 & v4 & d1 & d2 & d3 & d4 & H1 & H2 & H3 & H4 & D1 & D2 & D3 & D4 & ->).
  apply decode_string_ok_inv in H1 as (_ & _ & _ & _ & T1 & L1); [|lia].
  apply decode_string_ok_inv in H2 as (_ & _ & _ & _ & T2 & L2); [|lia].
  apply decode_string_ok_inv in H3 as (_ & _ & _ & _ & T3 & L3); [|lia].
  apply decode_string_ok_inv in H4 as (_ & _ & _ & _ & T4 & L4); [|lia].
  apply decdatetime_to_str_length in D1; [|lia].
  apply decdatetime_to_str_length in D2; [|lia].
  apply decdatetime_to_str_length in D3; [|lia].
  apply decdatetime_to_str_length in D4; [|lia].
  split; [|split].
  - rewrite !dom_insert_L, dom_empty_L. simpl. set_solver.
  - intros k Hk. rewrite !elem_of_cons, elem_of_nil in Hk.
    destruct Hk as [->|[->|[->|[->|[]]]]]; eexists; (split; [reflexivity|]);
      (split; [done|lia]).
  - intros k Hk. rewrite !elem_of_cons, elem_of_nil in Hk.
    destruct Hk as [->|[->|[->|[->|[]]]]]; eexists; (split; [reflexivity|done]).
Qed.

Lemma pvd_fields_shape_witness :
  ∃ pvd, pvd_fields (pvd_sector 20 10 18 19) = Ok pvd
         ∧ ∃ v, pvd !! "publisher"%string = Some v ∧ (String.length v ≤ 128)%nat.
Proof.
  destruct (pvd_fields (pvd_sector 20 10 18 19)) as [pvd|e] eqn:H.
  - exists pvd. split; [reflexivity|].
    destruct (pvd_fields_shape _ _ H) as (_ & H1 & _).
    destruct (H1 "publisher"%string) as (v & Hv & _ & Hl).
    + apply elem_of_cons. right. apply elem_of_cons. by left.
    + exists v. split; [exact Hv | exact Hl].
  - exfalso. vm_compute in H. discriminate.
Defined.

(** X18: [parse_umd_data] decodes exactly the ASCII contents with three
    bars or more: a byte of 0x80 or more raises the error of the codec,
    fewer than three bars raise IndexError.  The four values are the
    first four pieces between the bars, so none holds a bar and the
    pieces after the fourth are dropped; the last value has the NUL
    characters removed from its two ends, the three others are stored as
    they are. *)
Theorem parse_umd_data_outcome raw :
  (is_ascii raw = false → parse_umd_data raw = Raise UnicodeDecodeError)
  ∧ (is_ascii raw = true →
     let text := string_of_list_byte raw in
     ((count_char "|" text < 3)%nat → parse_umd_data raw = Raise IndexError)
     ∧ ((3 ≤ count_char "|" text)%nat →
        ∃ id key unknown type more,
          text = join_with "|" (id :: key :: unknown :: type :: more)
          ∧ free_of "|" id ∧ free_of "|" key ∧ free_of "|" unknown ∧ free_of "|" type
          ∧ trimmed is_nul (strip_with is_nul type)
          ∧ parse_umd_data raw
            = Ok (<["type" := strip_with is_nul type]>
                    (<["unknown" := unknown]> (<["key" := key]> (<["id" := id]> ∅)))))).
Proof.
  unfold parse_umd_data. rewrite decode_ascii_eq. split; intros ->; [done|].
  cbn [bind]. cbn zeta.
  pose proof (split_on_length "|" (string_of_list_byte raw)) as Hlen.
  pose proof (split_on_join "|" (string_of_list_byte raw)) as Hjoin.
  pose proof (split_on_free "|" (string_of_list_byte raw)) as Hfree.
  destruct (split_on "|" (string_of_list_byte raw)) as [|id [|key [|unknown [|type more]]]];
    simpl in Hlen; (split; intros Hn; [try lia; try done|try lia]).
  exists id, key, unknown, type, more. split; [done|].
  inversion Hfree as [|? ? F1 Hf1]; subst. inversion Hf1 as [|? ? F2 Hf2]; subst.
  inversion Hf2 as [|? ? F3 Hf3]; subst. inversion Hf3 as [|? ? F4 Hf4]; subst.
  split; [done|]. split; [done|]. split; [done|]. split; [done|].
  split; [apply strip_with_trimmed|done].
Qed.

Lemma parse_umd_data_outcome_witness :
  parse_umd_data (list_byte_of_string "ULJM-05500|0123") = Raise IndexError
  ∧ ∃ id key unknown type more,
      string_of_list_byte umd_data_bin
      = join_with "|" (id :: key :: unknown :: type :: more)
      ∧ parse_umd_data umd_data_bin
        = Ok (<["type" := strip_with is_nul type]>
                (<["unknown" := unknown]> (<["key" := key]> (<["id" := id]> ∅)))).
Proof.
  destruct (parse_umd_data_outcome (list_byte_of_string "ULJM-05500|0123")) as [_ H1].
  destruct (parse_umd_data_outcome umd_data_bin) as [_ H2].
  split.
  - apply H1; [vm_compute; reflexivity|vm_compute; lia].
  - destruct H2 as [_ H2]; [vm_compute; reflexivity|].
    destruct H2 as (id & key & unknown & type & more & Hj & _ & _ & _ & _ & _ & Hp);
      [vm_compute; lia|].
    exists id, key, unknown, type, more. split; [exact Hj | exact Hp].
Defined.

Section GenHashesTheorems.

Context (crc32 : bytes → Z → Z) (sha1 md5 sha256 : hasher).

Local Abbreviation gen_hashes := (gen_hashes crc32 sha1 md5 sha256).
Local Abbreviation hash_piece := (hash_piece crc32 sha1 md5 sha256).
Local Abbreviation hashes_of := (hashes_of sha1 md5 sha256).
Local Abbreviation gen_submission_file := (gen_submission_file crc32 sha1 md5 sha256).
Local Abbreviation hash_start :=
  {| st_crc32 := 0; st_sha1 := hnew sha1; st_md5 := hnew md5; st_sha256 := hnew sha256 |}.

(** X19: [gen_hashes] returns on every file object, wherever it stands:
    it rewinds it, feeds the whole content, in order, to the checksum and
    to the three hashes, in pieces that are not empty and have 0x10000
    bytes at most, and leaves the file object at the end of the file. *)
Theorem gen_hashes_reads_the_whole_file f :
  gen_hashes f = gen_hashes (open (content f))
  ∧ ∃ pieces,
      concat pieces = content f
      ∧ Forall (λ p, p ≠ [] ∧ len p ≤ 0x10000) pieces
      ∧ gen_hashes f
        = Some (Ok (hashes_of (fold_left hash_piece pieces hash_start),
                    mkStream (content f) (len (content f)))).
Proof.
  split; [|apply gen_hashes_pieces].
  unfold Submission.gen_hashes, seek, lift. change (0 <? 0) with false.
  cbn [bindF content open]. reflexivity.
Qed.

(** X20: over a checksum and hash objects that stream as those of
    [zlib] and [hashlib] do, where feeding two pieces one after the other
    is feeding their concatenation, the digests of [gen_hashes] are those
    of the whole content fed at once: the cut into pieces of 0x10000
    bytes does not show. *)
Theorem gen_hashes_digests_the_content f :
  (∀ a b c, crc32 b (crc32 a c) = crc32 (a ++ b) c) →
  (∀ c, crc32 [] c = c) →
  (∀ h, h = sha1 ∨ h = md5 ∨ h = sha256 →
        (∀ st a b, hupdate h (hupdate h st a) b = hupdate h st (a ++ b))
        ∧ (∀ st, hupdate h st [] = st)) →
  gen_hashes f
  = Some (Ok (hashes_of
                {| st_crc32 := crc32 (content f) 0;
                   st_sha1 := hupdate sha1 (hnew sha1) (content f);
                   st_md5 := hupdate md5 (hnew md5) (content f);
                   st_sha256 := hupdate sha256 (hnew sha256) (content f) |},
              mkStream (content f) (len (content f)))).
Proof.
  intros Hcrc Hcrc0 Hh. destruct (gen_hashes_pieces crc32 sha1 md5 sha256 f)
    as (pieces & Hcat & _ & ->).
  rewrite (hash_pieces_concat crc32 sha1 md5 sha256 Hcrc Hcrc0 Hh). by rewrite Hcat.
Qed.

(** X21: the dictionary of [gen_hashes] has the four keys of the source.
    Its checksum is a text of exactly eight digits among [0-9a-f] that
    writes the checksum modulo 2^32, whatever integer, negative or
    large, the library returns; each digest has the width of its hash at
    least. *)
Theorem hashes_of_texts (st : hash_state sha1 md5 sha256) :
  dom (hashes_of st) = list_to_set ["crc32"; "sha1"; "md5"; "sha256"]
  ∧ (∃ t, hashes_of st !! "crc32" = Some t
          ∧ String.length t = 8%nat ∧ all_chars is_lower_hex t = true
          ∧ hex_value t = st_crc32 st mod 2 ^ 32)
  ∧ (∃ t, hashes_of st !! "sha1" = Some t ∧ (40 ≤ String.length t)%nat)
  ∧ (∃ t, hashes_of st !! "md5" = Some t ∧ (32 ≤ String.length t)%nat)
  ∧ (∃ t, hashes_of st !! "sha256" = Some t ∧ (64 ≤ String.length t)%nat).
Proof.
  unfold Submission.hashes_of. split; [|split; [|split; [|split]]].
  - rewrite !dom_insert_L, dom_empty_L. simpl. set_solver.
  - eexists. split; [reflexivity|].
    change 0xFFFFFFFF with (Z.ones 32). rewrite Z.land_ones by lia.
    pose proof (Z.mod_pos_bound (st_crc32 st) (2 ^ 32) ltac:(lia)) as Hm.
    destruct (format_x_spec (st_crc32 st mod 2 ^ 32) ltac:(lia)) as (Hl & Hk & Hall & Hv).
    destruct (zfill_hex 8 _ Hall) as (Zl & Zall & Zv).
    specialize (Hk 8%nat ltac:(lia) ltac:(change (16 ^ Z.of_nat 8) with (2 ^ 32); lia)).
    split; [lia|]. split; [done|]. by rewrite Zv.
  - eexists. split; [reflexivity|]. rewrite zfill_length. lia.
  - eexists. split; [reflexivity|]. rewrite zfill_length. lia.
  - eexists. split; [reflexivity|]. rewrite zfill_length. lia.
Qed.

(** X22: the two passes of [gen_submission] over the file object of the
    image: [get_pvd_dump] runs on the file object that [gen_hashes]
    leaves at the end of the file, and gives what it gives on a file
    just opened, since it seeks first.  The block always ends, and it
    fails exactly when the scan for the volume descriptor fails. *)
Theorem gen_submission_file_passes file :
  ∃ hashes,
    returned (gen_hashes (open file)) = Some (Ok hashes)
    ∧ gen_submission_file file
      = (let+ pvd := returned (get_pvd_dump (open file)) in Some (Ok (hashes, pvd)))
    ∧ gen_submission_file file ≠ None.
Proof.
  destruct (gen_hashes_pieces crc32 sha1 md5 sha256 (open file))
    as (pieces & _ & _ & Hrun).
  eexists. unfold Submission.gen_submission_file. cbn zeta. rewrite Hrun.
  cbn [returned bindF]. split; [reflexivity|].
  unfold get_pvd_dump.
  rewrite (pvd_scan_from_anywhere pvd_fields _ (open file)) by reflexivity.
  pose proof (pvd_scan_total pvd_fields (open file)) as Ht.
  destruct (pvd_scan pvd_fields (open file)) as [[[pvd f]|e]|]; [| |done];
    cbn [returned bindF]; done.
Qed.

End GenHashesTheorems.

Lemma gen_hashes_digests_the_content_witness :
  gen_hashes sum_crc32 xor_hasher xor_hasher xor_hasher (mkStream (zeros 0x18000) 7)
  = Some (Ok (hashes_of xor_hasher xor_hasher xor_hasher
                {| st_crc32 := sum_crc32 (zeros 0x18000) 0;
                   st_sha1 := hupdate xor_hasher (hnew xor_hasher) (zeros 0x18000);
                   st_md5 := hupdate xor_hasher (hnew xor_hasher) (zeros 0x18000);
                   st_sha256 := hupdate xor_hasher (hnew xor_hasher) (zeros 0x18000) |},
              mkStream (zeros 0x18000) (len (zeros 0x18000)))).
Proof.
  apply (gen_hashes_digests_the_content sum_crc32 xor_hasher xor_hasher xor_hasher
           (mkStream (zeros 0x18000) 7)).
  - apply sum_crc32_streams.
  - apply sum_crc32_streams.
  - apply xor_hasher_streams.
Defined.

Section IsoWalkTheorems.

Context (walk : list (string * list string * list string))
        (get_file_from_iso_fp : string → result bytes)
        (sha1 : hasher).

Local Abbreviation iso_walk := (iso_walk walk get_file_from_iso_fp sha1).

(** X23: when [iso_walk] returns, every file that the walk of the volume
    yields was extracted, under the name of its directory, a slash and
    its own name, and has an entry in the tree; every file named
    UMD_DATA.BIN was parsed, and every file whose name ends in .SFO was
    decoded and has an entry in the SFO dictionary: one file that fails
    makes the whole walk fail.  For a file of the root directory the
    two names differ: the tree has it under one slash and its name, and
    it is extracted, and listed in the SFO dictionary, under two slashes
    and its name; for every other directory the two names are the
    same. *)
Theorem iso_walk_stores_every_file out :
  iso_walk = Ok out →
  (∀ d f, In (d, f) (walked_files walk) →
          ∃ raw, get_file_from_iso_fp (sfo_file_of d f) = Ok raw
                 ∧ is_Some (out_tree out !! full_name_of d f)
                 ∧ (f = "UMD_DATA.BIN"%string →
                    (∃ umd, parse_umd_data raw = Ok umd) ∧ is_Some (out_umd_data out))
                 ∧ (endswith f ".SFO" = true →
                    (∃ info, sfo_info raw = Ok info)
                    ∧ is_Some (out_sfo_info out !! sfo_file_of d f)))
  ∧ (∀ f, full_name_of "/" f = String "/" f
          ∧ sfo_file_of "/" f = String "/" (String "/" f))
  ∧ (∀ d f, d ≠ "/"%string → full_name_of d f = sfo_file_of d f).
Proof.
  intros H. split; [exact (proj1 (iso_walk_spec _ _ _ _ H))|]. split.
  - intros f. done.
  - intros d f Hd. unfold full_name_of. by destruct (String.eqb_spec d "/").
Qed.

(** X24: when [iso_walk] returns, its three dictionaries hold nothing
    but what the files walked gave: every entry of the tree is the
    padded digest of the bytes of a file walked, every entry of the SFO
    dictionary is the dump of a file walked whose name ends in .SFO,
    under the name it was extracted with, and the UMD data are those of
    a file walked that is named UMD_DATA.BIN. *)
Theorem iso_walk_stores_nothing_else out :
  iso_walk = Ok out →
  (∀ k v, out_tree out !! k = Some v →
          ∃ d f raw, In (d, f) (walked_files walk) ∧ k = full_name_of d f
                     ∧ get_file_from_iso_fp (sfo_file_of d f) = Ok raw
                     ∧ v = sha1_text sha1 raw)
  ∧ (∀ k v, out_sfo_info out !! k = Some v →
            ∃ d f raw, In (d, f) (walked_files walk) ∧ endswith f ".SFO" = true
                       ∧ k = sfo_file_of d f
                       ∧ get_file_from_iso_fp k = Ok raw ∧ sfo_info raw = Ok v)
  ∧ (∀ umd, out_umd_data out = Some umd →
            ∃ d raw, In (d, "UMD_DATA.BIN"%string) (walked_files walk)
                     ∧ get_file_from_iso_fp (sfo_file_of d "UMD_DATA.BIN") = Ok raw
                     ∧ parse_umd_data raw = Ok umd).
Proof. intros H. exact (proj2 (iso_walk_spec _ _ _ _ H)). Qed.

End IsoWalkTheorems.

Lemma iso_walk_stores_every_file_witness :
  ∃ out, Submission.iso_walk root_sfo_walk root_sfo_files xor_hasher = Ok out
         ∧ is_Some (out_tree out !! "/PARAM.SFO"%string)
         ∧ is_Some (out_sfo_info out !! "//PARAM.SFO"%string).
Proof.
  destruct (Submission.iso_walk root_sfo_walk root_sfo_files xor_hasher) as [out|e] eqn:H.
  - exists out. split; [reflexivity|].
    destruct (iso_walk_stores_every_file _ _ _ _ H) as (H1 & _).
    destruct (H1 "/"%string "PARAM.SFO"%string) as (raw & _ & Ht & _ & Hs).
    + simpl. by left.
    + split; [exact Ht|]. apply Hs. vm_compute. reflexivity.
  - exfalso. vm_compute in H. discriminate.
Defined.

Lemma iso_walk_stores_nothing_else_witness :
  ∃ out, Submission.iso_walk small_walk small_files xor_hasher = Ok out
         ∧ ∀ k v, out_sfo_info out !! k = Some v →
                  ∃ d f raw, In (d, f) (walked_files small_walk)
                             ∧ k = sfo_file_of d f
                             ∧ small_files k = Ok raw ∧ sfo_info raw = Ok v.
Proof.
  destruct (Submission.iso_walk small_walk small_files xor_hasher) as [out|e] eqn:H.
  - exists out. split; [reflexivity|].
    destruct (iso_walk_stores_nothing_else _ _ _ _ H) as (_ & H2 & _).
    intros k v Hk. destruct (H2 k v Hk) as (d & f & raw & Hin & _ & Hn & Hg & Hi).
    exists d, f, raw. split; [exact Hin|]. split; [exact Hn|]. split; [exact Hg | exact Hi].
  - exfalso. vm_compute in H. discriminate.
Defined.

(** X27: on every file object the two scans for the volume descriptor
    end in one of three ways, at the same sector [k], the first from
    0x8000 whose type byte is 0x01 or 0xFF or that is empty: the
    descriptor is decoded, by [IsoHeader] for [get_pvd_header] and into
    the dictionary for [get_pvd_dump]; or both raise "Could not find
    PVD"; or both raise IndexError at the end of the file. *)
Theorem pvd_scans_end_at_the_same_sector f :
  ∃ k,
    (∀ j, (j < k)%nat → passed_over (sector_k (content f) j))
    ∧ ((getitem (sector_k (content f) k) 0 = Ok 0x01
        ∧ returned (get_pvd_header f) = Some (IsoHeader_init (sector_k (content f) k))
        ∧ returned (get_pvd_dump f) = Some (pvd_fields (sector_k (content f) k)))
       ∨ (getitem (sector_k (content f) k) 0 = Ok 0xFF
          ∧ get_pvd_header f = Some (Raise (Exception "Could not find PVD"))
          ∧ get_pvd_dump f = Some (Raise (Exception "Could not find PVD")))
       ∨ (sector_k (content f) k = []
          ∧ get_pvd_header f = Some (Raise IndexError)
          ∧ get_pvd_dump f = Some (Raise IndexError))).
Proof.
  destruct (first_stop (content f)) as (k & Hj & Hs). exists k. split; [done|].
  unfold get_pvd_header, get_pvd_dump.
  destruct (pvd_scan_outcome IsoHeader_init f k Hj) as (H1 & H2 & H3).
  destruct (pvd_scan_outcome pvd_fields f k Hj) as (D1 & D2 & D3).
  destruct Hs as [Hs|[Hs|Hs]]; [left|right; left|right; right]; auto.
Qed.

End SubmissionProperties.
